(** * ICD-9 lookup: the favourites store, the dataset cache and the search
    render of [assets/js/app.js], embedded and verified.

    The browser is the environment: its clock, its network, its storage and
    the library calls whose code is not part of the application (Fuse,
    [localeCompare], SHA-256, the text codec and the JSON codec) enter through
    the class [Host] or as arguments of the handlers.  Everything written in
    [app.js] itself is a definition below. *)

From Stdlib Require Import ZArith List Sorted Permutation Lia.
From Stdlib.Strings Require Import Ascii String Byte.
From stdpp Require Import base option gmap strings list pretty.

Local Open Scope string_scope.
Local Open Scope list_scope.
Local Open Scope Z_scope.

(** ** Config *)

Definition DATA_URL : string := "data/icd9.json".
Definition DB_NAME : string := "icd9-cache".
Definition STORE : string := "dataset".
Definition KEY : string := "icd9-rich".
Definition MAX_RESULTS : nat := 100.
Definition FAV_STORAGE_KEY : string := "icd9:favs".
Definition FAV_LRU_KEY : string := "icd9:favs:lru".

(** ** Data model *)

(** One catalogue entry, as delivered in [data/icd9.json]. *)
Record CodeRecord := mkRecord {
  code : string;
  name : string;
  kind : string;
  short : option string;
  syn : list string
}.

#[global] Instance CodeRecord_eq_dec : EqDecision CodeRecord.
Proof. solve_decision. Defined.

(** What [idbSet(KEY, { version, updated, data })] puts in the object store. *)
Record Snapshot := mkSnapshot {
  version : string;
  updated : Z;
  data : list CodeRecord
}.

#[global] Instance Snapshot_eq_dec : EqDecision Snapshot.
Proof. solve_decision. Defined.

(** A [localStorage] item.  The application writes two JSON texts; each is
    represented by the value it serialises (an array of codes, an object from
    code to timestamp). *)
Inductive LsItem :=
| LsCodes (codes : list string)
| LsLru (lru : gmap string Z).

(** ** The host *)

(** Library calls of the browser and of Fuse.

    [fuse_search docs q] is [FUSE.search(q).map(r => r.item)] for the index
    built on [docs] with the options of [buildFuse].  [localeCompare] is a
    consistent comparison function, as ECMAScript requires of it: swapping
    the arguments swaps the sign, and the order it induces is transitive.
    The dataset is an array of records, and [JSON_parse] is [JSON.parse] on
    the texts of such arrays and on the texts that are not JSON, where [None]
    is the exception it throws.  [JSON_foreign] tells the texts that are JSON
    of another shape (null, a number, an object, an array that holds
    something else than records).  [JSON.parse] returns a value for such a
    text, and the page stores it and assigns it to [DATA] before anything
    reads it as an array of records; what the page does from there depends
    on the value and on Fuse, and is outside the model: [fetchAndCache]
    below is the code on the payloads that are not foreign, and every
    statement about what a refresh leaves behind says so. *)
Class Host := {
  fuse_search : list CodeRecord -> string -> list CodeRecord;
  localeCompare : string -> string -> Z;
  localeCompare_swap : forall a b,
    Z.sgn (localeCompare b a) = - Z.sgn (localeCompare a b);
  localeCompare_trans : forall a b c,
    localeCompare a b <= 0 -> localeCompare b c <= 0 -> localeCompare a c <= 0;
  digest_SHA256 : list byte -> list byte;
  Date_toLocaleString : Z -> string;
  TextDecoder_decode : list byte -> string;
  TextEncoder_encode : string -> list byte;
  JSON_parse : string -> option (list CodeRecord);
  JSON_foreign : string -> bool;
  JSON_stringify : list CodeRecord -> string
}.

(** ** Strings *)

(** White space and line terminators of [String.prototype.trim] among the
    8-bit code units. *)
Definition isWhiteSpace (c : ascii) : bool :=
  let n := nat_of_ascii c in
  ((9 <=? n)%nat && (n <=? 13)%nat) || (n =? 32)%nat || (n =? 160)%nat.

Fixpoint trimStart (s : string) : string :=
  match s with
  | EmptyString => EmptyString
  | String c s' => if isWhiteSpace c then trimStart s' else s
  end.

Fixpoint trimEnd (s : string) : string :=
  match s with
  | EmptyString => EmptyString
  | String c s' =>
      match trimEnd s' with
      | EmptyString => if isWhiteSpace c then EmptyString else String c EmptyString
      | t => String c t
      end
  end.

Definition trim (s : string) : string := trimEnd (trimStart s).

(** Truthiness of a string: [q ? .. : ..], [!code]. *)
Definition truthy (s : string) : bool :=
  match s with EmptyString => false | _ => true end.

(** ** Hash util *)

Definition hexDigit (n : N) : ascii :=
  ascii_of_N (if (n <? 10)%N then 48 + n else 87 + n)%N.

(** [b.toString(16).padStart(2,'0')] *)
Definition byteHex (b : byte) : string :=
  let n := Byte.to_N b in
  String (hexDigit (n / 16)%N) (String (hexDigit (n mod 16)%N) EmptyString).

(** ** A JavaScript [Set] of strings: members in insertion order *)

Definition Set_has (x : string) (s : list string) : bool :=
  bool_decide (x ∈ s).

Definition Set_add (x : string) (s : list string) : list string :=
  if Set_has x s then s else s ++ [x].

Definition Set_delete (x : string) (s : list string) : list string :=
  List.filter (fun y => negb (String.eqb y x)) s.

(** [new Set(iterable)] *)
Definition Set_from (l : list string) : list string :=
  fold_left (fun s x => Set_add x s) l [].

(** ** A plain object from strings to numbers

    [FAV_LRU] is a plain object, modelled by its own properties.  Behind
    them is [Object.prototype], whose members every plain object inherits. *)
Definition Object_prototype : list string :=
  ["constructor"; "__defineGetter__"; "__defineSetter__"; "hasOwnProperty";
   "__lookupGetter__"; "__lookupSetter__"; "isPrototypeOf";
   "propertyIsEnumerable"; "toString"; "valueOf"; "__proto__"; "toLocaleString"].

(** What [o[k]] reads: an own number, an inherited member (a function, or
    for [__proto__] the prototype itself: truthy, and not a number), or
    [undefined]. *)
Inductive Read :=
| Own (v : Z)
| Inherited
| Undefined.

Definition Object_get (k : string) (o : gmap string Z) : Read :=
  match o !! k with
  | Some v => Own v
  | None => if bool_decide (k ∈ Object_prototype) then Inherited else Undefined
  end.

(** [o[k] = v] for a number [v]: an own property is made or updated, but for
    the name [__proto__] with no own property of that name: there the
    assignment calls the setter inherited from [Object.prototype], which
    ignores a value that is neither an object nor null. *)
Definition Object_set (k : string) (v : Z) (o : gmap string Z) : gmap string Z :=
  match o !! k with
  | None => if String.eqb k "__proto__" then o else <[k := v]> o
  | Some _ => <[k := v]> o
  end.

(** ** [Array.prototype.sort]

    The sort is stable, and where the comparator is consistent the result is
    the one of any stable sort; it is written as the insertion of each
    element, from the last to the first, before the first element that does
    not precede it.  Where the comparator is not consistent the order of the
    result is the implementation's, and nothing below speaks of it. *)
Section Sort.
Context {A : Type} (cmp : A -> A -> Z).

Fixpoint sortInsert (x : A) (l : list A) : list A :=
  match l with
  | [] => [x]
  | y :: l' => if cmp x y <=? 0 then x :: l else y :: sortInsert x l'
  end.

Definition Array_sort (l : list A) : list A := fold_right sortInsert [] l.

End Sort.

(** ** State *)

(** Text of [#cache-state]. *)
Inductive CacheState := csHit | csMiss | csFetching | csUpdated | csCleared | csError.

(** Text of [#pill-source] after [source: ]. *)
Inductive Source := srcIndexedDB | srcNetwork | srcDash.

Inductive Error :=
| FetchRejected                  (* [fetch] or [arrayBuffer] rejects *)
| FetchFailed (status : Z)       (* [new Error(`Fetch failed: ${resp.status}`)] *)
| JSONSyntaxError                (* [JSON.parse] throws *)
| IdbError.                      (* an IndexedDB request fails *)

Inductive Alert :=
| RefreshFailedAlert (e : Error)
| NothingInCacheAlert
| InitFailedAlert (e : Error).

(** The file offered by the export button. *)
Record Download := mkDownload {
  download : string;
  mimeType : string;
  content : list byte
}.

(** The elements [els] the script writes to.  A dash shown in place of a
    version or a date is [None]. *)
Record Els := mkEls {
  els_q : string;
  els_results : list CodeRecord;
  els_favs : list CodeRecord;
  els_favWrapHidden : bool;
  els_favCount : nat;
  els_resTitle : string;
  els_pillCount : nat;
  els_pillSource : Source;
  els_cacheState : CacheState;
  els_cacheVersion : option string;
  els_cacheUpdated : option string;
  els_btnRefreshDisabled : bool
}.

(** The module-level variables, the two stores and what the page has shown
    and offered so far.  [idbAvailable] tells whether [indexedDB.open]
    succeeds. *)
Record State := mkState {
  FUSE : option (list CodeRecord);
  DATA : option (list CodeRecord);
  FAVS : list string;
  FAV_LRU : gmap string Z;
  els : Els;
  localStorage : gmap string LsItem;
  idbAvailable : bool;
  idbStore : gmap string Snapshot;
  alerts : list Alert;
  downloads : list Download
}.

Definition set_FUSE (v : option (list CodeRecord)) (st : State) : State :=
  mkState v (DATA st) (FAVS st) (FAV_LRU st) (els st) (localStorage st)
          (idbAvailable st) (idbStore st) (alerts st) (downloads st).
Definition set_DATA (v : option (list CodeRecord)) (st : State) : State :=
  mkState (FUSE st) v (FAVS st) (FAV_LRU st) (els st) (localStorage st)
          (idbAvailable st) (idbStore st) (alerts st) (downloads st).
Definition set_FAVS (v : list string) (st : State) : State :=
  mkState (FUSE st) (DATA st) v (FAV_LRU st) (els st) (localStorage st)
          (idbAvailable st) (idbStore st) (alerts st) (downloads st).
Definition set_FAV_LRU (v : gmap string Z) (st : State) : State :=
  mkState (FUSE st) (DATA st) (FAVS st) v (els st) (localStorage st)
          (idbAvailable st) (idbStore st) (alerts st) (downloads st).
Definition set_els (v : Els) (st : State) : State :=
  mkState (FUSE st) (DATA st) (FAVS st) (FAV_LRU st) v (localStorage st)
          (idbAvailable st) (idbStore st) (alerts st) (downloads st).
Definition set_localStorage (v : gmap string LsItem) (st : State) : State :=
  mkState (FUSE st) (DATA st) (FAVS st) (FAV_LRU st) (els st) v
          (idbAvailable st) (idbStore st) (alerts st) (downloads st).
Definition set_idbStore (v : gmap string Snapshot) (st : State) : State :=
  mkState (FUSE st) (DATA st) (FAVS st) (FAV_LRU st) (els st) (localStorage st)
          (idbAvailable st) v (alerts st) (downloads st).
Definition alert (a : Alert) (st : State) : State :=
  mkState (FUSE st) (DATA st) (FAVS st) (FAV_LRU st) (els st) (localStorage st)
          (idbAvailable st) (idbStore st) (alerts st ++ [a]) (downloads st).
Definition offer (d : Download) (st : State) : State :=
  mkState (FUSE st) (DATA st) (FAVS st) (FAV_LRU st) (els st) (localStorage st)
          (idbAvailable st) (idbStore st) (alerts st) (downloads st ++ [d]).

(** ** Asynchronous code: state and exceptions *)

Definition M (A : Type) : Type := State -> (Error + A) * State.

Definition ret {A} (a : A) : M A := fun st => (inr a, st).
Definition throw {A} (e : Error) : M A := fun st => (inl e, st).
Definition bind {A B} (m : M A) (k : A -> M B) : M B :=
  fun st =>
    match m st with
    | (inl e, st') => (inl e, st')
    | (inr a, st') => k a st'
    end.
Definition modify (f : State -> State) : M unit := fun st => (inr tt, f st).

Notation "'do' x <- m ; k" := (bind m (fun x => k))
  (at level 10, x name, m at level 100, k at level 200).
Notation "'exec' m ; k" := (bind m (fun _ => k))
  (at level 10, m at level 100, k at level 200).

(** ** IndexedDB (dataset cache) *)

Definition idbOpen : M (gmap string Snapshot) :=
  fun st => if idbAvailable st then (inr (idbStore st), st) else (inl IdbError, st).

Definition idbGet (key : string) : M (option Snapshot) :=
  do db <- idbOpen; ret (db !! key).

Definition idbSet (key : string) (value : Snapshot) : M unit :=
  do db <- idbOpen; modify (set_idbStore (<[key := value]> db)).

Definition idbDel (key : string) : M unit :=
  do db <- idbOpen; modify (set_idbStore (delete key db)).

(** ** Writing to the page *)

Definition set_results (v : list CodeRecord) (e : Els) : Els :=
  mkEls (els_q e) v (els_favs e) (els_favWrapHidden e) (els_favCount e)
        (els_resTitle e) (els_pillCount e) (els_pillSource e) (els_cacheState e)
        (els_cacheVersion e) (els_cacheUpdated e) (els_btnRefreshDisabled e).
Definition set_favs (v : list CodeRecord) (e : Els) : Els :=
  mkEls (els_q e) (els_results e) v (els_favWrapHidden e) (els_favCount e)
        (els_resTitle e) (els_pillCount e) (els_pillSource e) (els_cacheState e)
        (els_cacheVersion e) (els_cacheUpdated e) (els_btnRefreshDisabled e).
Definition set_favWrapHidden (v : bool) (e : Els) : Els :=
  mkEls (els_q e) (els_results e) (els_favs e) v (els_favCount e)
        (els_resTitle e) (els_pillCount e) (els_pillSource e) (els_cacheState e)
        (els_cacheVersion e) (els_cacheUpdated e) (els_btnRefreshDisabled e).
Definition set_favCount (v : nat) (e : Els) : Els :=
  mkEls (els_q e) (els_results e) (els_favs e) (els_favWrapHidden e) v
        (els_resTitle e) (els_pillCount e) (els_pillSource e) (els_cacheState e)
        (els_cacheVersion e) (els_cacheUpdated e) (els_btnRefreshDisabled e).
Definition set_resTitle (v : string) (e : Els) : Els :=
  mkEls (els_q e) (els_results e) (els_favs e) (els_favWrapHidden e) (els_favCount e)
        v (els_pillCount e) (els_pillSource e) (els_cacheState e)
        (els_cacheVersion e) (els_cacheUpdated e) (els_btnRefreshDisabled e).
Definition set_btnRefreshDisabled (v : bool) (e : Els) : Els :=
  mkEls (els_q e) (els_results e) (els_favs e) (els_favWrapHidden e) (els_favCount e)
        (els_resTitle e) (els_pillCount e) (els_pillSource e) (els_cacheState e)
        (els_cacheVersion e) (els_cacheUpdated e) v.

(** The argument object of [setMeta]: [None] is a property left out.  For
    [version] and [updated], [Some None] is the dash passed by the caller. *)
Record Meta := mkMeta {
  count : option nat;
  source : option Source;
  version_ : option (option string);
  updated_ : option (option string);
  cacheState : option CacheState
}.

(** [x || '—'] *)
Definition orDash (x : option string) : option string :=
  match x with
  | Some s => if truthy s then Some s else None
  | None => None
  end.

Definition setMeta (m : Meta) (e : Els) : Els :=
  mkEls (els_q e) (els_results e) (els_favs e) (els_favWrapHidden e) (els_favCount e)
        (els_resTitle e)
        (match count m with Some n => n | None => els_pillCount e end)
        (match source m with Some s => s | None => els_pillSource e end)
        (match cacheState m with Some c => c | None => els_cacheState e end)
        (match version_ m with Some v => orDash v | None => els_cacheVersion e end)
        (match updated_ m with Some u => orDash u | None => els_cacheUpdated e end)
        (els_btnRefreshDisabled e).

Definition dquote : ascii := ascii_of_nat 34.

Section App.
Context `{Host}.

(** ** Hash util (for versioning) *)

Definition sha256Hex (buffer : list byte) : string :=
  String.concat "" (map byteHex (digest_SHA256 buffer)).

(** ** Helpers *)

Definition saveFavs (st : State) : State :=
  let st1 :=
    set_localStorage (<[FAV_STORAGE_KEY := LsCodes (FAVS st)]> (localStorage st)) st in
  set_localStorage (<[FAV_LRU_KEY := LsLru (FAV_LRU st1)]> (localStorage st1)) st1.

Definition isFav (c : string) (st : State) : bool := Set_has c (FAVS st).

(** [FAV_LRU[code] = Date.now()] *)
Definition touchFav (c : string) (now : Z) (st : State) : State :=
  set_FAV_LRU (Object_set c now (FAV_LRU st)) st.

(** ** Favourites (pinned) *)

(** [FAV_LRU[c] || 0], as the number the subtraction makes of it: [None] is
    NaN. *)
Definition lruOf (lru : gmap string Z) (c : string) : option Z :=
  match Object_get c lru with
  | Own t => Some t
  | Inherited => None
  | Undefined => Some 0
  end.

(** The comparator handed to [sort]: recent first, then code.  A difference
    that is NaN is falsy, as one that is 0. *)
Definition favCompare (lru : gmap string Z) (a b : CodeRecord) : Z :=
  match lruOf lru (code b), lruOf lru (code a) with
  | Some tb, Some ta =>
      if tb - ta =? 0 then localeCompare (code a) (code b) else tb - ta
  | _, _ => localeCompare (code a) (code b)
  end.

(** [new Map(all.map(r => [r.code, r]))]: a later record replaces an earlier
    one of the same code. *)
Definition byCodeMap (all : list CodeRecord) : gmap string CodeRecord :=
  fold_left (fun m r => <[code r := r]> m) all ∅.

Definition getFavRecords (all : option (list CodeRecord)) (st : State) : list CodeRecord :=
  match all with
  | None => []
  | Some all =>
      let byCode := byCodeMap all in
      Array_sort (favCompare (FAV_LRU st)) (omap (fun c => byCode !! c) (FAVS st))
  end.

(** ** Search render (favourites pinned first) *)

(** The candidate pool [hits]. *)
Definition searchHits (data fuse : list CodeRecord) (q : string) : list CodeRecord :=
  if truthy q then fuse_search fuse q else firstn (MAX_RESULTS * 2) data.

(** The loop that fills [favHits] and [otherHits]. *)
Definition partitionHits (favSet : list string) (hits : list CodeRecord)
  : list CodeRecord * list CodeRecord :=
  fold_left
    (fun acc it =>
       if Set_has (code it) favSet
       then (fst acc ++ [it], snd acc)
       else (fst acc, snd acc ++ [it]))
    hits ([], []).

(** [favHits.find(x => x.code === r.code)], read as a condition. *)
Definition inFavHits (favHits : list CodeRecord) (r : CodeRecord) : bool :=
  match List.find (fun x => String.eqb (code x) (code r)) favHits with
  | Some _ => true
  | None => false
  end.

Definition favFiltered (q : string) (allFavs favHits : list CodeRecord) : list CodeRecord :=
  if truthy q then List.filter (inFavHits favHits) allFavs else allFavs.

Definition resultsTitle (q : string) : string :=
  if truthy q
  then "Results for " +:+ String dquote (q +:+ String dquote EmptyString)
  else "Results".

Definition renderSearch (st : State) : State :=
  match DATA st, FUSE st with
  | Some data, Some fuse =>
      let q := trim (els_q (els st)) in
      let hits := searchHits data fuse q in
      let favSet := Set_from (FAVS st) in
      let (favHits, otherHits) := partitionHits favSet hits in
      let st1 := set_els (set_results (firstn MAX_RESULTS otherHits) (els st)) st in
      let allFavs := getFavRecords (DATA st1) st1 in
      let shown := favFiltered q allFavs favHits in
      set_els
        (set_resTitle (resultsTitle q)
           (set_favCount (length allFavs)
              (set_favs shown
                 (set_favWrapHidden (Nat.eqb (length shown) 0) (els st1)))))
        st1
  | _, _ => st
  end.

(** ** Fuse bootstrap: the index is known by the collection it was built on *)

Definition buildFuse (d : list CodeRecord) (st : State) : State :=
  set_FUSE (Some d) st.

(** ** Load/cache dataset *)

(** A stored value is a [Snapshot], whose [data] is an array: the test on
    [cached.data] holds whenever [cached] is there. *)
Definition loadFromCache : M bool :=
  do cached <- idbGet KEY;
  match cached with
  | Some c =>
      exec modify (set_DATA (Some (data c)));
      exec modify (buildFuse (data c));
      exec modify (fun st => set_els (setMeta
             (mkMeta (Some (length (data c))) (Some srcIndexedDB)
                     (Some (Some (version c)))
                     (Some (Some (Date_toLocaleString (updated c))))
                     (Some csHit)) (els st)) st);
      ret true
  | None =>
      exec modify (fun st => set_els (setMeta
             (mkMeta None None None None (Some csMiss)) (els st)) st);
      ret false
  end.

(** What [fetch(DATA_URL)] comes back with: the promise rejects, or a
    response arrives whose body [arrayBuffer()] delivers or fails to. *)
Inductive FetchOutcome :=
| Rejected
| Response (status : Z) (body : option (list byte)).

(** [resp.ok] *)
Definition ok (status : Z) : bool := (200 <=? status) && (status <=? 299).

Definition fetch (o : FetchOutcome) : M (Z * option (list byte)) :=
  match o with
  | Rejected => throw FetchRejected
  | Response status body => ret (status, body)
  end.

Definition arrayBuffer (body : option (list byte)) : M (list byte) :=
  match body with
  | Some buf => ret buf
  | None => throw FetchRejected
  end.

(** [now] is the reading of [Date.now()], [shown] the one of [new Date()].
    This is the code on a payload that is an array of records and on a text
    that is not JSON.  On JSON of a foreign shape the code goes on with the
    value [JSON.parse] returned, which this state cannot hold; such payloads
    are told by [foreignPayload] below and left out where a statement
    depends on them. *)
Definition fetchAndCache (o : FetchOutcome) (now shown : Z) : M unit :=
  exec modify (fun st => set_els (setMeta
         (mkMeta None None None None (Some csFetching)) (els st)) st);
  do resp <- fetch o;
  if negb (ok (fst resp)) then throw (FetchFailed (fst resp)) else
  do buf <- arrayBuffer (snd resp);
  let version := sha256Hex buf in
  let text := TextDecoder_decode buf in
  match JSON_parse text with
  | None => throw JSONSyntaxError
  | Some json =>
      exec idbSet KEY (mkSnapshot version now json);
      exec modify (set_DATA (Some json));
      exec modify (buildFuse json);
      modify (fun st => set_els (setMeta
         (mkMeta (Some (length json)) (Some srcNetwork)
                 (Some (Some version))
                 (Some (Some (Date_toLocaleString shown)))
                 (Some csUpdated)) (els st)) st)
  end.

(** The response is a success whose body is JSON of another shape than an
    array of records: a payload on which the model does not follow the
    page. *)
Definition foreignPayload (o : FetchOutcome) : bool :=
  match o with
  | Response status (Some buf) => ok status && JSON_foreign (TextDecoder_decode buf)
  | _ => false
  end.

(** ** Events *)

(** Star clicks.  [btn] is what the click resolves to: [None] when no
    [button.star] encloses the target, else the button's [data-code], itself
    [None] when the attribute is missing. *)
Definition onStarClick (btn : option (option string)) (now : Z) (st : State) : State :=
  match btn with
  | None => st
  | Some None => st
  | Some (Some c) =>
      if negb (truthy c) then st else
      let st1 :=
        if Set_has c (FAVS st)
        then set_FAV_LRU (delete c (FAV_LRU st)) (set_FAVS (Set_delete c (FAVS st)) st)
        else touchFav c now (set_FAVS (Set_add c (FAVS st)) st) in
      renderSearch (saveFavs st1)
  end.

(** A series of star clicks, each with the clock reading at its time. *)
Definition starClicks (evs : list (option (option string) * Z)) (st : State) : State :=
  fold_left (fun s ev => onStarClick (fst ev) (snd ev) s) evs st.

Definition btnRefresh_click (o : FetchOutcome) (now shown : Z) (st : State) : State :=
  let st0 := set_els (set_btnRefreshDisabled true (els st)) st in
  let st2 :=
    match fetchAndCache o now shown st0 with
    | (inr _, st1) => renderSearch st1
    | (inl e, st1) =>
        let st1' := alert (RefreshFailedAlert e) st1 in
        set_els (setMeta (mkMeta None None None None (Some csError)) (els st1')) st1'
    end in
  set_els (set_btnRefreshDisabled false (els st2)) st2.

Definition btnClear_click : M unit :=
  exec idbDel KEY;
  exec modify (set_DATA None);
  exec modify (set_FUSE None);
  exec modify (fun st => set_els (setMeta
         (mkMeta (Some 0%nat) (Some srcDash) (Some None) (Some None) (Some csCleared))
         (els st)) st);
  modify (fun st => set_els (set_results [] (els st)) st).

Definition btnExport_click : M unit :=
  do cached <- idbGet KEY;
  match cached with
  | None => modify (alert NothingInCacheAlert)
  | Some c =>
      modify (offer (mkDownload "icd9.json" "application/json"
                       (TextEncoder_encode (JSON_stringify (data c)))))
  end.

(** ** Boot *)

Definition boot (o : FetchOutcome) (now shown : Z) (st : State) : State :=
  let run : M unit :=
    do hadCache <- loadFromCache;
    exec (if negb hadCache then fetchAndCache o now shown else ret tt);
    modify renderSearch in
  match run st with
  | (inr _, st1) => st1
  | (inl e, st1) =>
      let st1' :=
        set_els (setMeta (mkMeta None None None None (Some csError)) (els st1)) st1 in
      alert (InitFailedAlert e) st1'
  end.

End App.

(** The two module variables as the script initialises them from
    [localStorage]; [None] when the stored text is not of the shape
    [saveFavs] writes. *)
Definition initFAVS (ls : gmap string LsItem) : option (list string) :=
  match ls !! FAV_STORAGE_KEY with
  | None => Some []
  | Some (LsCodes l) => Some (Set_from l)
  | Some (LsLru _) => None
  end.

Definition initFAV_LRU (ls : gmap string LsItem) : option (gmap string Z) :=
  match ls !! FAV_LRU_KEY with
  | None => Some ∅
  | Some (LsLru m) => Some m
  | Some (LsCodes _) => None
  end.

(** ** A host to compute with

    Code-unit collation, substring search, an additive checksum where the
    browser has SHA-256, the 8-bit text codec, and a JSON codec that writes
    record arrays, reads the empty array (with any white space in and around
    it) and knows five texts as JSON of another shape; every other text is a
    syntax error to it.  The theorems hold for every host; these functions
    make the one that closes the examples. *)
Module TinyHost.

Definition collate (a b : string) : Z :=
  match String.compare a b with
  | Lt => -1
  | Eq => 0
  | Gt => 1
  end.

Fixpoint occursIn (q s : string) : bool :=
  String.prefix q s ||
  match s with
  | EmptyString => false
  | String _ s' => occursIn q s'
  end.

Definition search (docs : list CodeRecord) (q : string) : list CodeRecord :=
  List.filter (fun r => occursIn q (code r) || occursIn q (name r)) docs.

Definition checksum (buf : list byte) : list byte :=
  let n := fold_left (fun acc b => ((acc + Byte.to_N b) mod 256)%N) buf 0%N in
  [default x00 (Byte.of_N n)].

Definition isJSONSpace (c : ascii) : bool :=
  let n := nat_of_ascii c in
  (n =? 32)%nat || (n =? 9)%nat || (n =? 10)%nat || (n =? 13)%nat.

Fixpoint dropSpaces (s : string) : string :=
  match s with
  | EmptyString => EmptyString
  | String c s' => if isJSONSpace c then dropSpaces s' else String c (dropSpaces s')
  end.

Definition parse (text : string) : option (list CodeRecord) :=
  if String.eqb (dropSpaces text) "[]" then Some [] else None.

Definition foreign (text : string) : bool :=
  String.eqb text "null" || String.eqb text "true" || String.eqb text "false"
  || String.eqb text "0" || String.eqb text "{}".

Definition backslash : ascii := ascii_of_nat 92.

Definition escape (c : ascii) : string :=
  let n := N_of_ascii c in
  if (n =? 34)%N then String backslash (String dquote EmptyString)
  else if (n =? 92)%N then String backslash (String backslash EmptyString)
  else if (n =? 8)%N then String backslash "b"
  else if (n =? 9)%N then String backslash "t"
  else if (n =? 10)%N then String backslash "n"
  else if (n =? 12)%N then String backslash "f"
  else if (n =? 13)%N then String backslash "r"
  else if (n <? 32)%N
       then String backslash "u00"
            +:+ String (hexDigit (n / 16)%N) (String (hexDigit (n mod 16)%N) EmptyString)
  else String c EmptyString.

Definition quote (s : string) : string :=
  String dquote
    (String.concat "" (map escape (list_ascii_of_string s))
     +:+ String dquote EmptyString).

Definition member (k v : string) : string := quote k +:+ ":" +:+ v.

Definition stringifyRecord (r : CodeRecord) : string :=
  "{" +:+ String.concat ","
    ([member "code" (quote (code r));
      member "name" (quote (name r));
      member "kind" (quote (kind r))]
     ++ match short r with Some s => [member "short" (quote s)] | None => [] end
     ++ match syn r with
        | [] => []
        | l => [member "syn" ("[" +:+ String.concat "," (map quote l) +:+ "]")]
        end)
  +:+ "}".

Definition stringify (l : list CodeRecord) : string :=
  "[" +:+ String.concat "," (map stringifyRecord l) +:+ "]".

End TinyHost.

(** A collation that, as the browsers' does on letters, compares without
    regard to case first and on a tie puts the lower-case letter first. *)
Module CaseHost.

Definition lower (c : ascii) : ascii :=
  let n := nat_of_ascii c in
  if (65 <=? n)%nat && (n <=? 90)%nat then ascii_of_nat (n + 32) else c.

Fixpoint fold (s : string) : string :=
  match s with
  | EmptyString => EmptyString
  | String c s' => String (lower c) (fold s')
  end.

Definition collate (a b : string) : Z :=
  match String.compare (fold a) (fold b) with
  | Lt => -1
  | Gt => 1
  | Eq =>
      match String.compare b a with
      | Lt => -1
      | Eq => 0
      | Gt => 1
      end
  end.

End CaseHost.

(** The network request succeeded: a response came, its status is 2xx and its
    body arrived. *)
Definition requestSucceeds (o : FetchOutcome) : bool :=
  match o with
  | Response status (Some _) => ok status
  | _ => false
  end.

(** The errors of the request itself, as against those of decoding and of
    storing. *)
Definition isFetchError (e : Error) : bool :=
  match e with
  | FetchRejected | FetchFailed _ => true
  | JSONSyntaxError | IdbError => false
  end.

Definition fetching (st : State) : State :=
  set_els (setMeta (mkMeta None None None None (Some csFetching)) (els st)) st.

(** The index, when there is one, is the index of the resident catalogue. *)
Definition indexed (st : State) : Prop := FUSE st = DATA st.

(** Every code that has a timestamp is a favourite. *)
Definition lruWithinFavs (st : State) : Prop :=
  forall c, is_Some (FAV_LRU st !! c) -> c ∈ FAVS st.

(** ** Scenarios *)

Definition blankEls : Els :=
  mkEls "" [] [] true 0 "Results" 0 srcDash csMiss None None false.

(** A fresh session: nothing loaded, nothing stored, the database reachable. *)
Definition freshState : State := mkState None None [] ∅ blankEls ∅ true ∅ [] [].

Definition entry (c n : string) : CodeRecord := mkRecord c n "dx" None [].

(** Favourites A (touched at 100), B (touched at 200) and C (no timestamp). *)
Definition recA : CodeRecord := entry "A" "alpha".
Definition recB : CodeRecord := entry "B" "beta".
Definition recC : CodeRecord := entry "C" "gamma".

Definition stABC : State :=
  set_FAV_LRU (<["A" := 100]> (<["B" := 200]> ∅))
    (set_FAVS ["A"; "B"; "C"] freshState).

(** Favourites b, a, c, starred in this order and all touched at 5. *)
Definition stTies : State :=
  set_FAV_LRU (<["b" := 5]> (<["a" := 5]> (<["c" := 5]> ∅)))
    (set_FAVS ["b"; "a"; "c"] freshState).

(** One favourite, A, touched at 100. *)
Definition stA : State :=
  set_FAV_LRU {["A" := 100]} (set_FAVS ["A"] freshState).

(** X and Y are favourites, Z is not; X and Z match the query abc. *)
Definition recX : CodeRecord := entry "abc.1" "first".
Definition recY : CodeRecord := entry "xyz.2" "second".
Definition recZ : CodeRecord := entry "abc.3" "third".
Definition catalogXYZ : list CodeRecord := [recX; recY; recZ].

(** Two favourites that both match abc; the later in the catalogue was
    touched last. *)
Definition catalogXZ : list CodeRecord := [recX; recZ].

Definition typing (text : string) (e : Els) : Els :=
  mkEls text (els_results e) (els_favs e) (els_favWrapHidden e) (els_favCount e)
        (els_resTitle e) (els_pillCount e) (els_pillSource e) (els_cacheState e)
        (els_cacheVersion e) (els_cacheUpdated e) (els_btnRefreshDisabled e).

Definition resident (d : list CodeRecord) (st : State) : State :=
  buildFuse d (set_DATA (Some d) st).

Definition stXYZ : State :=
  set_els (typing " abc " blankEls)
    (set_FAV_LRU (<["abc.1" := 10]> (<["xyz.2" := 20]> ∅))
       (set_FAVS ["abc.1"; "xyz.2"] (resident catalogXYZ freshState))).

Definition stXZ : State :=
  set_els (typing "abc" blankEls)
    (set_FAV_LRU (<["abc.1" := 10]> (<["abc.3" := 30]> ∅))
       (set_FAVS ["abc.1"; "abc.3"] (resident catalogXZ freshState))).

(** 250 records, coded 0 to 249; three of the first 200 are favourites; the
    query is blank. *)
Definition catalog250 : list CodeRecord :=
  map (fun n : nat => entry (pretty n) "item") (seq 0 250).

Definition st250 : State :=
  set_els (typing "  " blankEls)
    (set_FAVS ["3"; "150"; "240"] (resident catalog250 freshState)).

(** A snapshot of one record in the cache. *)
Definition snapX : Snapshot := mkSnapshot "00" 5 [recX].
Definition stCached : State := set_idbStore {[KEY := snapX]} freshState.

(** The empty record array, written with a blank inside. *)
Definition spacedEmptyArray : list byte := list_byte_of_string "[ ]".

(** A payload that is not JSON. *)
Definition notJSON : list byte := list_byte_of_string "x".

(** A session whose database cannot be opened. *)
Definition stNoIdb : State := mkState None None [] ∅ blankEls ∅ false ∅ [] [].

(** * The rest of the script *)

(** ** Helpers: [escapeHtml] *)

(** What the callback of [s.replace] puts for one character: an entity for
    the ampersand, the two angle brackets and the double quote, the
    character itself for any other. *)
Definition escapeChar (c : ascii) : string :=
  if Ascii.eqb c "&" then "&amp;"
  else if Ascii.eqb c "<" then "&lt;"
  else if Ascii.eqb c ">" then "&gt;"
  else if Ascii.eqb c dquote then "&quot;"
  else String c EmptyString.

Fixpoint escapeHtml (s : string) : string :=
  match s with
  | EmptyString => EmptyString
  | String c s' => escapeChar c +:+ escapeHtml s'
  end.

(** The characters the pattern matches. *)
Definition isHtmlSpecial (c : ascii) : bool :=
  Ascii.eqb c "&" || Ascii.eqb c "<" || Ascii.eqb c ">" || Ascii.eqb c dquote.

Fixpoint occurs (c : ascii) (s : string) : bool :=
  match s with
  | EmptyString => false
  | String d s' => Ascii.eqb c d || occurs c s'
  end.

(** The favourites and their timestamps are in [localStorage] as they are in
    memory. *)
Definition favsSaved (st : State) : Prop :=
  localStorage st !! FAV_STORAGE_KEY = Some (LsCodes (FAVS st))
  /\ localStorage st !! FAV_LRU_KEY = Some (LsLru (FAV_LRU st)).

(** The part of the state the favourites live in. *)
Definition favouritesOf (st : State)
  : list string * gmap string Z * gmap string LsItem :=
  (FAVS st, FAV_LRU st, localStorage st).

(** The part of the state the dataset lives in. *)
Definition datasetOf (st : State)
  : option (list CodeRecord) * option (list CodeRecord) * gmap string Snapshot :=
  (DATA st, FUSE st, idbStore st).

(** The script outside the search and the cache: connectivity, the debounced
    input, the console. *)
Record Shell := mkShell {
  core : State;
  isOnline : bool;
  offlineShown : bool;          (* [offlineIndicator] has the class [show] *)
  offlineText : string;
  searchTimer : bool;           (* the timer [t] of [debounce] is pending *)
  console : list Error          (* what [console.error] was given *)
}.

Definition set_core (v : State) (sh : Shell) : Shell :=
  mkShell v (isOnline sh) (offlineShown sh) (offlineText sh) (searchTimer sh)
          (console sh).
Definition set_isOnline (v : bool) (sh : Shell) : Shell :=
  mkShell (core sh) v (offlineShown sh) (offlineText sh) (searchTimer sh)
          (console sh).
Definition set_offline (shown : bool) (text : string) (sh : Shell) : Shell :=
  mkShell (core sh) (isOnline sh) shown text (searchTimer sh) (console sh).
Definition set_searchTimer (v : bool) (sh : Shell) : Shell :=
  mkShell (core sh) (isOnline sh) (offlineShown sh) (offlineText sh) v (console sh).
Definition console_error (e : Error) (sh : Shell) : Shell :=
  mkShell (core sh) (isOnline sh) (offlineShown sh) (offlineText sh) (searchTimer sh)
          (console sh ++ [e]).

(** The offline banner says what [isOnline] says. *)
Definition indicatorRight (sh : Shell) : Prop :=
  offlineShown sh = negb (isOnline sh)
  /\ offlineText sh
     = if isOnline sh then "You're online - data will sync"
       else "You're offline - using cached data".

(** What the page can be sent. *)
Inductive Event :=
| Typed (text : string)
| TimerFired
| StarClicked (btn : option (option string)) (now : Z)
| RefreshClicked (o : FetchOutcome) (now shown : Z)
| ClearClicked
| ExportClicked
| WentOnline (o : FetchOutcome) (now shown : Z)
| WentOffline.

Definition isStarClick (ev : Event) : bool :=
  match ev with StarClicked _ _ => true | _ => false end.

Section ForeignEvents.
Context `{Host}.

(** The events that bring a foreign payload. *)
Definition foreignEvent (ev : Event) : bool :=
  match ev with
  | RefreshClicked o _ _ | WentOnline o _ _ => foreignPayload o
  | _ => false
  end.

End ForeignEvents.

(** The events whose handlers write the dataset. *)
Definition writesDataset (ev : Event) : bool :=
  match ev with
  | RefreshClicked _ _ _ | ClearClicked | WentOnline _ _ _ => true
  | _ => false
  end.

Section Script.
Context `{Host}.

(** What a star click of a non-empty code does to the two module variables,
    before it saves and renders. *)
Definition toggled (c : string) (now : Z) (st : State) : State :=
  if Set_has c (FAVS st)
  then set_FAV_LRU (delete c (FAV_LRU st)) (set_FAVS (Set_delete c (FAVS st)) st)
  else touchFav c now (set_FAVS (Set_add c (FAVS st)) st).

(** ** Favourites (pinned): [refreshFavouritesUI] *)

Definition refreshFavouritesUI (st : State) : State :=
  let favList := getFavRecords (DATA st) st in
  set_els
    (set_favs favList
       (set_favWrapHidden (Nat.eqb (length favList) 0)
          (set_favCount (length favList) (els st))))
    st.

(** ** Events: the debounced search *)

(** [onSearch = debounce(renderSearch, 80)]: a call drops the pending timer
    and sets a new one. *)
Definition onSearch (sh : Shell) : Shell := set_searchTimer true sh.

(** The listener of [input] on the search box. *)
Definition q_input (sh : Shell) : Shell :=
  match FUSE (core sh) with
  | Some _ => onSearch sh
  | None => sh
  end.

(** The pending timer of [debounce] runs out. *)
Definition searchTimer_fires (sh : Shell) : Shell :=
  if searchTimer sh
  then set_searchTimer false (set_core (renderSearch (core sh)) sh)
  else sh.

(** ** Offline detection *)

Definition updateOfflineStatus (sh : Shell) : Shell :=
  if isOnline sh
  then set_offline false "You're online - data will sync" sh
  else set_offline true "You're offline - using cached data" sh.

Definition window_online (o : FetchOutcome) (now shown : Z) (sh : Shell) : Shell :=
  let sh1 := updateOfflineStatus (set_isOnline true sh) in
  match DATA (core sh1) with
  | Some _ => sh1
  | None =>
      match fetchAndCache o now shown (core sh1) with
      | (inr _, st) => set_core st sh1
      | (inl e, st) => console_error e (set_core st sh1)
      end
  end.

Definition window_offline (sh : Shell) : Shell :=
  updateOfflineStatus (set_isOnline false sh).

(** ** The page as a whole *)

(** The user edits the search box, the browser sends [input]. *)
Definition typed (text : string) (sh : Shell) : Shell :=
  q_input (set_core (set_els (typing text (els (core sh))) (core sh)) sh).

Definition step (ev : Event) (sh : Shell) : Shell :=
  match ev with
  | Typed text => typed text sh
  | TimerFired => searchTimer_fires sh
  | StarClicked btn now => set_core (onStarClick btn now (core sh)) sh
  | RefreshClicked o now shown => set_core (btnRefresh_click o now shown (core sh)) sh
  | ClearClicked => set_core (snd (btnClear_click (core sh))) sh
  | ExportClicked => set_core (snd (btnExport_click (core sh))) sh
  | WentOnline o now shown => window_online o now shown sh
  | WentOffline => window_offline sh
  end.

Definition run (evs : list Event) (sh : Shell) : Shell :=
  fold_left (fun s ev => step ev s) evs sh.

End Script.

(** * The service worker ([sw.js]) *)

Module SW.

Definition CACHE_NAME : string := "icd9-lookup-v1".
Definition STATIC_CACHE : string := "icd9-static-v1".
Definition DATA_CACHE : string := "icd9-data-v1".

Definition STATIC_FILES : list string :=
  ["./"; "./index.html"; "./data/icd9.json"; "./assets/js/fuse.min.js";
   "./manifest.json"].

(** A response, as far as the worker makes or inspects one. *)
Record Resp := mkResp {
  status : Z;
  statusText : string;
  contentType : option string;
  body : list byte
}.

(** A request, with the path of its parsed URL. *)
Record Req := mkReq {
  method : string;
  destination : string;
  url : string;
  pathname : string
}.

(** What [fetch] gives the worker: it throws, or a response arrives. *)
Inductive Net :=
| NetError
| NetResp (r : Resp).

(** The [CacheStorage]: the caches by name, in the order they were made,
    each from the URL of a request to the response kept for it. *)
Definition hasName (name : string) (c : string * gmap string Resp) : bool :=
  String.eqb (fst c) name.

(** [caches.match]: the first cache, in that order, that holds the URL. *)
Fixpoint caches_match (cs : list (string * gmap string Resp)) (u : string)
  : option Resp :=
  match cs with
  | [] => None
  | c :: cs' =>
      match snd c !! u with
      | Some r => Some r
      | None => caches_match cs' u
      end
  end.

(** [caches.open(name)] then [cache.put] of a response that is taken: the
    cache is made if it is not there. *)
Fixpoint cache_put (name u : string) (r : Resp) (cs : list (string * gmap string Resp))
  : list (string * gmap string Resp) :=
  match cs with
  | [] => [(name, {[u := r]})]
  | c :: cs' =>
      if hasName name c then (fst c, <[u := r]> (snd c)) :: cs'
      else c :: cache_put name u r cs'
  end.

Fixpoint caches_open (name : string) (cs : list (string * gmap string Resp))
  : list (string * gmap string Resp) :=
  match cs with
  | [] => [(name, ∅)]
  | c :: cs' => if hasName name c then cs else c :: caches_open name cs'
  end.

(** [cache.put] and [cache.add] refuse a partial response. *)
Definition storable (r : Resp) : bool := negb (status r =? 206).

(** [caches.open(name)] then [cache.put] of a response that may be refused:
    the cache is made either way. *)
Definition open_put (name u : string) (r : Resp) (cs : list (string * gmap string Resp))
  : list (string * gmap string Resp) :=
  if storable r then cache_put name u r cs else caches_open name cs.

(** [s.endsWith(suffix)] *)
Definition endsWith (s suffix : string) : bool :=
  let n := String.length s in
  let k := String.length suffix in
  (k <=? n)%nat && String.eqb (String.substring (n - k) k s) suffix.

(** [getBasePath], on the scope of the registration. *)
Definition getBasePath (scope : string) : string :=
  if endsWith scope "/" then scope else scope +:+ "/".

(** A [Response] made of a string with no headers given gets this type. *)
Definition textPlain : string := "text/plain;charset=UTF-8".

Definition offlineDocument : Resp :=
  mkResp 503 "Service Unavailable" (Some textPlain)
         (list_byte_of_string "Offline - Please check your connection").

Definition offlineData : Resp :=
  mkResp 503 "Service Unavailable" (Some "application/json")
         (list_byte_of_string
            ("{" +:+ String dquote "error" +:+ String dquote ":"
             +:+ String dquote "Data unavailable offline" +:+ String dquote "}")).

Definition offlineScript : Resp :=
  mkResp 503 "Service Unavailable" (Some "application/javascript")
         (list_byte_of_string "// Script unavailable offline").

Definition offlineAsset : Resp :=
  mkResp 503 "Service Unavailable" (Some textPlain)
         (list_byte_of_string "Asset unavailable offline").

(** Which handler the [fetch] listener hands a request to; [Unhandled] is a
    request it leaves to the browser. *)
Inductive Route := Document | Data | Script | Static | Unhandled.

Definition route (req : Req) : Route :=
  if String.eqb (method req) "GET" then
    if String.eqb (destination req) "document"
       || String.eqb (pathname req) "/"
       || String.eqb (pathname req) "/index.html"
    then Document
    else if endsWith (pathname req) ".json" then Data
    else if endsWith (pathname req) ".js" then Script
    else Static
  else Unhandled.

Section Worker.
(** How the worker's location turns a relative path into a URL. *)
Variable resolve : string -> string.

(** Install: the static cache is opened and each file is added; a file whose
    fetch fails, is not answered with success or is refused is skipped. *)
Definition cache_add (fetched : string -> Net) (file : string)
           (cs : list (string * gmap string Resp)) : list (string * gmap string Resp) :=
  match fetched file with
  | NetResp r =>
      if ok (status r) && storable r then cache_put STATIC_CACHE (resolve file) r cs
      else cs
  | NetError => cs
  end.

Definition install (fetched : string -> Net) (cs : list (string * gmap string Resp))
  : list (string * gmap string Resp) :=
  fold_left (fun acc file => cache_add fetched file acc) STATIC_FILES
            (caches_open STATIC_CACHE cs).

(** Activate: every cache but the static and the data cache is deleted. *)
Definition activate (cs : list (string * gmap string Resp))
  : list (string * gmap string Resp) :=
  List.filter (fun c => hasName STATIC_CACHE c || hasName DATA_CACHE c) cs.

(** The first of [possiblePaths] that is in a cache. *)
Fixpoint firstCached (cs : list (string * gmap string Resp)) (paths : list string)
  : option Resp :=
  match paths with
  | [] => None
  | path :: paths' =>
      match caches_match cs (resolve path) with
      | Some r => Some r
      | None => firstCached cs paths'
      end
  end.

Definition handleDocumentRequest (req : Req) (net : Net)
           (cs : list (string * gmap string Resp))
  : Resp * list (string * gmap string Resp) :=
  match caches_match cs (url req) with
  | Some cached => (cached, cs)
  | None =>
      match net with
      | NetResp r =>
          (r, if ok (status r) then open_put STATIC_CACHE (url req) r cs else cs)
      | NetError =>
          match firstCached cs ["./index.html"; "/index.html"; "index.html"] with
          | Some r => (r, cs)
          | None => (offlineDocument, cs)
          end
      end
  end.

Definition handleDataRequest (req : Req) (net : Net)
           (cs : list (string * gmap string Resp))
  : Resp * list (string * gmap string Resp) :=
  match caches_match cs (url req) with
  | Some cached => (cached, cs)
  | None =>
      match net with
      | NetResp r =>
          (r, if ok (status r) then open_put DATA_CACHE (url req) r cs else cs)
      | NetError =>
          match caches_match cs (url req) with
          | Some cached => (cached, cs)
          | None => (offlineData, cs)
          end
      end
  end.

Definition handleScriptRequest (req : Req) (net : Net)
           (cs : list (string * gmap string Resp))
  : Resp * list (string * gmap string Resp) :=
  match caches_match cs (url req) with
  | Some cached => (cached, cs)
  | None =>
      match net with
      | NetResp r =>
          (r, if ok (status r) then open_put STATIC_CACHE (url req) r cs else cs)
      | NetError => (offlineScript, cs)
      end
  end.

Definition handleStaticRequest (req : Req) (net : Net)
           (cs : list (string * gmap string Resp))
  : Resp * list (string * gmap string Resp) :=
  match caches_match cs (url req) with
  | Some cached => (cached, cs)
  | None =>
      match net with
      | NetResp r =>
          (r, if ok (status r) then open_put STATIC_CACHE (url req) r cs else cs)
      | NetError => (offlineAsset, cs)
      end
  end.

(** The [fetch] listener: [None] when it does not answer the request. *)
Definition onFetch (req : Req) (net : Net) (cs : list (string * gmap string Resp))
  : option (Resp * list (string * gmap string Resp)) :=
  match route req with
  | Document => Some (handleDocumentRequest req net cs)
  | Data => Some (handleDataRequest req net cs)
  | Script => Some (handleScriptRequest req net cs)
  | Static => Some (handleStaticRequest req net cs)
  | Unhandled => None
  end.

Definition doBackgroundSync (net : Net) (cs : list (string * gmap string Resp))
  : list (string * gmap string Resp) :=
  match net with
  | NetResp r =>
      if ok (status r) then open_put DATA_CACHE (resolve "./data/icd9.json") r cs
      else cs
  | NetError => cs
  end.

End Worker.

(** What the worker can be sent after its install. *)
Inductive WorkerEvent :=
| Activated
| Synced (net : Net)
| Fetched (req : Req) (net : Net).

Definition workerStep (resolve : string -> string) (ev : WorkerEvent)
           (cs : list (string * gmap string Resp)) : list (string * gmap string Resp) :=
  match ev with
  | Activated => activate cs
  | Synced net => doBackgroundSync resolve net cs
  | Fetched req net =>
      match onFetch resolve req net cs with
      | Some answer => snd answer
      | None => cs
      end
  end.

Definition workerRun (resolve : string -> string) (evs : list WorkerEvent)
           (cs : list (string * gmap string Resp)) : list (string * gmap string Resp) :=
  fold_left (fun acc ev => workerStep resolve ev acc) evs cs.

(** The cache of that name holds the URL. *)
Definition holds (name u : string) (cs : list (string * gmap string Resp)) : Prop :=
  exists c, In c cs /\ fst c = name /\ is_Some (snd c !! u).

(** The static cache is the first cache and keeps this response for the URL. *)
Definition heldFirst (u : string) (r : Resp) (cs : list (string * gmap string Resp))
  : Prop :=
  exists m cs', cs = (STATIC_CACHE, m) :: cs' /\ m !! u = Some r.

(** What the page's [fetch] gets of a response. *)
Definition toPage (r : Resp) : FetchOutcome := Response (status r) (Some (body r)).

(** A [fetch] of the page the worker controls: the worker's answer when it
    gives one, the network's when it leaves the request alone. *)
Definition pageFetch (resolve : string -> string) (req : Req) (net : Net)
           (cs : list (string * gmap string Resp))
  : FetchOutcome * list (string * gmap string Resp) :=
  match onFetch resolve req net cs with
  | Some answer => (toPage (fst answer), snd answer)
  | None =>
      (match net with
       | NetError => Rejected
       | NetResp r => toPage r
       end, cs)
  end.

End SW.

(** ** More scenarios *)

(** The catalogue X, Y, Z with X and Y favourites, the search box blank. *)
Definition stXYZblank : State := set_els (typing "" blankEls) stXYZ.

(** Two favourites that differ by the case of a letter, neither with a
    timestamp. *)
Definition recLower : CodeRecord := entry "v10" "lower".
Definition recUpper : CodeRecord := entry "V10" "upper".
Definition stCase : State := set_FAVS ["V10"; "v10"] freshState.

(** A favourite touched at 5 and one, without a timestamp, whose code is the
    name of a method of every object. *)
Definition recLast : CodeRecord := entry "zz" "last".
Definition recMethod : CodeRecord := entry "toString" "method".
Definition stMethod : State :=
  set_FAV_LRU {["zz" := 5]} (set_FAVS ["zz"; "toString"] freshState).

(** A page that is online, with no timer pending and a silent console. *)
Definition shellOf (st : State) : Shell :=
  mkShell st true false "You're online - data will sync" false [].

(** A worker whose paths are taken as they are written, a server that answers
    every path with 200 and the path as its body, and the page's request for
    the data file. *)
Definition asWritten (path : string) : string := path.

Definition plain (text : string) : SW.Resp :=
  SW.mkResp 200 "OK" None (list_byte_of_string text).

Definition served (path : string) : SW.Net := SW.NetResp (plain path).

Definition dataReq : SW.Req :=
  SW.mkReq "GET" "" "./data/icd9.json" "/data/icd9.json".

Definition staticOnly : list (string * gmap string SW.Resp) :=
  [(SW.STATIC_CACHE, {["./data/icd9.json" := plain "old"]})].

(** * Properties *)

(** ** The [Set] operations *)

Lemma Set_has_true (x : string) (s : list string) : Set_has x s = true <-> x ∈ s.
Proof. unfold Set_has. apply bool_decide_eq_true. Qed.

Lemma Set_has_false (x : string) (s : list string) : Set_has x s = false <-> x ∉ s.
Proof. unfold Set_has. apply bool_decide_eq_false. Qed.

Lemma elem_of_Set_add (x y : string) (s : list string) :
  y ∈ Set_add x s <-> y = x \/ y ∈ s.
Proof.
  unfold Set_add. destruct (Set_has x s) eqn:E.
  - apply Set_has_true in E. split; [auto | intros [-> | ?]; auto].
  - rewrite elem_of_app, list_elem_of_singleton. tauto.
Qed.

Lemma elem_of_Set_delete (x y : string) (s : list string) :
  y ∈ Set_delete x s <-> y <> x /\ y ∈ s.
Proof.
  unfold Set_delete. rewrite !list_elem_of_In, filter_In.
  rewrite Bool.negb_true_iff, String.eqb_neq. tauto.
Qed.

Lemma NoDup_Set_add (x : string) (s : list string) : NoDup s -> NoDup (Set_add x s).
Proof.
  intros Hs. unfold Set_add. destruct (Set_has x s) eqn:E; [done |].
  apply Set_has_false in E. apply NoDup_app. split; [done |]. split.
  - intros y Hy Hx. apply list_elem_of_singleton in Hx. congruence.
  - apply NoDup_singleton.
Qed.

Lemma NoDup_Set_delete (x : string) (s : list string) : NoDup s -> NoDup (Set_delete x s).
Proof.
  unfold Set_delete. induction 1 as [|y s Hy Hs IH]; simpl; [constructor |].
  destruct (negb (y =? x)%string); [|done].
  constructor; [|done]. rewrite list_elem_of_In, filter_In, <- list_elem_of_In. tauto.
Qed.

Lemma Set_from_acc (l acc : list string) (y : string) :
  y ∈ fold_left (fun s x => Set_add x s) l acc <-> y ∈ acc \/ y ∈ l.
Proof.
  revert acc; induction l as [|x l IH]; intros acc; simpl.
  - rewrite elem_of_nil. tauto.
  - rewrite IH, elem_of_Set_add, elem_of_cons. tauto.
Qed.

Lemma elem_of_Set_from (l : list string) (y : string) : y ∈ Set_from l <-> y ∈ l.
Proof. unfold Set_from. rewrite Set_from_acc, elem_of_nil. tauto. Qed.

Lemma Set_has_Set_from (l : list string) (y : string) :
  Set_has y (Set_from l) = Set_has y l.
Proof.
  destruct (Set_has y l) eqn:E.
  - apply Set_has_true, elem_of_Set_from, Set_has_true, E.
  - apply Set_has_false. rewrite elem_of_Set_from. now apply Set_has_false.
Qed.

Lemma Set_from_NoDup_acc (l acc : list string) :
  NoDup (acc ++ l) -> fold_left (fun s x => Set_add x s) l acc = acc ++ l.
Proof.
  revert acc; induction l as [|x l IH]; intros acc Hnd; simpl.
  - now rewrite app_nil_r.
  - assert (Set_add x acc = acc ++ [x]) as ->.
    { unfold Set_add. destruct (Set_has x acc) eqn:E; [|done].
      apply Set_has_true in E. apply NoDup_app in Hnd as (_ & Hd & _).
      exfalso. apply (Hd x E). left. }
    rewrite IH; rewrite <- app_assoc; done.
Qed.

(** Copying a set, [new Set([...FAVS])], gives the same members in the same
    order. *)
Lemma Set_from_NoDup (l : list string) : NoDup l -> Set_from l = l.
Proof. intros Hl. unfold Set_from. now rewrite Set_from_NoDup_acc. Qed.

(** ** [Array.prototype.sort] *)

Section SortFacts.
Context {A : Type} (cmp : A -> A -> Z).

Lemma sortInsert_Permutation (x : A) (l : list A) :
  Permutation (sortInsert cmp x l) (x :: l).
Proof.
  induction l as [|y l IH]; simpl; [done |].
  destruct (cmp x y <=? 0); [done |].
  rewrite IH. apply perm_swap.
Qed.

Lemma Array_sort_Permutation (l : list A) : Permutation (Array_sort cmp l) l.
Proof.
  induction l as [|x l IH]; simpl; [done |].
  rewrite sortInsert_Permutation. now constructor.
Qed.

(** The comparator is consistent on the elements that satisfy [P]. *)
Variable P : A -> Prop.
Hypothesis cmp_total : forall a b, P a -> P b -> cmp a b <= 0 \/ cmp b a <= 0.
Hypothesis cmp_trans : forall a b c,
  P a -> P b -> P c -> cmp a b <= 0 -> cmp b c <= 0 -> cmp a c <= 0.

Lemma sortInsert_sorted (x : A) (l : list A) :
  P x -> List.Forall P l ->
  StronglySorted (fun a b => cmp a b <= 0) l ->
  StronglySorted (fun a b => cmp a b <= 0) (sortInsert cmp x l).
Proof.
  intros Hx HP Hs. induction Hs as [|y l Hl IH Hy]; simpl.
  - repeat constructor.
  - apply List.Forall_cons_iff in HP as [Py HP].
    destruct (cmp x y <=? 0) eqn:E.
    + apply Z.leb_le in E. constructor; [now constructor |].
      constructor; [done |].
      rewrite List.Forall_forall in Hy, HP. apply List.Forall_forall.
      intros z Hz. apply (cmp_trans x y z); auto.
    + apply Z.leb_gt in E. constructor; [now apply IH |].
      rewrite (sortInsert_Permutation x l). constructor; [|done].
      destruct (cmp_total x y); [done | done | lia | done].
Qed.

Lemma Array_sort_sorted (l : list A) :
  List.Forall P l -> StronglySorted (fun a b => cmp a b <= 0) (Array_sort cmp l).
Proof.
  induction l as [|x l IH]; simpl; [constructor |].
  intros HP. apply List.Forall_cons_iff in HP as [Px HP].
  apply sortInsert_sorted; [done | | now apply IH].
  apply List.Forall_forall. intros z Hz.
  apply (Permutation_in _ (Array_sort_Permutation l)) in Hz.
  rewrite List.Forall_forall in HP. now apply HP.
Qed.

End SortFacts.

Lemma sublist_List_filter {A : Type} (f : A -> bool) (l : list A) :
  sublist (List.filter f l) l.
Proof.
  induction l as [|x l IH]; simpl; [constructor |].
  destruct (f x); now constructor.
Qed.

(** ** The partition loop *)

Lemma partitionHits_acc (favSet : list string) (hits fh oh : list CodeRecord) :
  fold_left
    (fun acc it =>
       if Set_has (code it) favSet
       then (fst acc ++ [it], snd acc)
       else (fst acc, snd acc ++ [it]))
    hits (fh, oh)
  = (fh ++ List.filter (fun r => Set_has (code r) favSet) hits,
     oh ++ List.filter (fun r => negb (Set_has (code r) favSet)) hits).
Proof.
  revert fh oh; induction hits as [|it hits IH]; intros fh oh; simpl.
  - now rewrite !app_nil_r.
  - destruct (Set_has (code it) favSet); simpl; rewrite IH, <- app_assoc; done.
Qed.

Lemma partitionHits_filter (favSet : list string) (hits : list CodeRecord) :
  partitionHits favSet hits
  = (List.filter (fun r => Set_has (code r) favSet) hits,
     List.filter (fun r => negb (Set_has (code r) favSet)) hits).
Proof. unfold partitionHits. now rewrite partitionHits_acc. Qed.

Lemma filter_split_Permutation {A : Type} (f : A -> bool) (l : list A) :
  Permutation (List.filter f l ++ List.filter (fun x => negb (f x)) l) l.
Proof.
  induction l as [|x l IH]; simpl; [done |].
  destruct (f x); simpl.
  - now constructor.
  - rewrite <- Permutation_middle. now constructor.
Qed.

Lemma partitionHits_isFav (st : State) (hits : list CodeRecord) :
  partitionHits (Set_from (FAVS st)) hits
  = (List.filter (fun r => isFav (code r) st) hits,
     List.filter (fun r => negb (isFav (code r) st)) hits).
Proof.
  rewrite partitionHits_filter.
  assert (Hf : forall r, Set_has (code r) (Set_from (FAVS st)) = isFav (code r) st)
    by (intros r; apply Set_has_Set_from).
  f_equal; apply filter_ext; intros r; now rewrite Hf.
Qed.

(** C2.  The loop of [renderSearch] splits the candidate pool [hits] in two:
    [favHits] holds exactly the records of the pool whose code is in the
    Favorite Set and [otherHits] exactly those whose code is not; together
    they are the whole pool (as a permutation, so with the same number of
    occurrences), no record is in both, and each of them lists its records in
    the order they have in the pool. *)
Theorem partition_complete_disjoint (st : State) (hits : list CodeRecord) :
  let favHits := fst (partitionHits (Set_from (FAVS st)) hits) in
  let otherHits := snd (partitionHits (Set_from (FAVS st)) hits) in
  favHits = List.filter (fun r => isFav (code r) st) hits
  /\ otherHits = List.filter (fun r => negb (isFav (code r) st)) hits
  /\ (forall r, In r favHits <-> In r hits /\ code r ∈ FAVS st)
  /\ (forall r, In r otherHits <-> In r hits /\ code r ∉ FAVS st)
  /\ Permutation (favHits ++ otherHits) hits
  /\ (forall r, ~ (In r favHits /\ In r otherHits))
  /\ sublist favHits hits
  /\ sublist otherHits hits.
Proof.
  intros favHits otherHits. subst favHits otherHits.
  rewrite partitionHits_isFav; simpl.
  assert (Hin : forall r,
    In r (List.filter (fun r => isFav (code r) st) hits) <-> In r hits /\ code r ∈ FAVS st).
  { intros r. rewrite filter_In. unfold isFav. now rewrite Set_has_true. }
  assert (Hout : forall r,
    In r (List.filter (fun r => negb (isFav (code r) st)) hits)
    <-> In r hits /\ code r ∉ FAVS st).
  { intros r. rewrite filter_In, Bool.negb_true_iff. unfold isFav.
    now rewrite Set_has_false. }
  split; [done |]. split; [done |]. split; [exact Hin |]. split; [exact Hout |].
  split; [apply (filter_split_Permutation (fun r => isFav (code r) st)) |].
  split; [| split; apply sublist_List_filter].
  intros r [H1 H2]. apply Hin in H1. apply Hout in H2. tauto.
Qed.

Section Favourites.
Context `{Host}.

(** ** The comparator of [getFavRecords] *)

Lemma localeCompare_total (a b : string) :
  localeCompare a b <= 0 \/ localeCompare b a <= 0.
Proof.
  pose proof (localeCompare_swap a b) as Hs.
  pose proof (Z.sgn_spec (localeCompare a b)).
  pose proof (Z.sgn_spec (localeCompare b a)).
  lia.
Qed.

(** ** The code index of [getFavRecords] *)

Lemma byCodeMap_acc_Some (all : list CodeRecord) (m : gmap string CodeRecord)
      (c : string) (r : CodeRecord) :
  fold_left (fun m r => <[code r := r]> m) all m !! c = Some r ->
  (In r all /\ code r = c) \/ m !! c = Some r.
Proof.
  revert m; induction all as [|x all IH]; intros m; simpl; [auto |].
  intros Hl. apply IH in Hl as [[Hin Hc] | Hl]; [left; auto |].
  destruct (decide (code x = c)) as [<- | Hne].
  - rewrite lookup_insert_eq in Hl. injection Hl as <-. left; auto.
  - rewrite lookup_insert_ne in Hl by done. now right.
Qed.

Lemma byCodeMap_acc_is_Some (all : list CodeRecord) (m : gmap string CodeRecord)
      (c : string) :
  In c (map code all) \/ is_Some (m !! c) ->
  is_Some (fold_left (fun m r => <[code r := r]> m) all m !! c).
Proof.
  revert m; induction all as [|x all IH]; intros m; simpl.
  - intros [[] | Hm]; done.
  - intros Hc. apply IH.
    destruct (decide (code x = c)) as [<- | Hne].
    + right. rewrite lookup_insert_eq. eauto.
    + rewrite lookup_insert_ne by done. destruct Hc as [[? | ?] | ?]; auto; done.
Qed.

Lemma byCodeMap_Some (all : list CodeRecord) (c : string) (r : CodeRecord) :
  byCodeMap all !! c = Some r -> In r all /\ code r = c.
Proof.
  intros Hl. apply byCodeMap_acc_Some in Hl as [? | Hl]; [done |].
  now rewrite lookup_empty in Hl.
Qed.

Lemma byCodeMap_None (all : list CodeRecord) (c : string) :
  byCodeMap all !! c = None <-> ~ In c (map code all).
Proof.
  split.
  - intros Hn Hin.
    destruct (byCodeMap_acc_is_Some all ∅ c (or_introl Hin)) as [r Hr].
    unfold byCodeMap in Hn. congruence.
  - intros Hn. destruct (byCodeMap all !! c) as [r|] eqn:E; [|done].
    apply byCodeMap_Some in E as [Hin <-]. exfalso. apply Hn. now apply in_map.
Qed.

Lemma resolved_codes (all : list CodeRecord) (favs : list string) :
  map code (omap (fun c => byCodeMap all !! c) favs)
  = List.filter (fun c => bool_decide (c ∈ map code all)) favs.
Proof.
  induction favs as [|c favs IH]; csimpl; [done |].
  destruct (byCodeMap all !! c) as [r|] eqn:E; csimpl.
  - apply byCodeMap_Some in E as Hr. destruct Hr as [Hin Hc].
    rewrite bool_decide_eq_true_2.
    + now rewrite IH, Hc.
    + rewrite <- Hc. apply list_elem_of_In. now apply in_map.
  - apply byCodeMap_None in E. rewrite bool_decide_eq_false_2; [done |].
    now rewrite list_elem_of_In.
Qed.

Lemma resolved_In (all : list CodeRecord) (favs : list string) (r : CodeRecord) :
  In r (omap (fun c => byCodeMap all !! c) favs) -> In r all /\ code r ∈ favs.
Proof.
  rewrite <- list_elem_of_In, list_elem_of_omap. intros (c & Hc & Hl).
  apply byCodeMap_Some in Hl as [Hin <-]. done.
Qed.

Lemma lruOf_own (lru : gmap string Z) (c : string) (t : Z) :
  lru !! c = Some t -> lruOf lru c = Some t.
Proof. intros Hc. unfold lruOf, Object_get. now rewrite Hc. Qed.

Lemma lruOf_missing (lru : gmap string Z) (c : string) :
  lru !! c = None -> c ∉ Object_prototype -> lruOf lru c = Some 0.
Proof.
  intros Hc Hp. unfold lruOf, Object_get. rewrite Hc.
  now rewrite bool_decide_eq_false_2.
Qed.

Lemma lruOf_inherited (lru : gmap string Z) (c : string) :
  lru !! c = None -> c ∈ Object_prototype -> lruOf lru c = None.
Proof.
  intros Hc Hp. unfold lruOf, Object_get. rewrite Hc.
  now rewrite bool_decide_eq_true_2.
Qed.

Lemma lruOf_Some (lru : gmap string Z) (c : string) (t : Z) :
  lruOf lru c = Some t -> t = default 0 (lru !! c).
Proof.
  unfold lruOf, Object_get. destruct (lru !! c) as [v|]; simpl; [congruence |].
  destruct (bool_decide (c ∈ Object_prototype)); congruence.
Qed.

Lemma lruOf_is_Some (lru : gmap string Z) (c : string) :
  is_Some (lruOf lru c) <-> (lru !! c = None -> c ∉ Object_prototype).
Proof.
  unfold lruOf, Object_get. destruct (lru !! c) as [v|]; simpl.
  - split; [done | eauto].
  - destruct (bool_decide (c ∈ Object_prototype)) eqn:E.
    + apply bool_decide_eq_true in E. split; [intros [? ?]; done | ].
      intros Hn. now destruct (Hn eq_refl).
    + apply bool_decide_eq_false in E. split; [done | eauto].
Qed.

Lemma favCompare_le_iff (lru : gmap string Z) (a b : CodeRecord) :
  is_Some (lruOf lru (code a)) -> is_Some (lruOf lru (code b)) ->
  favCompare lru a b <= 0 <->
  default 0 (lru !! code b) < default 0 (lru !! code a)
  \/ (default 0 (lru !! code a) = default 0 (lru !! code b)
      /\ localeCompare (code a) (code b) <= 0).
Proof.
  intros [ta Ha] [tb Hb]. unfold favCompare. rewrite Ha, Hb.
  apply lruOf_Some in Ha, Hb. rewrite <- Ha, <- Hb.
  destruct (tb - ta =? 0) eqn:E.
  - apply Z.eqb_eq in E. split; [right | intros [? | [? ?]]]; try split; lia.
  - apply Z.eqb_neq in E. lia.
Qed.

Lemma favCompare_inherited (lru : gmap string Z) (a b : CodeRecord) :
  lruOf lru (code a) = None \/ lruOf lru (code b) = None ->
  favCompare lru a b = localeCompare (code a) (code b).
Proof.
  unfold favCompare. intros [-> | ->]; [| done].
  now destruct (lruOf lru (code b)).
Qed.

Lemma favCompare_total (lru : gmap string Z) (a b : CodeRecord) :
  is_Some (lruOf lru (code a)) -> is_Some (lruOf lru (code b)) ->
  favCompare lru a b <= 0 \/ favCompare lru b a <= 0.
Proof.
  intros Ha Hb. rewrite !favCompare_le_iff by done.
  destruct (localeCompare_total (code a) (code b)); lia.
Qed.

Lemma favCompare_trans (lru : gmap string Z) (a b c : CodeRecord) :
  is_Some (lruOf lru (code a)) -> is_Some (lruOf lru (code b)) ->
  is_Some (lruOf lru (code c)) ->
  favCompare lru a b <= 0 -> favCompare lru b c <= 0 -> favCompare lru a c <= 0.
Proof.
  intros Ha Hb Hc. rewrite !favCompare_le_iff by done.
  intros [Hab | [Hab Lab]] [Hbc | [Hbc Lbc]]; try lia.
  right. split; [lia |]. now apply (localeCompare_trans (code a) (code b) (code c)).
Qed.

Lemma StronglySorted_on {A : Type} (R R' : A -> A -> Prop) (P : A -> Prop)
      (l : list A) :
  (forall a b, P a -> P b -> R a b -> R' a b) ->
  List.Forall P l -> StronglySorted R l -> StronglySorted R' l.
Proof.
  intros HR HP Hs. induction Hs as [|x l Hl IH Hx]; [constructor |].
  apply List.Forall_cons_iff in HP as [Px HP]. constructor; [now apply IH |].
  rewrite List.Forall_forall in Hx, HP. apply List.Forall_forall.
  intros y Hy. apply HR; auto.
Qed.

(** Where every favourite found in the catalogue reads a number as its
    timestamp, the list is sorted by the comparator. *)
Lemma getFavRecords_sorted (st : State) (all : list CodeRecord) :
  (forall c, c ∈ FAVS st -> In c (map code all) -> is_Some (lruOf (FAV_LRU st) c)) ->
  List.Forall (fun r => is_Some (lruOf (FAV_LRU st) (code r)))
              (getFavRecords (Some all) st)
  /\ StronglySorted (fun a b => favCompare (FAV_LRU st) a b <= 0)
                    (getFavRecords (Some all) st).
Proof.
  intros Hnum.
  assert (HP : List.Forall (fun r => is_Some (lruOf (FAV_LRU st) (code r)))
                 (omap (fun c => byCodeMap all !! c) (FAVS st))).
  { apply List.Forall_forall. intros r Hr. apply resolved_In in Hr as [Hin Hc].
    apply Hnum; [done | now apply in_map]. }
  unfold getFavRecords. split.
  - apply List.Forall_forall. intros r Hr.
    apply (Permutation_in _ (Array_sort_Permutation _ _)) in Hr.
    rewrite List.Forall_forall in HP. now apply HP.
  - apply (Array_sort_sorted _ (fun r => is_Some (lruOf (FAV_LRU st) (code r))));
      [apply favCompare_total | apply favCompare_trans | exact HP].
Qed.


(** ** [renderSearch] *)

Lemma getFavRecords_set_els (all : option (list CodeRecord)) (e : Els) (st : State) :
  getFavRecords all (set_els e st) = getFavRecords all st.
Proof. reflexivity. Qed.

Lemma inFavHits_true (favHits : list CodeRecord) (r : CodeRecord) :
  inFavHits favHits r = true <-> exists x, In x favHits /\ code x = code r.
Proof.
  unfold inFavHits.
  destruct (find (fun x => (code x =? code r)%string) favHits) as [x|] eqn:E.
  - apply find_some in E as [Hin Hc]. apply String.eqb_eq in Hc.
    split; [eauto | done].
  - split; [done |]. intros (x & Hin & Hc).
    apply (find_none _ _ E) in Hin. apply String.eqb_neq in Hin. done.
Qed.

Lemma inFavHits_codes (favHits : list CodeRecord) (r : CodeRecord) :
  inFavHits favHits r = bool_decide (code r ∈ map code favHits).
Proof.
  destruct (inFavHits favHits r) eqn:E; symmetry.
  - apply inFavHits_true in E as (x & Hin & Hc).
    apply bool_decide_eq_true_2. rewrite <- Hc, list_elem_of_In. now apply in_map.
  - apply bool_decide_eq_false_2. intros Hin.
    apply list_elem_of_In, in_map_iff in Hin as (x & Hc & Hin).
    assert (inFavHits favHits r = true) by (apply inFavHits_true; eauto).
    congruence.
Qed.

Lemma renderSearch_results (st : State) (data fuse : list CodeRecord) :
  DATA st = Some data -> FUSE st = Some fuse ->
  els_results (els (renderSearch st))
  = firstn MAX_RESULTS
      (snd (partitionHits (Set_from (FAVS st))
              (searchHits data fuse (trim (els_q (els st)))))).
Proof.
  intros HD HF. unfold renderSearch. rewrite HD, HF.
  now destruct (partitionHits _ _).
Qed.

Lemma renderSearch_favs (st : State) (data fuse : list CodeRecord) :
  DATA st = Some data -> FUSE st = Some fuse ->
  els_favs (els (renderSearch st))
  = favFiltered (trim (els_q (els st))) (getFavRecords (Some data) st)
      (fst (partitionHits (Set_from (FAVS st))
              (searchHits data fuse (trim (els_q (els st)))))).
Proof.
  intros HD HF. unfold renderSearch. rewrite HD, HF.
  destruct (partitionHits _ _); cbn. now rewrite HD.
Qed.

Lemma renderSearch_favCount (st : State) (data fuse : list CodeRecord) :
  DATA st = Some data -> FUSE st = Some fuse ->
  els_favCount (els (renderSearch st)) = length (getFavRecords (Some data) st).
Proof.
  intros HD HF. unfold renderSearch. rewrite HD, HF.
  destruct (partitionHits _ _); cbn. now rewrite HD.
Qed.

(** [renderSearch] writes to the page and to nothing else. *)
Lemma renderSearch_frame (st : State) :
  FUSE (renderSearch st) = FUSE st /\ DATA (renderSearch st) = DATA st
  /\ FAVS (renderSearch st) = FAVS st /\ FAV_LRU (renderSearch st) = FAV_LRU st
  /\ localStorage (renderSearch st) = localStorage st
  /\ idbAvailable (renderSearch st) = idbAvailable st
  /\ idbStore (renderSearch st) = idbStore st
  /\ alerts (renderSearch st) = alerts st /\ downloads (renderSearch st) = downloads st.
Proof.
  unfold renderSearch.
  destruct (DATA st) as [data|] eqn:HD; [| done].
  destruct (FUSE st) as [fuse|] eqn:HF; [| done].
  now destruct (partitionHits _ _).
Qed.

Lemma truthy_false (s : string) : truthy s = false <-> s = "".
Proof. destruct s; simpl; split; congruence. Qed.

Lemma truthy_true (s : string) : truthy s = true <-> s <> "".
Proof. destruct s; simpl; split; congruence. Qed.

(** C1.  With a catalogue and an index resident, the Pinned Favorites
    written by [renderSearch] are taken from [getFavRecords] over the whole
    Favorite Set, in its order: for an empty trimmed query they are that
    list; for a non-empty one they are its records whose code is the code of
    some member of [favHits], and no others. *)
Theorem pinned_favourites (st : State) (data fuse : list CodeRecord) :
  DATA st = Some data -> FUSE st = Some fuse ->
  let q := trim (els_q (els st)) in
  let favHits :=
    fst (partitionHits (Set_from (FAVS st)) (searchHits data fuse q)) in
  let allFavs := getFavRecords (Some data) st in
  let pinned := els_favs (els (renderSearch st)) in
  (q = "" -> pinned = allFavs)
  /\ (q <> "" ->
      pinned = List.filter (fun r => bool_decide (code r ∈ map code favHits)) allFavs
      /\ forall r, In r pinned <->
                   In r allFavs /\ exists x, In x favHits /\ code x = code r)
  /\ sublist pinned allFavs
  /\ els_favCount (els (renderSearch st)) = length allFavs.
Proof.
  intros HD HF q favHits allFavs pinned.
  assert (Hp : pinned = favFiltered q allFavs favHits)
    by (apply renderSearch_favs; assumption).
  split; [| split; [| split]].
  - intros Hq. rewrite Hp. unfold favFiltered. now rewrite Hq.
  - intros Hq. apply truthy_true in Hq.
    assert (Hf : pinned = List.filter (inFavHits favHits) allFavs)
      by (rewrite Hp; unfold favFiltered; now rewrite Hq).
    split.
    + rewrite Hf. apply filter_ext, inFavHits_codes.
    + intros r. now rewrite Hf, filter_In, inFavHits_true.
  - rewrite Hp. unfold favFiltered.
    destruct (truthy q); [apply sublist_List_filter | reflexivity].
  - now apply (renderSearch_favCount st data fuse).
Qed.

(** C5.  With a catalogue and an index resident: Other Results is
    [otherHits] cut to its first [MAX_RESULTS] = 100 records, for every
    query; for an empty trimmed query the pool is the first [2 * MAX_RESULTS]
    records of the catalogue in catalogue order, the search is not consulted,
    and Other Results is the first 100 non-favourite records of that pool; a
    catalogue of 250 records gives a pool of its first 200. *)
Theorem empty_query_pool (st : State) (data fuse : list CodeRecord) :
  DATA st = Some data -> FUSE st = Some fuse ->
  let q := trim (els_q (els st)) in
  let pool := searchHits data fuse q in
  let otherHits := snd (partitionHits (Set_from (FAVS st)) pool) in
  let shown := els_results (els (renderSearch st)) in
  MAX_RESULTS = 100%nat
  /\ shown = firstn MAX_RESULTS otherHits
  /\ (length shown <= MAX_RESULTS)%nat
  /\ (q = "" ->
      pool = firstn (2 * MAX_RESULTS) data
      /\ length pool = Nat.min 200 (length data)
      /\ (length data = 250%nat -> length pool = 200%nat)
      /\ shown = firstn 100 (List.filter (fun r => negb (isFav (code r) st))
                                         (firstn 200 data))).
Proof.
  intros HD HF q pool otherHits shown.
  assert (Hs : shown = firstn MAX_RESULTS otherHits)
    by (apply renderSearch_results; assumption).
  split; [reflexivity |]. split; [exact Hs |]. split.
  - rewrite Hs. apply firstn_le_length.
  - intros Hq.
    assert (Hpool : pool = firstn 200 data).
    { subst pool. unfold searchHits. now rewrite Hq. }
    split; [exact Hpool |]. split; [| split].
    + rewrite Hpool. apply length_firstn.
    + intros Hlen. rewrite Hpool, length_firstn, Hlen. reflexivity.
    + rewrite Hs. subst otherHits. rewrite Hpool.
      now rewrite partitionHits_isFav.
Qed.

End Favourites.

(** ** Star clicks *)

(** The same, said of the domain of the timestamp map. *)
Lemma lruWithinFavs_dom (st : State) :
  lruWithinFavs st <-> dom (FAV_LRU st) ⊆ (list_to_set (FAVS st) : gset string).
Proof.
  unfold lruWithinFavs. split.
  - intros Hinv c Hc. apply elem_of_dom in Hc. apply elem_of_list_to_set. auto.
  - intros Hsub c Hc. apply elem_of_dom in Hc. apply Hsub in Hc.
    now apply elem_of_list_to_set in Hc.
Qed.

(** ** Assignment to a plain object *)

Lemma Object_set_ne (k k' : string) (v : Z) (o : gmap string Z) :
  k' <> k -> Object_set k v o !! k' = o !! k'.
Proof.
  intros Hne. unfold Object_set.
  destruct (o !! k); [now rewrite lookup_insert_ne |].
  destruct (String.eqb k "__proto__"); [done | now rewrite lookup_insert_ne].
Qed.

Lemma Object_set_eq (k : string) (v : Z) (o : gmap string Z) :
  k <> "__proto__" \/ is_Some (o !! k) -> Object_set k v o !! k = Some v.
Proof.
  unfold Object_set. intros [Hk | [w Hw]].
  - apply String.eqb_neq in Hk. rewrite Hk.
    destruct (o !! k); apply lookup_insert_eq.
  - rewrite Hw. apply lookup_insert_eq.
Qed.

Lemma Object_set_proto (v : Z) (o : gmap string Z) :
  o !! "__proto__" = None -> Object_set "__proto__" v o = o.
Proof. intros Ho. unfold Object_set. now rewrite Ho. Qed.

Lemma Object_set_is_Some (k k' : string) (v : Z) (o : gmap string Z) :
  is_Some (Object_set k v o !! k') -> k' = k \/ is_Some (o !! k').
Proof.
  destruct (decide (k' = k)) as [-> | Hne]; [auto |].
  rewrite Object_set_ne by done. auto.
Qed.

Section Toggle.
Context `{Host}.

Lemma saveFavs_frame (st : State) :
  FUSE (saveFavs st) = FUSE st /\ DATA (saveFavs st) = DATA st
  /\ FAVS (saveFavs st) = FAVS st /\ FAV_LRU (saveFavs st) = FAV_LRU st
  /\ idbAvailable (saveFavs st) = idbAvailable st
  /\ idbStore (saveFavs st) = idbStore st.
Proof. done. Qed.

Lemma saveFavs_localStorage (st : State) :
  localStorage (saveFavs st)
  = <[FAV_LRU_KEY := LsLru (FAV_LRU st)]>
      (<[FAV_STORAGE_KEY := LsCodes (FAVS st)]> (localStorage st)).
Proof. done. Qed.

(** What a click on the star of a card with a non-empty code leaves in the
    two module variables and in [localStorage]. *)
Lemma onStarClick_toggle (c : string) (now : Z) (st : State) :
  c <> "" ->
  let st' := onStarClick (Some (Some c)) now st in
  FAVS st' = (if Set_has c (FAVS st) then Set_delete c (FAVS st) else Set_add c (FAVS st))
  /\ FAV_LRU st'
     = (if Set_has c (FAVS st) then delete c (FAV_LRU st)
        else Object_set c now (FAV_LRU st))
  /\ localStorage st'
     = <[FAV_LRU_KEY := LsLru (FAV_LRU st')]>
         (<[FAV_STORAGE_KEY := LsCodes (FAVS st')]> (localStorage st)).
Proof.
  intros Hc st'. subst st'. unfold onStarClick.
  apply truthy_true in Hc. rewrite Hc; simpl.
  match goal with |- context [renderSearch ?s] =>
    destruct (renderSearch_frame s) as (_ & _ & -> & -> & -> & _) end.
  now destruct (Set_has c (FAVS st)).
Qed.

Lemma onStarClick_ignored (btn : option (option string)) (now : Z) (st : State) :
  btn = None \/ btn = Some None \/ btn = Some (Some "") ->
  onStarClick btn now st = st.
Proof. now intros [-> | [-> | ->]]. Qed.

Lemma onStarClick_lruWithinFavs (btn : option (option string)) (now : Z) (st : State) :
  lruWithinFavs st -> lruWithinFavs (onStarClick btn now st).
Proof.
  intros Hinv.
  destruct btn as [[c|]|]; [| done | done].
  destruct (decide (c = "")) as [-> | Hc]; [done |].
  destruct (onStarClick_toggle c now st Hc) as (HF & HL & _).
  intros x. rewrite HF, HL. destruct (Set_has c (FAVS st)) eqn:E.
  - rewrite elem_of_Set_delete. destruct (decide (c = x)) as [-> | Hne].
    + rewrite lookup_delete_eq. now intros [? ?].
    + rewrite lookup_delete_ne by done. intros Hx. split; [congruence | auto].
  - rewrite elem_of_Set_add. intros Hx.
    apply Object_set_is_Some in Hx as [-> | Hx]; auto.
Qed.



End Toggle.

(** ** The dataset cache *)

Ltac run_M :=
  unfold fetchAndCache, loadFromCache, btnClear_click, btnExport_click,
         idbGet, idbSet, idbDel, idbOpen, fetch, arrayBuffer,
         bind, modify, throw, ret;
  simpl.

Section Cache.
Context `{Host}.

Lemma byteHex_length (b : byte) : String.length (byteHex b) = 2%nat.
Proof. reflexivity. Qed.

Lemma append_length (s t : string) :
  String.length (s +:+ t) = (String.length s + String.length t)%nat.
Proof.
  induction s as [|a s IH]; [done |].
  change (String a s +:+ t) with (String a (s +:+ t)). simpl. now rewrite IH.
Qed.

(** The version is two hexadecimal digits for each byte of the digest. *)
Lemma sha256Hex_length (buf : list byte) :
  String.length (sha256Hex buf) = (2 * length (digest_SHA256 buf))%nat.
Proof.
  unfold sha256Hex. induction (digest_SHA256 buf) as [|b l IH]; [done |].
  destruct l as [|b' l]; [done |].
  change (String.concat "" (map byteHex (b :: b' :: l)))
    with (byteHex b +:+ "" +:+ String.concat "" (map byteHex (b' :: l))).
  rewrite !append_length, IH, byteHex_length. simpl. lia.
Qed.

Lemma fetchAndCache_request_failed (o : FetchOutcome) (now shown : Z) (st : State) :
  requestSucceeds o = false ->
  exists e, fetchAndCache o now shown st = (inl e, fetching st) /\ isFetchError e = true.
Proof.
  run_M.
  destruct o as [|status [buf|]]; simpl.
  - eauto.
  - intros ->. simpl. eauto.
  - intros _. destruct (ok status); simpl; eauto.
Qed.

Lemma fetchAndCache_request_ok (status : Z) (buf : list byte) (now shown : Z) (st : State) :
  ok status = true ->
  fetchAndCache (Response status (Some buf)) now shown st
  = match JSON_parse (TextDecoder_decode buf) with
    | None => (inl JSONSyntaxError, fetching st)
    | Some json =>
        if idbAvailable st
        then (inr tt,
              let st1 := set_idbStore
                           (<[KEY := mkSnapshot (sha256Hex buf) now json]> (idbStore st))
                           (fetching st) in
              let st2 := buildFuse json (set_DATA (Some json) st1) in
              set_els (setMeta
                (mkMeta (Some (length json)) (Some srcNetwork)
                        (Some (Some (sha256Hex buf)))
                        (Some (Some (Date_toLocaleString shown)))
                        (Some csUpdated)) (els st2)) st2)
        else (inl IdbError, fetching st)
    end.
Proof.
  intros Hok.
  run_M. rewrite Hok. simpl.
  destruct (JSON_parse (TextDecoder_decode buf)) as [json|]; [| done].
  simpl. now destruct (idbAvailable st).
Qed.

Lemma ok_iff (status : Z) : ok status = true <-> 200 <= status <= 299.
Proof. unfold ok. rewrite Bool.andb_true_iff, !Z.leb_le. tauto. Qed.

(** C9.  [fetchAndCache] ends in an error of the request exactly when the
    request does not succeed: [fetch] rejects, or the status is not 2xx, or
    the body does not arrive.  It has then changed nothing but the cache
    state shown on the page: the stored snapshot, the resident catalogue and
    the index are as before, also after the handler of the refresh button has
    caught the error, so the stale snapshot still serves. *)
Theorem refresh_fetch_error (o : FetchOutcome) (now shown : Z) (st : State) :
  let r := fetchAndCache o now shown st in
  ((exists e, fst r = inl e /\ isFetchError e = true) <-> requestSucceeds o = false)
  /\ (requestSucceeds o = false <->
      o = Rejected
      \/ (exists status body, o = Response status body /\ ~ 200 <= status <= 299)
      \/ (exists status, o = Response status None))
  /\ (requestSucceeds o = false ->
      snd r = fetching st
      /\ idbStore (snd r) = idbStore st
      /\ DATA (snd r) = DATA st /\ FUSE (snd r) = FUSE st
      /\ let st' := btnRefresh_click o now shown st in
         idbStore st' = idbStore st /\ DATA st' = DATA st /\ FUSE st' = FUSE st
         /\ els_cacheState (els st') = csError
         /\ exists e, alerts st' = alerts st ++ [RefreshFailedAlert e]
                      /\ isFetchError e = true).
Proof.
  intros r. subst r. split; [| split].
  - split.
    + intros (e & He & Hfe).
      destruct (requestSucceeds o) eqn:Hreq; [| done]. exfalso.
      destruct o as [|status [buf|]]; try discriminate. simpl in Hreq.
      rewrite (fetchAndCache_request_ok status buf now shown st Hreq) in He.
      destruct (JSON_parse (TextDecoder_decode buf)); [destruct (idbAvailable st) |];
        simpl in He; try discriminate; injection He as <-; discriminate.
    + intros Hreq.
      destruct (fetchAndCache_request_failed o now shown st Hreq) as (e & -> & He).
      eauto.
  - destruct o as [|status [buf|]]; simpl.
    + split; auto.
    + split.
      * intros Hok. right; left. exists status, (Some buf). split; [done |].
        rewrite <- ok_iff. congruence.
      * intros [? | [(s & b & Heq & Hs) | (s & ?)]]; try discriminate.
        injection Heq as <- <-. rewrite <- ok_iff in Hs. now destruct (ok status).
    + split; [| done]. intros _. right; right. eauto.
  - intros Hreq.
    destruct (fetchAndCache_request_failed o now shown st Hreq) as (e & Hr & He).
    rewrite Hr. simpl. repeat (split; [done |]).
    unfold btnRefresh_click.
    destruct (fetchAndCache_request_failed o now shown
                (set_els (set_btnRefreshDisabled true (els st)) st) Hreq)
      as (e' & -> & He').
    simpl. repeat (split; [done |]). eauto.
Qed.

Lemma loadFromCache_hit (st : State) (c : Snapshot) :
  idbAvailable st = true -> idbStore st !! KEY = Some c ->
  loadFromCache st
  = (inr true,
     let st1 := buildFuse (data c) (set_DATA (Some (data c)) st) in
     set_els (setMeta
       (mkMeta (Some (length (data c))) (Some srcIndexedDB)
               (Some (Some (version c)))
               (Some (Some (Date_toLocaleString (updated c))))
               (Some csHit)) (els st1)) st1).
Proof. intros Ha Hc. run_M. now rewrite Ha, Hc. Qed.

Lemma loadFromCache_miss (st : State) :
  idbAvailable st = true -> idbStore st !! KEY = None ->
  loadFromCache st
  = (inr false,
     set_els (setMeta (mkMeta None None None None (Some csMiss)) (els st)) st).
Proof. intros Ha Hc. run_M. now rewrite Ha, Hc. Qed.

(** C6, as the code has it.  A refresh whose request succeeds, whose payload
    decodes as an array of records and whose store takes the write returns
    normally.  The version it records is the
    hexadecimal digest of the bytes received, whatever the state, the clock
    and the decoded records are; the snapshot goes under the one key,
    replacing what was there; a load straight after finds that snapshot and
    makes the same version and the same records resident. *)
Theorem refresh_then_load
        (st : State) (status : Z) (buf : list byte) (json : list CodeRecord)
        (now shown : Z) :
  ok status = true ->
  JSON_parse (TextDecoder_decode buf) = Some json ->
  idbAvailable st = true ->
  let r := fetchAndCache (Response status (Some buf)) now shown st in
  let st1 := snd r in
  let snap := mkSnapshot (sha256Hex buf) now json in
  let l := loadFromCache st1 in
  fst r = inr tt
  /\ idbStore st1 = <[KEY := snap]> (idbStore st)
  /\ DATA st1 = Some json /\ FUSE st1 = Some json
  /\ els_cacheVersion (els st1) = orDash (Some (sha256Hex buf))
  /\ (forall st' status' now' shown',
        ok status' = true -> idbAvailable st' = true ->
        version <$> idbStore (snd (fetchAndCache (Response status' (Some buf))
                                      now' shown' st')) !! KEY
        = Some (sha256Hex buf))
  /\ fst l = inr true
  /\ idbStore (snd l) !! KEY = Some snap
  /\ DATA (snd l) = Some json /\ FUSE (snd l) = Some json
  /\ els_cacheVersion (els (snd l)) = els_cacheVersion (els st1)
  /\ els_pillCount (els (snd l)) = length json.
Proof.
  intros Hok Hjson Ha r st1 snap l. subst l st1 r.
  rewrite (fetchAndCache_request_ok status buf now shown st Hok), Hjson, Ha.
  cbn [fst snd].
  split; [done |]. split; [done |]. split; [done |]. split; [done |].
  split; [done |]. split.
  - intros st' status' now' shown' Hok' Ha'.
    rewrite (fetchAndCache_request_ok status' buf now' shown' st' Hok'), Hjson, Ha'.
    cbn. now rewrite lookup_insert_eq.
  - match goal with |- context [loadFromCache ?s] =>
      rewrite (loadFromCache_hit s snap)
    end; [| exact Ha | cbn; apply lookup_insert_eq].
    cbn. rewrite lookup_insert_eq. done.
Qed.

(** C7.  The handler of the clear button deletes the snapshot under [KEY] and
    nothing else in the object store, and empties the resident catalogue and
    index; [localStorage], with the favourite codes and their timestamps,
    and the two module variables read from it are as before.  When the
    database cannot be opened, nothing changes at all. *)
Theorem clear_keeps_favourites (st : State) :
  let r := btnClear_click st in
  let st' := snd r in
  localStorage st' = localStorage st
  /\ localStorage st' !! FAV_STORAGE_KEY = localStorage st !! FAV_STORAGE_KEY
  /\ localStorage st' !! FAV_LRU_KEY = localStorage st !! FAV_LRU_KEY
  /\ FAVS st' = FAVS st /\ FAV_LRU st' = FAV_LRU st
  /\ (forall k, k <> KEY -> idbStore st' !! k = idbStore st !! k)
  /\ (idbAvailable st = true ->
      fst r = inr tt /\ idbStore st' = delete KEY (idbStore st)
      /\ idbStore st' !! KEY = None /\ DATA st' = None /\ FUSE st' = None
      /\ els_cacheState (els st') = csCleared /\ els_results (els st') = [])
  /\ (idbAvailable st = false -> r = (inl IdbError, st)).
Proof.
  intros r st'. subst st' r. run_M.
  destruct (idbAvailable st); simpl.
  - repeat (split; [done |]). split.
    + intros k Hk. now apply lookup_delete_ne.
    + split; [| done]. intros _.
      repeat split; try done. apply lookup_delete_eq.
  - repeat split; done.
Qed.

(** The catalogue and its index come and go together: every handler keeps
    [FUSE] the index of [DATA], as they are when the script starts. *)
Lemma indexed_kept (st : State) :
  indexed st ->
  (forall o now shown, indexed (snd (fetchAndCache o now shown st)))
  /\ indexed (snd (loadFromCache st))
  /\ indexed (snd (btnClear_click st))
  /\ indexed (snd (btnExport_click st))
  /\ (forall o now shown, indexed (btnRefresh_click o now shown st))
  /\ (forall o now shown, indexed (boot o now shown st))
  /\ (forall btn now, indexed (onStarClick btn now st))
  /\ indexed freshState.
Proof.
  unfold indexed. intros Hi.
  assert (Hfetch : forall s o now shown,
            FUSE s = DATA s ->
            FUSE (snd (fetchAndCache o now shown s))
            = DATA (snd (fetchAndCache o now shown s))).
  { intros s o now shown Hs. destruct (requestSucceeds o) eqn:Hreq.
    - destruct o as [|status [buf|]]; try discriminate. simpl in Hreq.
      rewrite (fetchAndCache_request_ok status buf now shown s Hreq).
      destruct (JSON_parse (TextDecoder_decode buf)); [| done].
      now destruct (idbAvailable s).
    - now destruct (fetchAndCache_request_failed o now shown s Hreq) as (e & -> & _). }
  assert (Hload : forall s, FUSE s = DATA s ->
            FUSE (snd (loadFromCache s)) = DATA (snd (loadFromCache s))).
  { intros s Hs. run_M. destruct (idbAvailable s); [| done].
    now destruct (idbStore s !! KEY). }
  assert (Hrender : forall s, FUSE s = DATA s ->
            FUSE (renderSearch s) = DATA (renderSearch s)).
  { intros s Hs. now destruct (renderSearch_frame s) as (-> & -> & _). }
  split; [intros; now apply Hfetch |]. split; [now apply Hload |].
  split; [run_M; now destruct (idbAvailable st) |].
  split; [run_M; destruct (idbAvailable st); [| done];
          now destruct (idbStore st !! KEY) |].
  split; [| split; [| split; [| done]]].
  - intros o now shown. unfold btnRefresh_click.
    match goal with |- context [fetchAndCache o now shown ?s] =>
      pose proof (Hfetch s o now shown Hi) as Hf;
      destruct (fetchAndCache o now shown s) as [[e|u] s1]
    end; simpl in *; [done |].
    now destruct (renderSearch_frame s1) as (-> & -> & _).
  - intros o now shown. unfold boot, bind, modify.
    pose proof (Hload st Hi) as Hl.
    destruct (loadFromCache st) as [[e|[|]] s1]; simpl in *; [done | |].
    + now apply Hrender.
    + pose proof (Hfetch s1 o now shown Hl) as Hf.
      destruct (fetchAndCache o now shown s1) as [[e|u] s2]; simpl in *; [done |].
      now apply Hrender.
  - intros btn now. destruct btn as [[c|]|]; [| done | done].
    unfold onStarClick. destruct (truthy c); [| done]. simpl.
    match goal with |- context [renderSearch ?s] =>
      destruct (renderSearch_frame s) as (-> & -> & _) end.
    now destruct (Set_has c (FAVS st)).
Qed.

(** The export after a refresh is made from the decoded records: two payloads
    that decode to the same records are exported alike. *)
Lemma export_after_refresh
      (st : State) (status : Z) (buf : list byte) (json : list CodeRecord)
      (now shown : Z) :
  ok status = true ->
  JSON_parse (TextDecoder_decode buf) = Some json ->
  idbAvailable st = true ->
  downloads (snd (btnExport_click
                    (snd (fetchAndCache (Response status (Some buf)) now shown st))))
  = downloads st
    ++ [mkDownload "icd9.json" "application/json"
          (TextEncoder_encode (JSON_stringify json))].
Proof.
  intros Hok Hjson Ha.
  rewrite (fetchAndCache_request_ok status buf now shown st Hok), Hjson, Ha.
  cbn [snd]. run_M. rewrite Ha, lookup_insert_eq. reflexivity.
Qed.

(** C8, as the code has it.  With a snapshot in the cache, the handler of
    the export button offers one file, named [icd9.json], whose content is
    the encoded text [JSON.stringify] makes of the stored record list, taken
    as it is stored; nothing else changes.  With no snapshot it alerts and
    offers nothing.  After a refresh the file is made from the decoded
    records, not from the bytes received. *)
Theorem export_serialises_stored (st : State) :
  idbAvailable st = true ->
  (forall c, idbStore st !! KEY = Some c ->
     btnExport_click st
     = (inr tt,
        offer (mkDownload "icd9.json" "application/json"
                 (TextEncoder_encode (JSON_stringify (data c)))) st))
  /\ (idbStore st !! KEY = None ->
      btnExport_click st = (inr tt, alert NothingInCacheAlert st))
  /\ (forall status buf json now shown,
        ok status = true ->
        JSON_parse (TextDecoder_decode buf) = Some json ->
        downloads (snd (btnExport_click
                     (snd (fetchAndCache (Response status (Some buf)) now shown st))))
        = downloads st
          ++ [mkDownload "icd9.json" "application/json"
                (TextEncoder_encode (JSON_stringify json))]).
Proof.
  intros Ha. split; [| split].
  - intros c Hc. run_M. now rewrite Ha, Hc.
  - intros Hc. run_M. now rewrite Ha, Hc.
  - intros status buf json now shown Hok Hjson.
    now apply export_after_refresh.
Qed.

End Cache.

(** * More of the script *)

(** ** Hash util *)

Lemma concat_hex_cons (b : byte) (l : list byte) :
  String.concat "" (map byteHex (b :: l))
  = byteHex b +:+ String.concat "" (map byteHex l).
Proof.
  destruct l as [|b' l]; [reflexivity |].
  change (String.concat "" (map byteHex (b :: b' :: l)))
    with (byteHex b +:+ "" +:+ String.concat "" (map byteHex (b' :: l))).
  reflexivity.
Qed.

Lemma byteHex_inj (b1 b2 : byte) : byteHex b1 = byteHex b2 -> b1 = b2.
Proof.
  set (val := fun c : ascii =>
         let n := N_of_ascii c in if (n <? 58)%N then (n - 48)%N else (n - 87)%N).
  set (dec := fun s : string =>
         match s with
         | String h (String l EmptyString) => Byte.of_N (val h * 16 + val l)
         | _ => None
         end).
  assert (Hdec : forall b, dec (byteHex b) = Some b) by (intros []; reflexivity).
  intros Heq. apply (f_equal dec) in Heq. rewrite !Hdec in Heq. congruence.
Qed.

Lemma byteHex_digits (b : byte) :
  forall c, occurs c (byteHex b) = true -> occurs c "0123456789abcdef" = true.
Proof.
  assert (Hall : forall b,
            match byteHex b with
            | String h (String l EmptyString) =>
                occurs h "0123456789abcdef" && occurs l "0123456789abcdef"
            | _ => false
            end = true) by (intros []; reflexivity).
  specialize (Hall b). intros c. unfold byteHex in *.
  set (h := hexDigit _) in *. set (l := hexDigit _) in *.
  apply andb_prop in Hall as [Hh Hl]. simpl occurs at 1.
  rewrite Bool.orb_false_r. intros Hc. apply Bool.orb_prop in Hc as [Hc | Hc];
    apply Ascii.eqb_eq in Hc; now subst c.
Qed.

Lemma occurs_append (c : ascii) (s t : string) :
  occurs c (s +:+ t) = occurs c s || occurs c t.
Proof.
  induction s as [|d s IH]; [reflexivity |].
  change (String d s +:+ t) with (String d (s +:+ t)). simpl.
  now rewrite IH, Bool.orb_assoc.
Qed.

Lemma occurs_head (c : ascii) (s : string) : occurs c (String c s) = true.
Proof. simpl. now rewrite Ascii.eqb_refl. Qed.

Lemma occurs_single (d c : ascii) : occurs d (String c EmptyString) = Ascii.eqb d c.
Proof. simpl. apply Bool.orb_false_r. Qed.

Section HashUtil.
Context `{Host}.

(** X1.  The version text loses nothing of the digest and is plain: two
    buffers get the same version exactly when their digests are equal, and
    the text is made of the digits 0-9 and the letters a-f only, two for each
    byte of the digest. *)
Theorem sha256Hex_faithful (buf1 buf2 : list byte) :
  (sha256Hex buf1 = sha256Hex buf2 <-> digest_SHA256 buf1 = digest_SHA256 buf2)
  /\ (forall c, occurs c (sha256Hex buf1) = true ->
        occurs c "0123456789abcdef" = true)
  /\ String.length (sha256Hex buf1) = (2 * length (digest_SHA256 buf1))%nat.
Proof.
  unfold sha256Hex. split; [| split].
  - split; [| now intros ->].
    generalize (digest_SHA256 buf1) (digest_SHA256 buf2).
    induction l as [|b1 l1 IH]; intros [|b2 l2]; rewrite ?concat_hex_cons.
    + done.
    + unfold byteHex at 1. discriminate.
    + unfold byteHex at 1. discriminate.
    + intros Heq.
      assert (byteHex b1 = byteHex b2 /\
              String.concat "" (map byteHex l1) = String.concat "" (map byteHex l2))
        as [Hb Hl].
      { unfold byteHex in *.
        change (String ?a (String ?b EmptyString) +:+ ?t)
          with (String a (String b t)) in Heq.
        injection Heq as -> -> ->. done. }
      apply byteHex_inj in Hb. apply IH in Hl. congruence.
  - induction (digest_SHA256 buf1) as [|b l IH]; [discriminate |].
    intros c. rewrite concat_hex_cons, occurs_append.
    intros Hc. apply Bool.orb_prop in Hc as [Hc | Hc]; [| now apply IH].
    now apply (byteHex_digits b).
  - induction (digest_SHA256 buf1) as [|b l IH]; [reflexivity |].
    rewrite concat_hex_cons. unfold byteHex at 1.
    change (String ?a (String ?b EmptyString) +:+ ?t) with (String a (String b t)).
    simpl. rewrite IH. lia.
Qed.

End HashUtil.

(** ** [escapeHtml] *)

Lemma escapeChar_cases (c : ascii) :
  (c = "&"%char /\ escapeChar c = "&amp;")
  \/ (c = "<"%char /\ escapeChar c = "&lt;")
  \/ (c = ">"%char /\ escapeChar c = "&gt;")
  \/ (c = dquote /\ escapeChar c = "&quot;")
  \/ (isHtmlSpecial c = false /\ escapeChar c = String c EmptyString).
Proof.
  unfold escapeChar, isHtmlSpecial.
  destruct (Ascii.eqb_spec c "&"); [subst; auto |].
  destruct (Ascii.eqb_spec c "<"); [subst; auto 6 |].
  destruct (Ascii.eqb_spec c ">"); [subst; auto 6 |].
  destruct (Ascii.eqb_spec c dquote); [subst; auto 6 |].
  auto 10.
Qed.

Lemma escapeHtml_cons (c : ascii) (s : string) :
  escapeHtml (String c s) = escapeChar c +:+ escapeHtml s.
Proof. reflexivity. Qed.

Ltac push_entity :=
  repeat match goal with
  | H : context [String ?a ?s +:+ ?t] |- _ =>
      change (String a s +:+ t) with (String a (s +:+ t)) in H
  | H : context [EmptyString +:+ ?t] |- _ =>
      change (EmptyString +:+ t) with t in H
  | |- context [String ?a ?s +:+ ?t] =>
      change (String a s +:+ t) with (String a (s +:+ t))
  | |- context [EmptyString +:+ ?t] =>
      change (EmptyString +:+ t) with t
  end.

(** X2.  Escaped text holds no angle bracket and no double quote, and text
    with none of the four special characters is left as it is. *)
Theorem escapeHtml_safe (s : string) :
  occurs "<" (escapeHtml s) = false
  /\ occurs ">" (escapeHtml s) = false
  /\ occurs dquote (escapeHtml s) = false
  /\ ((forall c, occurs c s = true -> isHtmlSpecial c = false) -> escapeHtml s = s).
Proof.
  induction s as [|c s (IH1 & IH2 & IH3 & IH4)]; [done |].
  rewrite escapeHtml_cons, !occurs_append.
  destruct (escapeChar_cases c)
    as [[-> ->] | [[-> ->] | [[-> ->] | [[-> ->] | [Hc ->]]]]].
  1-4: rewrite IH1, IH2, IH3; repeat split; try reflexivity;
       intros Hs; specialize (Hs _ (occurs_head _ s)); discriminate.
  unfold isHtmlSpecial in Hc.
  apply Bool.orb_false_iff in Hc as [Hc Hq].
  apply Bool.orb_false_iff in Hc as [Hc Hg].
  apply Bool.orb_false_iff in Hc as [Ha Hl].
  rewrite IH1, IH2, IH3, !occurs_single.
  rewrite (Ascii.eqb_sym "<" c), (Ascii.eqb_sym ">" c), (Ascii.eqb_sym dquote c).
  rewrite Hl, Hg, Hq. repeat split; try reflexivity.
  intros Hs. push_entity. f_equal. apply IH4.
  intros d Hd. apply Hs. simpl. rewrite Hd. apply Bool.orb_true_r.
Qed.

(** X3.  Escaping loses nothing: different texts have different escaped
    texts. *)
Theorem escapeHtml_inj (s1 s2 : string) :
  escapeHtml s1 = escapeHtml s2 -> s1 = s2.
Proof.
  revert s2; induction s1 as [|c1 s1 IH]; intros [|c2 s2]; rewrite ?escapeHtml_cons.
  - done.
  - destruct (escapeChar_cases c2)
      as [[_ ->] | [[_ ->] | [[_ ->] | [[_ ->] | [_ ->]]]]];
      intros Heq; push_entity; discriminate.
  - destruct (escapeChar_cases c1)
      as [[_ ->] | [[_ ->] | [[_ ->] | [[_ ->] | [_ ->]]]]];
      intros Heq; push_entity; discriminate.
  - destruct (escapeChar_cases c1)
      as [[-> ->] | [[-> ->] | [[-> ->] | [[-> ->] | [H1 ->]]]]];
    destruct (escapeChar_cases c2)
      as [[-> ->] | [[-> ->] | [[-> ->] | [[-> ->] | [H2 ->]]]]];
    intros Heq; push_entity;
    try discriminate;
    try (injection Heq as Heq; apply IH in Heq; now subst);
    try (injection Heq as <- Heq; discriminate);
    try (injection Heq as -> Heq; discriminate).
    injection Heq as -> Heq. apply IH in Heq. now subst.
Qed.

(** ** IndexedDB *)

(** X4.  With the database open, a value put under a key is what a read of
    that key returns, a deleted key reads as absent, and neither touches
    another key; with the database closed, each of the three operations
    fails and leaves the state as it was. *)
Theorem idb_round_trip (st : State) (k : string) (v : Snapshot) :
  (idbAvailable st = true ->
     fst (idbGet k (snd (idbSet k v st))) = inr (Some v)
     /\ fst (idbGet k (snd (idbDel k st))) = inr None
     /\ (forall k', k' <> k ->
           fst (idbGet k' (snd (idbSet k v st))) = fst (idbGet k' st)
           /\ fst (idbGet k' (snd (idbDel k st))) = fst (idbGet k' st))
     /\ snd (idbGet k st) = st)
  /\ (idbAvailable st = false ->
        idbGet k st = (inl IdbError, st)
        /\ idbSet k v st = (inl IdbError, st)
        /\ idbDel k st = (inl IdbError, st)).
Proof.
  split; intros Ha; run_M; rewrite Ha; simpl; [| done].
  rewrite Ha. simpl. rewrite lookup_insert_eq, lookup_delete_eq.
  repeat split; try done; rewrite ?lookup_insert_ne, ?lookup_delete_ne; done.
Qed.

(** ** More on the search render *)

Section RenderFacts.
Context `{Host}.

Lemma In_firstn {A : Type} (n : nat) (l : list A) (x : A) :
  In x (firstn n l) -> In x l.
Proof.
  revert l; induction n as [|n IH]; intros [|y l]; simpl; try tauto.
  intros [-> | Hx]; auto.
Qed.

Lemma getFavRecords_In (st : State) (all : list CodeRecord) (r : CodeRecord) :
  In r (getFavRecords (Some all) st) -> In r all /\ code r ∈ FAVS st.
Proof.
  unfold getFavRecords. intros Hr.
  apply (Permutation_in _ (Array_sort_Permutation _ _)) in Hr.
  now apply resolved_In.
Qed.

Lemma favFiltered_In (q : string) (allFavs favHits : list CodeRecord) (r : CodeRecord) :
  In r (favFiltered q allFavs favHits) -> In r allFavs.
Proof.
  unfold favFiltered. destruct (truthy q); [| done].
  rewrite filter_In. tauto.
Qed.

(** X5.  With a catalogue resident, the two sections never show the same
    code: every record under Other Results has a code that is not a
    favourite, every pinned record is a catalogue record whose code is a
    favourite. *)
Theorem sections_disjoint (st : State) (data fuse : list CodeRecord) :
  DATA st = Some data -> FUSE st = Some fuse ->
  let st' := renderSearch st in
  (forall r, In r (els_results (els st')) -> code r ∉ FAVS st)
  /\ (forall r, In r (els_favs (els st')) -> code r ∈ FAVS st /\ In r data)
  /\ (forall r1 r2, In r1 (els_results (els st')) -> In r2 (els_favs (els st')) ->
        code r1 <> code r2).
Proof.
  intros HD HF st'. subst st'.
  assert (Hres : forall r, In r (els_results (els (renderSearch st))) ->
                           code r ∉ FAVS st).
  { intros r. rewrite (renderSearch_results st data fuse HD HF).
    rewrite partitionHits_isFav. simpl. intros Hr.
    apply In_firstn, filter_In in Hr as [_ Hr].
    apply Bool.negb_true_iff in Hr. now apply Set_has_false. }
  assert (Hfav : forall r, In r (els_favs (els (renderSearch st))) ->
                           code r ∈ FAVS st /\ In r data).
  { intros r. rewrite (renderSearch_favs st data fuse HD HF). intros Hr.
    apply favFiltered_In, getFavRecords_In in Hr. tauto. }
  split; [exact Hres |]. split; [exact Hfav |].
  intros r1 r2 H1 H2 Heq. apply Hres in H1. apply Hfav in H2 as [H2 _].
  rewrite Heq in H1. done.
Qed.

(** X6.  Rendering twice shows what rendering once shows. *)
Theorem renderSearch_idempotent (st : State) :
  renderSearch (renderSearch st) = renderSearch st.
Proof.
  destruct (DATA st) as [data|] eqn:HD;
    [| unfold renderSearch; rewrite HD; unfold renderSearch; now rewrite HD].
  destruct (FUSE st) as [fuse|] eqn:HF;
    [| unfold renderSearch; rewrite HD, HF; unfold renderSearch; now rewrite HD, HF].
  unfold renderSearch. rewrite HD, HF.
  destruct (partitionHits _ _) as [favHits otherHits] eqn:HP.
  cbn -[partitionHits searchHits trim getFavRecords favFiltered resultsTitle
        firstn Set_from].
  rewrite HD, HF, HP.
  cbn -[partitionHits searchHits trim getFavRecords favFiltered resultsTitle
        firstn Set_from].
  reflexivity.
Qed.

Lemma omap_length_le {A B : Type} (f : A -> option B) (l : list A) :
  (length (omap f l) <= length l)%nat.
Proof.
  induction l as [|x l IH]; csimpl; [done |].
  destruct (f x); simpl; lia.
Qed.

Lemma getFavRecords_length (st : State) (all : list CodeRecord) :
  (length (getFavRecords (Some all) st) <= length (FAVS st))%nat.
Proof.
  unfold getFavRecords.
  rewrite (Permutation_length (Array_sort_Permutation _ _)).
  apply omap_length_le.
Qed.

Lemma filter_length_le {A : Type} (f : A -> bool) (l : list A) :
  (length (List.filter f l) <= length l)%nat.
Proof. induction l as [|x l IH]; simpl; [done |]. destruct (f x); simpl; lia. Qed.

(** X7.  With a catalogue resident, the favourites block is hidden exactly
    when no favourite is pinned; the count beside it counts the favourites
    found in the catalogue, whichever the query shows, so it is at least the
    number pinned, at most the number of favourites, and for a blank query
    the number pinned. *)
Theorem favourites_block (st : State) (data fuse : list CodeRecord) :
  DATA st = Some data -> FUSE st = Some fuse ->
  let e := els (renderSearch st) in
  (els_favWrapHidden e = true <-> els_favs e = [])
  /\ els_favCount e = length (getFavRecords (Some data) st)
  /\ (length (els_favs e) <= els_favCount e)%nat
  /\ (els_favCount e <= length (FAVS st))%nat
  /\ (trim (els_q (els st)) = "" -> els_favCount e = length (els_favs e)).
Proof.
  intros HD HF e. subst e.
  pose proof (renderSearch_favs st data fuse HD HF) as Hf.
  pose proof (renderSearch_favCount st data fuse HD HF) as Hc.
  assert (Hh : els_favWrapHidden (els (renderSearch st))
               = Nat.eqb (length (els_favs (els (renderSearch st)))) 0).
  { unfold renderSearch. rewrite HD, HF. now destruct (partitionHits _ _). }
  split; [| split; [exact Hc | split; [| split]]].
  - rewrite Hh, Nat.eqb_eq. apply length_zero_iff_nil.
  - rewrite Hc, Hf. unfold favFiltered.
    destruct (truthy _); [apply filter_length_le | done].
  - rewrite Hc. apply getFavRecords_length.
  - intros Hq. rewrite Hc, Hf. unfold favFiltered. now rewrite Hq.
Qed.

(** X8.  For a blank query with a catalogue resident, Other Results lists
    catalogue records in catalogue order, and as many as there are
    non-favourites among the first 200 records, up to 100: records past the
    200th are never listed, however few of the first 200 are left. *)
Theorem blank_query_results (st : State) (data fuse : list CodeRecord) :
  DATA st = Some data -> FUSE st = Some fuse ->
  trim (els_q (els st)) = "" ->
  let shown := els_results (els (renderSearch st)) in
  sublist shown (firstn 200 data)
  /\ sublist shown data
  /\ length shown
     = Nat.min 100
         (length (List.filter (fun r => negb (isFav (code r) st)) (firstn 200 data))).
Proof.
  intros HD HF Hq shown. subst shown.
  rewrite (renderSearch_results st data fuse HD HF), partitionHits_isFav.
  unfold searchHits. rewrite Hq. simpl snd.
  change (MAX_RESULTS * 2)%nat with 200%nat. change MAX_RESULTS with 100%nat.
  assert (Hs : sublist
            (firstn 100 (List.filter (fun r => negb (isFav (code r) st))
                                     (firstn 200 data)))
            (firstn 200 data)).
  { etransitivity; [apply sublist_take | apply sublist_List_filter]. }
  split; [exact Hs |]. split.
  - etransitivity; [exact Hs | apply sublist_take].
  - apply length_firstn.
Qed.

(** X9.  [refreshFavouritesUI] shows every favourite found in the catalogue,
    whatever the query: its count is the one [renderSearch] shows, what
    [renderSearch] pins is a part of what it lists, in the same order, and
    for a blank query the two show the same favourites block. *)
Theorem refreshFavouritesUI_agrees (st : State) (data fuse : list CodeRecord) :
  DATA st = Some data -> FUSE st = Some fuse ->
  let a := els (refreshFavouritesUI st) in
  let b := els (renderSearch st) in
  els_favs a = getFavRecords (Some data) st
  /\ els_favCount a = els_favCount b
  /\ sublist (els_favs b) (els_favs a)
  /\ (trim (els_q (els st)) = "" ->
        els_favs a = els_favs b /\ els_favWrapHidden a = els_favWrapHidden b).
Proof.
  intros HD HF a b. subst a b.
  pose proof (renderSearch_favs st data fuse HD HF) as Hf.
  pose proof (renderSearch_favCount st data fuse HD HF) as Hc.
  assert (Hh : els_favWrapHidden (els (renderSearch st))
               = Nat.eqb (length (els_favs (els (renderSearch st)))) 0).
  { unfold renderSearch. rewrite HD, HF. now destruct (partitionHits _ _). }
  unfold refreshFavouritesUI. cbn. rewrite HD.
  split; [done |]. split; [now rewrite Hc |]. split.
  - rewrite Hf. unfold favFiltered.
    destruct (truthy _); [apply sublist_List_filter | done].
  - intros Hq. rewrite Hh, Hf. unfold favFiltered. now rewrite Hq.
Qed.

Lemma byCodeMap_acc_notin (l : list CodeRecord) (m : gmap string CodeRecord)
      (c : string) :
  ~ In c (map code l) ->
  fold_left (fun m r => <[code r := r]> m) l m !! c = m !! c.
Proof.
  revert m; induction l as [|x l IH]; intros m Hc; simpl; [done |].
  simpl in Hc. rewrite IH by tauto. apply lookup_insert_ne. tauto.
Qed.

Lemma getFavRecords_In_iff (st : State) (all : list CodeRecord) (r : CodeRecord) :
  In r (getFavRecords (Some all) st) <->
  code r ∈ FAVS st /\ byCodeMap all !! code r = Some r.
Proof.
  unfold getFavRecords. split.
  - intros Hr. apply (Permutation_in _ (Array_sort_Permutation _ _)) in Hr.
    apply list_elem_of_In, list_elem_of_omap in Hr as (c & Hc & Hl).
    apply byCodeMap_Some in Hl as Hr. destruct Hr as [_ <-]. done.
  - intros [Hc Hl].
    apply (Permutation_in _ (Permutation_sym (Array_sort_Permutation _ _))).
    apply list_elem_of_In, list_elem_of_omap. eauto.
Qed.

(** X10.  A favourite is listed once, as the record the catalogue gives it:
    the listed records are those that the code index holds under a favourite
    code; where the catalogue has several records of one code, the index
    holds the last of them; and no code is listed twice. *)
Theorem favourites_resolve_once (st : State) (all : list CodeRecord) :
  (forall r, In r (getFavRecords (Some all) st) <->
             code r ∈ FAVS st /\ byCodeMap all !! code r = Some r)
  /\ (forall l1 r l2, all = l1 ++ r :: l2 -> ~ In (code r) (map code l2) ->
        byCodeMap all !! code r = Some r)
  /\ (NoDup (FAVS st) -> NoDup (map code (getFavRecords (Some all) st))).
Proof.
  split; [| split].
  - intros r. apply getFavRecords_In_iff.
  - intros l1 r l2 -> Hr. unfold byCodeMap.
    rewrite fold_left_app. simpl. rewrite byCodeMap_acc_notin by done.
    apply lookup_insert_eq.
  - intros Hnd. unfold getFavRecords. apply NoDup_ListNoDup.
    eapply Permutation_NoDup.
    + apply Permutation_map, Permutation_sym, Array_sort_Permutation.
    + rewrite resolved_codes. apply List.NoDup_filter. now apply NoDup_ListNoDup.
Qed.

End RenderFacts.

(** ** More on star clicks *)

Section StarFacts.
Context `{Host}.

Lemma onStarClick_steps (c : string) (now : Z) (st : State) :
  c <> "" ->
  onStarClick (Some (Some c)) now st = renderSearch (saveFavs (toggled c now st)).
Proof. intros Hc. unfold onStarClick. apply truthy_true in Hc. now rewrite Hc. Qed.

Lemma toggled_frame (c : string) (now : Z) (st : State) :
  datasetOf (saveFavs (toggled c now st)) = datasetOf st
  /\ els (saveFavs (toggled c now st)) = els st
  /\ idbAvailable (saveFavs (toggled c now st)) = idbAvailable st
  /\ alerts (saveFavs (toggled c now st)) = alerts st
  /\ downloads (saveFavs (toggled c now st)) = downloads st.
Proof. unfold toggled. now destruct (Set_has c (FAVS st)). Qed.

Lemma renderSearch_datasetOf (st : State) : datasetOf (renderSearch st) = datasetOf st.
Proof.
  unfold datasetOf.
  now destruct (renderSearch_frame st) as (-> & -> & _ & _ & _ & _ & -> & _).
Qed.

Lemma renderSearch_favouritesOf (st : State) :
  favouritesOf (renderSearch st) = favouritesOf st.
Proof.
  unfold favouritesOf.
  now destruct (renderSearch_frame st) as (_ & _ & -> & -> & -> & _).
Qed.

(** X11.  With a catalogue resident, the page follows the star: after a
    click that makes a code a favourite no record of that code is under
    Other Results, and for a blank query a catalogue record of that code is
    pinned; after a click that ends a favourite no record of that code is
    pinned. *)
Theorem star_click_moves_card
        (st : State) (data fuse : list CodeRecord) (c : string) (now : Z) :
  DATA st = Some data -> FUSE st = Some fuse -> c <> "" ->
  let st' := onStarClick (Some (Some c)) now st in
  (c ∉ FAVS st ->
     (forall r, In r (els_results (els st')) -> code r <> c)
     /\ (trim (els_q (els st)) = "" -> In c (map code data) ->
           exists r, In r (els_favs (els st')) /\ In r data /\ code r = c))
  /\ (c ∈ FAVS st -> forall r, In r (els_favs (els st')) -> code r <> c).
Proof.
  intros HD HF Hc st'. subst st'. rewrite (onStarClick_steps c now st Hc).
  remember (saveFavs (toggled c now st)) as s1 eqn:Hs1.
  assert (He : els s1 = els st)
    by (subst s1; unfold toggled; now destruct (Set_has c (FAVS st))).
  assert (HD1 : DATA s1 = Some data)
    by (rewrite <- HD; subst s1; unfold toggled; now destruct (Set_has c (FAVS st))).
  assert (HF1 : FUSE s1 = Some fuse)
    by (rewrite <- HF; subst s1; unfold toggled; now destruct (Set_has c (FAVS st))).
  assert (Hfavs : FAVS s1
                  = if Set_has c (FAVS st) then Set_delete c (FAVS st)
                    else Set_add c (FAVS st)).
  { subst s1. unfold toggled. now destruct (Set_has c (FAVS st)). }
  pose proof (renderSearch_results s1 data fuse HD1 HF1) as Hres.
  pose proof (renderSearch_favs s1 data fuse HD1 HF1) as Hfav.
  split.
  - intros Hnot. apply Set_has_false in Hnot as Hhas. rewrite Hhas in Hfavs. split.
    + intros r. rewrite Hres, partitionHits_isFav. simpl. intros Hr Heq.
      apply In_firstn, filter_In in Hr as [_ Hr].
      apply Bool.negb_true_iff, Set_has_false in Hr.
      apply Hr. rewrite Hfavs, Heq. apply elem_of_Set_add. now left.
    + intros Hq Hin. rewrite Hfav, He. unfold favFiltered. rewrite Hq. simpl.
      destruct (byCodeMap data !! c) as [r|] eqn:E.
      * apply byCodeMap_Some in E as Hr. destruct Hr as [Hr Hcr].
        exists r. split; [| done].
        apply getFavRecords_In_iff. rewrite Hcr. split; [| done].
        rewrite Hfavs. apply elem_of_Set_add. now left.
      * apply byCodeMap_None in E. done.
  - intros Hin r. apply Set_has_true in Hin as Hhas. rewrite Hhas in Hfavs.
    rewrite Hfav. intros Hr Heq.
    apply favFiltered_In, getFavRecords_In in Hr as [_ Hr].
    rewrite Hfavs, Heq in Hr. apply elem_of_Set_delete in Hr. tauto.
Qed.

(** X12.  The favourite starred last comes first.  When a code of the
    catalogue that is not a favourite, and is not [__proto__], is starred at
    a time later than the timestamp of every favourite, each of them reading
    a number, the list of favourites starts with the record of that code,
    and for a blank query so does the pinned section. *)
Theorem newest_favourite_first
        (st : State) (data fuse : list CodeRecord) (c : string) (now : Z) :
  DATA st = Some data -> FUSE st = Some fuse -> c <> "" -> c <> "__proto__" ->
  c ∉ FAVS st -> In c (map code data) ->
  (forall c', c' ∈ FAVS st -> exists t, lruOf (FAV_LRU st) c' = Some t /\ t < now) ->
  let st' := onStarClick (Some (Some c)) now st in
  code <$> head (getFavRecords (Some data) st') = Some c
  /\ (trim (els_q (els st)) = "" -> code <$> head (els_favs (els st')) = Some c).
Proof.
  intros HD HF Hc Hproto Hnot Hin Hlt st'. subst st'.
  rewrite (onStarClick_steps c now st Hc).
  remember (saveFavs (toggled c now st)) as s1 eqn:Hs1.
  assert (He : els s1 = els st)
    by (subst s1; unfold toggled; now destruct (Set_has c (FAVS st))).
  assert (HD1 : DATA s1 = Some data)
    by (rewrite <- HD; subst s1; unfold toggled; now destruct (Set_has c (FAVS st))).
  assert (HF1 : FUSE s1 = Some fuse)
    by (rewrite <- HF; subst s1; unfold toggled; now destruct (Set_has c (FAVS st))).
  apply Set_has_false in Hnot as Hhas.
  assert (Hfavs : FAVS s1 = Set_add c (FAVS st))
    by (subst s1; unfold toggled; now rewrite Hhas).
  assert (Hlru : FAV_LRU s1 = Object_set c now (FAV_LRU st))
    by (subst s1; unfold toggled; now rewrite Hhas).
  assert (Hsame : getFavRecords (Some data) (renderSearch s1)
                  = getFavRecords (Some data) s1).
  { unfold getFavRecords.
    now destruct (renderSearch_frame s1) as (_ & _ & -> & -> & _). }
  assert (Hnow : lruOf (FAV_LRU s1) c = Some now).
  { apply lruOf_own. rewrite Hlru. apply Object_set_eq. now left. }
  assert (Hold : forall c', c' ∈ FAVS st -> c' <> c ->
                   exists t, lruOf (FAV_LRU s1) c' = Some t /\ t < now).
  { intros c' Hc' Hne. destruct (Hlt c' Hc') as (t & Ht & Hlt').
    exists t. split; [| done]. rewrite <- Ht. unfold lruOf, Object_get.
    now rewrite Hlru, Object_set_ne. }
  assert (Hhead : code <$> head (getFavRecords (Some data) s1) = Some c).
  { destruct (byCodeMap data !! c) as [rc|] eqn:E;
      [| apply byCodeMap_None in E; done].
    apply byCodeMap_Some in E as Hrc. destruct Hrc as [_ Hcode].
    assert (Hmem : In rc (getFavRecords (Some data) s1)).
    { apply getFavRecords_In_iff. rewrite Hcode. split; [| done].
      rewrite Hfavs. apply elem_of_Set_add. now left. }
    destruct (getFavRecords_sorted s1 data) as [HP Hsorted].
    { intros c' Hc' _. rewrite Hfavs in Hc'.
      apply elem_of_Set_add in Hc' as [-> | Hc']; [rewrite Hnow; eauto |].
      destruct (decide (c' = c)) as [-> | Hne]; [rewrite Hnow; eauto |].
      destruct (Hold c' Hc' Hne) as (t & -> & _). eauto. }
    assert (Hall : forall r, In r (getFavRecords (Some data) s1) ->
                     code r <> c ->
                     exists t, lruOf (FAV_LRU s1) (code r) = Some t /\ t < now).
    { intros r Hr Hne. apply getFavRecords_In in Hr as [_ Hr].
      rewrite Hfavs in Hr. apply elem_of_Set_add in Hr as [? | Hr]; [done |].
      now apply Hold. }
    destruct (getFavRecords (Some data) s1) as [|h t]; [done |].
    simpl. f_equal.
    destruct (decide (code h = c)) as [Hh | Hh]; [done |]. exfalso.
    destruct Hmem as [-> | Hmem]; [done |].
    apply StronglySorted_inv in Hsorted as [_ Hfa].
    rewrite List.Forall_forall in Hfa, HP. specialize (Hfa rc Hmem).
    destruct (Hall h (or_introl eq_refl) Hh) as (th & Hth & Hlth).
    apply favCompare_le_iff in Hfa;
      [| apply HP; now left | apply HP; now right].
    rewrite <- (lruOf_Some _ _ _ Hth) in Hfa.
    rewrite Hcode in Hfa. rewrite <- (lruOf_Some _ _ _ Hnow) in Hfa. lia. }
  split; [now rewrite Hsame |].
  intros Hq. rewrite (renderSearch_favs s1 data fuse HD1 HF1), He.
  unfold favFiltered. now rewrite Hq.
Qed.

End StarFacts.

(** ** More on the dataset cache *)

Section DatasetFacts.
Context `{Host}.

(** Every way [fetchAndCache] can end. *)
Lemma fetchAndCache_outcome (o : FetchOutcome) (now shown : Z) (st : State) :
  (exists e, fetchAndCache o now shown st = (inl e, fetching st))
  \/ (exists status buf json,
        o = Response status (Some buf) /\ ok status = true
        /\ JSON_parse (TextDecoder_decode buf) = Some json
        /\ idbAvailable st = true
        /\ fetchAndCache o now shown st
           = (inr tt,
              let st1 := set_idbStore
                           (<[KEY := mkSnapshot (sha256Hex buf) now json]> (idbStore st))
                           (fetching st) in
              let st2 := buildFuse json (set_DATA (Some json) st1) in
              set_els (setMeta
                (mkMeta (Some (length json)) (Some srcNetwork)
                        (Some (Some (sha256Hex buf)))
                        (Some (Some (Date_toLocaleString shown)))
                        (Some csUpdated)) (els st2)) st2)).
Proof.
  destruct (requestSucceeds o) eqn:Hreq.
  - destruct o as [|status [buf|]]; try discriminate. simpl in Hreq.
    rewrite (fetchAndCache_request_ok status buf now shown st Hreq).
    destruct (JSON_parse (TextDecoder_decode buf)) as [json|] eqn:Hj; [| eauto].
    destruct (idbAvailable st) eqn:Ha; [| eauto].
    right. exists status, buf, json. done.
  - left. destruct (fetchAndCache_request_failed o now shown st Hreq) as (e & -> & _).
    eauto.
Qed.

(** X13.  A refresh is all or nothing, on every payload that is not JSON
    of a foreign shape.  However it fails, on the request, on a text that is
    not JSON or on the store, it leaves the state as it was but for the
    cache-state text; it returns normally exactly when the request succeeds,
    the payload is an array of records and the database opens.  The status
    is looked at first: a response that is not 2xx fails with its status
    whatever its body holds. *)
Theorem refresh_all_or_nothing (o : FetchOutcome) (now shown : Z) (st : State) :
  let r := fetchAndCache o now shown st in
  (foreignPayload o = false ->
     (forall e, fst r = inl e ->
        snd r = fetching st
        /\ datasetOf (snd r) = datasetOf st
        /\ els_results (els (snd r)) = els_results (els st))
     /\ (fst r = inr tt <->
         exists status buf,
           o = Response status (Some buf) /\ ok status = true
           /\ is_Some (JSON_parse (TextDecoder_decode buf))
           /\ idbAvailable st = true))
  /\ (forall status body, o = Response status body -> ok status = false ->
        fst r = inl (FetchFailed status)).
Proof.
  intros r. subst r. split; [intros _; split |].
  - intros e He.
    destruct (fetchAndCache_outcome o now shown st)
      as [(e' & Hr) | (status & buf & json & _ & _ & _ & _ & Hr)];
      rewrite Hr in *; [done | discriminate].
  - split.
    + intros Hr.
      destruct (fetchAndCache_outcome o now shown st)
        as [(e' & Hr') | (status & buf & json & -> & Hok & Hj & Ha & _)].
      * rewrite Hr' in Hr. discriminate.
      * exists status, buf. rewrite Hj. eauto.
    + intros (status & buf & -> & Hok & [json Hj] & Ha).
      now rewrite (fetchAndCache_request_ok status buf now shown st Hok), Hj, Ha.
  - intros status body -> Hok. run_M. now rewrite Hok.
Qed.

Lemma fetchAndCache_favouritesOf (o : FetchOutcome) (now shown : Z) (st : State) :
  favouritesOf (snd (fetchAndCache o now shown st)) = favouritesOf st.
Proof.
  destruct (fetchAndCache_outcome o now shown st)
    as [(e & ->) | (status & buf & json & _ & _ & _ & _ & ->)]; done.
Qed.

Lemma loadFromCache_outcome (st : State) :
  (idbAvailable st = false /\ loadFromCache st = (inl IdbError, st))
  \/ (idbAvailable st = true /\ idbStore st !! KEY = None
      /\ loadFromCache st
         = (inr false,
            set_els (setMeta (mkMeta None None None None (Some csMiss)) (els st)) st))
  \/ (exists c, idbAvailable st = true /\ idbStore st !! KEY = Some c
      /\ loadFromCache st
         = (inr true,
            let st1 := buildFuse (data c) (set_DATA (Some (data c)) st) in
            set_els (setMeta
              (mkMeta (Some (length (data c))) (Some srcIndexedDB)
                      (Some (Some (version c)))
                      (Some (Some (Date_toLocaleString (updated c))))
                      (Some csHit)) (els st1)) st1)).
Proof.
  destruct (idbAvailable st) eqn:Ha.
  - destruct (idbStore st !! KEY) as [c|] eqn:Hc.
    + right; right. exists c. split; [done |]. split; [done |].
      now apply loadFromCache_hit.
    + right; left. split; [done |]. split; [done |]. now apply loadFromCache_miss.
  - left. split; [done |]. run_M. now rewrite Ha.
Qed.

Lemma loadFromCache_favouritesOf (st : State) :
  favouritesOf (snd (loadFromCache st)) = favouritesOf st.
Proof.
  destruct (loadFromCache_outcome st)
    as [(_ & ->) | [(_ & _ & ->) | (c & _ & _ & ->)]]; done.
Qed.

Lemma btnRefresh_click_favouritesOf (o : FetchOutcome) (now shown : Z) (st : State) :
  favouritesOf (btnRefresh_click o now shown st) = favouritesOf st.
Proof.
  unfold btnRefresh_click.
  match goal with |- context [fetchAndCache o now shown ?s] =>
    pose proof (fetchAndCache_favouritesOf o now shown s) as Hf;
    destruct (fetchAndCache o now shown s) as [[e|u] s1]
  end; simpl in Hf.
  - exact Hf.
  - unfold favouritesOf in *. simpl.
    now destruct (renderSearch_frame s1) as (_ & _ & -> & -> & -> & _).
Qed.

Lemma btnExport_click_frame (st : State) :
  favouritesOf (snd (btnExport_click st)) = favouritesOf st
  /\ datasetOf (snd (btnExport_click st)) = datasetOf st
  /\ els (snd (btnExport_click st)) = els st.
Proof.
  run_M. destruct (idbAvailable st); [| done].
  now destruct (idbStore st !! KEY).
Qed.

Lemma btnClear_click_favouritesOf (st : State) :
  favouritesOf (snd (btnClear_click st)) = favouritesOf st.
Proof. run_M. now destruct (idbAvailable st). Qed.

Lemma boot_favouritesOf (o : FetchOutcome) (now shown : Z) (st : State) :
  favouritesOf (boot o now shown st) = favouritesOf st.
Proof.
  unfold boot, bind, modify.
  pose proof (loadFromCache_favouritesOf st) as Hl.
  destruct (loadFromCache st) as [[e|[|]] s1]; simpl in *; [done | |].
  - now rewrite renderSearch_favouritesOf.
  - pose proof (fetchAndCache_favouritesOf o now shown s1) as Hf.
    destruct (fetchAndCache o now shown s1) as [[e|u] s2]; simpl in *.
    + now rewrite <- Hl, <- Hf.
    + rewrite renderSearch_favouritesOf. now rewrite <- Hl, <- Hf.
Qed.

(** X14.  No handler of the dataset touches the favourites: a load, a
    fetch, a click on refresh, on clear or on export, and the boot all leave
    the favourite set, the timestamps and [localStorage] as they found
    them. *)
Theorem dataset_keeps_favourites (o : FetchOutcome) (now shown : Z) (st : State) :
  favouritesOf (snd (loadFromCache st)) = favouritesOf st
  /\ favouritesOf (snd (fetchAndCache o now shown st)) = favouritesOf st
  /\ favouritesOf (btnRefresh_click o now shown st) = favouritesOf st
  /\ favouritesOf (snd (btnClear_click st)) = favouritesOf st
  /\ favouritesOf (snd (btnExport_click st)) = favouritesOf st
  /\ favouritesOf (boot o now shown st) = favouritesOf st
  /\ favouritesOf (renderSearch st) = favouritesOf st.
Proof.
  split; [apply loadFromCache_favouritesOf |].
  split; [apply fetchAndCache_favouritesOf |].
  split; [apply btnRefresh_click_favouritesOf |].
  split; [apply btnClear_click_favouritesOf |].
  split; [apply btnExport_click_frame |].
  split; [apply boot_favouritesOf | apply renderSearch_favouritesOf].
Qed.

(** X15.  The refresh button is enabled again however the refresh ends.
    On a payload that is not JSON of a foreign shape: when the refresh
    fails, the error is alerted once, the cache state reads error, and the
    dataset and the results on the page are as before; when it succeeds
    nothing is alerted, the new catalogue is resident with its index, and
    for a blank query the results are records of the new catalogue. *)
Theorem refresh_button (o : FetchOutcome) (now shown : Z) (st : State) :
  let st0 := set_els (set_btnRefreshDisabled true (els st)) st in
  let r := fetchAndCache o now shown st0 in
  let st' := btnRefresh_click o now shown st in
  els_btnRefreshDisabled (els st') = false
  /\ (foreignPayload o = false ->
        (forall e, fst r = inl e ->
           alerts st' = alerts st ++ [RefreshFailedAlert e]
           /\ els_cacheState (els st') = csError
           /\ datasetOf st' = datasetOf st
           /\ els_results (els st') = els_results (els st)
           /\ els_favs (els st') = els_favs (els st))
        /\ (fst r = inr tt ->
              alerts st' = alerts st
              /\ els_cacheState (els st') = csUpdated
              /\ exists json, DATA st' = Some json /\ FUSE st' = Some json
                   /\ idbStore st' !! KEY <> None
                   /\ (trim (els_q (els st)) = "" ->
                         forall x, In x (els_results (els st')) -> In x json))).
Proof.
  intros st0 r st'. subst st' r. unfold btnRefresh_click. fold st0.
  destruct (fetchAndCache_outcome o now shown st0)
    as [(e & Hr) | (status & buf & json & _ & _ & _ & _ & Hr)].
  - rewrite Hr. split; [done |]. intros _. split; [| discriminate].
    intros e' [= <-]. done.
  - match type of Hr with _ = (_, ?S) => remember S as s1 eqn:Hs1 end.
    rewrite Hr. cbn [fst snd].
    assert (HD : DATA s1 = Some json) by (subst s1; reflexivity).
    assert (HF : FUSE s1 = Some json) by (subst s1; reflexivity).
    assert (HA1 : alerts s1 = alerts st) by (subst s1; reflexivity).
    assert (HS1 : idbStore s1 !! KEY <> None)
      by (subst s1; simpl; now rewrite lookup_insert_eq).
    assert (HC1 : els_cacheState (els s1) = csUpdated) by (subst s1; reflexivity).
    assert (Hq1 : els_q (els s1) = els_q (els st)) by (subst s1; reflexivity).
    destruct (renderSearch_frame s1) as (HF' & HD' & _ & _ & _ & _ & HS & HA & _).
    split; [done |]. intros _. split; [discriminate |]. intros _.
    split; [simpl; now rewrite HA |]. split.
    + simpl. rewrite <- HC1. unfold renderSearch. rewrite HD, HF.
      now destruct (partitionHits _ _).
    + exists json. simpl. rewrite HD', HF', HS.
      split; [done |]. split; [done |]. split; [done |].
      intros Hq x. rewrite (renderSearch_results s1 json json HD HF).
      rewrite partitionHits_isFav. simpl snd. unfold searchHits.
      rewrite Hq1, Hq. simpl truthy. cbv iota.
      intros Hx. apply In_firstn, filter_In in Hx as [Hx _].
      now apply In_firstn in Hx.
Qed.

(** X16.  With a snapshot in the cache, the boot does not use the network:
    whatever the request would bring, the cached catalogue becomes resident
    with its index, the page says so, and the store and the alerts are as
    before. *)
Theorem boot_uses_cache (st : State) (c : Snapshot) :
  idbAvailable st = true -> idbStore st !! KEY = Some c ->
  forall o now shown,
    let st' := boot o now shown st in
    (forall o' now' shown', boot o' now' shown' st = st')
    /\ DATA st' = Some (data c) /\ FUSE st' = Some (data c)
    /\ idbStore st' = idbStore st /\ alerts st' = alerts st
    /\ els_cacheState (els st') = csHit
    /\ els_pillSource (els st') = srcIndexedDB
    /\ els_cacheVersion (els st') = orDash (Some (version c)).
Proof.
  intros Ha Hc o now shown st'. subst st'.
  unfold boot, bind, modify. rewrite (loadFromCache_hit st c Ha Hc). cbn [negb].
  unfold ret. cbn [fst snd].
  match goal with |- context [renderSearch ?s] => remember s as s1 eqn:Hs1 end.
  assert (HD : DATA s1 = Some (data c)) by (subst s1; reflexivity).
  assert (HF : FUSE s1 = Some (data c)) by (subst s1; reflexivity).
  destruct (renderSearch_frame s1) as (-> & -> & _ & _ & _ & _ & -> & -> & _).
  split; [done |]. split; [done |]. split; [done |].
  split; [subst s1; reflexivity |]. split; [subst s1; reflexivity |].
  assert (Hels : els_cacheState (els (renderSearch s1)) = els_cacheState (els s1)
                 /\ els_pillSource (els (renderSearch s1)) = els_pillSource (els s1)
                 /\ els_cacheVersion (els (renderSearch s1)) = els_cacheVersion (els s1)).
  { unfold renderSearch. rewrite HD, HF. now destruct (partitionHits _ _). }
  destruct Hels as (-> & -> & ->). subst s1. done.
Qed.

(** X17.  With the database open and no snapshot in it, the boot fetches.
    On a payload that is not JSON of a foreign shape: if the fetch fails the
    error is alerted, the cache state reads error and no catalogue becomes
    resident by it; if it succeeds the fetched catalogue is resident, stored
    under the key, and nothing is alerted. *)
Theorem boot_fetches_on_miss (o : FetchOutcome) (now shown : Z) (st : State) :
  idbAvailable st = true -> idbStore st !! KEY = None ->
  foreignPayload o = false ->
  let missed :=
    set_els (setMeta (mkMeta None None None None (Some csMiss)) (els st)) st in
  let r := fetchAndCache o now shown missed in
  let st' := boot o now shown st in
  (forall e, fst r = inl e ->
     alerts st' = alerts st ++ [InitFailedAlert e]
     /\ els_cacheState (els st') = csError
     /\ datasetOf st' = datasetOf st)
  /\ (fst r = inr tt ->
        alerts st' = alerts st
        /\ exists json, DATA st' = Some json /\ FUSE st' = Some json
             /\ data <$> idbStore st' !! KEY = Some json).
Proof.
  intros Ha Hc _ missed r st'. subst st' r.
  unfold boot, bind, modify. rewrite (loadFromCache_miss st Ha Hc). cbn [negb].
  fold missed.
  destruct (fetchAndCache_outcome o now shown missed)
    as [(e & Hr) | (status & buf & json & _ & _ & _ & _ & Hr)].
  - rewrite Hr. cbn [fst snd]. split; [| discriminate].
    intros e' [= <-]. done.
  - match type of Hr with _ = (_, ?S) => remember S as s1 eqn:Hs1 end.
    rewrite Hr. cbn [fst snd]. split; [discriminate |]. intros _.
    destruct (renderSearch_frame s1) as (-> & -> & _ & _ & _ & _ & -> & -> & _).
    split; [subst s1; reflexivity |]. exists json.
    split; [subst s1; reflexivity |]. split; [subst s1; reflexivity |].
    subst s1. simpl. now rewrite lookup_insert_eq.
Qed.

(** X18.  With the database closed the boot gives up at the first read: it
    alerts the storage error and sets the cache state to error, and whatever
    the network would answer it fetches nothing, so no catalogue becomes
    resident. *)
Theorem boot_stops_without_database (o : FetchOutcome) (now shown : Z) (st : State) :
  idbAvailable st = false ->
  boot o now shown st
  = alert (InitFailedAlert IdbError)
      (set_els (setMeta (mkMeta None None None None (Some csError)) (els st)) st)
  /\ datasetOf (boot o now shown st) = datasetOf st
  /\ els_results (els (boot o now shown st)) = els_results (els st).
Proof.
  intros Ha. unfold boot, bind, modify.
  destruct (loadFromCache_outcome st)
    as [(_ & ->) | [(Ha' & _) | (c & Ha' & _)]]; [done | congruence | congruence].
Qed.

(** X19.  After a clear with the database open, a load reports a miss
    and brings no catalogue back, an export alerts that the cache is empty
    and offers nothing, and the render does nothing; the favourites shown
    on the page stay, and a star click on one of them still changes and
    saves the favourites, without redrawing anything. *)
Theorem after_clear (st : State) (c : string) (now : Z) :
  idbAvailable st = true -> c <> "" ->
  let st1 := snd (btnClear_click st) in
  fst (loadFromCache st1) = inr false
  /\ DATA (snd (loadFromCache st1)) = None
  /\ snd (btnExport_click st1) = alert NothingInCacheAlert st1
  /\ renderSearch st1 = st1
  /\ els_favs (els st1) = els_favs (els st)
  /\ els (onStarClick (Some (Some c)) now st1) = els st1
  /\ (c ∈ FAVS (onStarClick (Some (Some c)) now st1) <-> c ∉ FAVS st)
  /\ favsSaved (onStarClick (Some (Some c)) now st1).
Proof.
  intros Ha Hc st1. subst st1.
  assert (Hclr : btnClear_click st
                 = (inr tt,
                    set_els (set_results []
                      (setMeta (mkMeta (Some 0%nat) (Some srcDash) (Some None)
                                       (Some None) (Some csCleared)) (els st)))
                      (set_FUSE None (set_DATA None
                         (set_idbStore (delete KEY (idbStore st)) st))))).
  { run_M. now rewrite Ha. }
  rewrite Hclr. cbn [snd].
  match goal with |- context [loadFromCache ?s] => remember s as s1 eqn:Hs1 end.
  assert (Ha1 : idbAvailable s1 = true) by (subst s1; exact Ha).
  assert (Hk : idbStore s1 !! KEY = None)
    by (subst s1; simpl; apply lookup_delete_eq).
  assert (HD : DATA s1 = None) by (subst s1; reflexivity).
  assert (HFv : FAVS s1 = FAVS st) by (subst s1; reflexivity).
  rewrite (loadFromCache_miss s1 Ha1 Hk). cbn [fst snd].
  split; [done |]. split; [exact HD |]. split.
  { run_M. now rewrite Ha1, Hk. }
  assert (Hrender : forall s, DATA s = None -> renderSearch s = s)
    by (intros s Hs; unfold renderSearch; now rewrite Hs).
  split; [now apply Hrender |]. split; [subst s1; reflexivity |].
  rewrite (onStarClick_steps c now s1 Hc).
  assert (HD2 : DATA (saveFavs (toggled c now s1)) = None)
    by (rewrite <- HD; unfold toggled; now destruct (Set_has c (FAVS s1))).
  rewrite (Hrender _ HD2).
  split; [unfold toggled; now destruct (Set_has c (FAVS s1)) |]. split.
  - rewrite <- HFv. unfold toggled. destruct (Set_has c (FAVS s1)) eqn:E; simpl.
    + apply Set_has_true in E. rewrite elem_of_Set_delete. tauto.
    + apply Set_has_false in E. rewrite elem_of_Set_add. tauto.
  - unfold favsSaved. rewrite saveFavs_localStorage. simpl.
    rewrite lookup_insert_ne by done. now rewrite !lookup_insert_eq.
Qed.

End DatasetFacts.

(** ** The page as a whole *)

Section ShellFacts.
Context `{Host}.

Lemma window_online_eq (o : FetchOutcome) (now shown : Z) (sh : Shell) :
  window_online o now shown sh
  = match DATA (core sh) with
    | Some _ =>
        mkShell (core sh) true false "You're online - data will sync"
                (searchTimer sh) (console sh)
    | None =>
        match fetchAndCache o now shown (core sh) with
        | (inr _, st) =>
            mkShell st true false "You're online - data will sync"
                    (searchTimer sh) (console sh)
        | (inl e, st) =>
            mkShell st true false "You're online - data will sync"
                    (searchTimer sh) (console sh ++ [e])
        end
    end.
Proof.
  unfold window_online, updateOfflineStatus.
  change (isOnline (set_isOnline true sh)) with true. cbv iota.
  change (DATA (core (set_offline false "You're online - data will sync"
                        (set_isOnline true sh))))
    with (DATA (core sh)).
  destruct (DATA (core sh)); [reflexivity |].
  change (core (set_offline false "You're online - data will sync"
                  (set_isOnline true sh)))
    with (core sh).
  now destruct (fetchAndCache o now shown (core sh)) as [[e|u] s1].
Qed.

(** X20.  Coming back online hides the banner.  With a catalogue resident it
    does nothing else: nothing is fetched.  With none it fetches once,
    alerts nothing and does not render: what the page lists is as before,
    also when the fetch succeeded.  On a payload that is not JSON of a
    foreign shape, an error goes to the console and leaves the dataset as it
    was, and a success leaves a catalogue resident. *)
Theorem online_handler (o : FetchOutcome) (now shown : Z) (sh : Shell) :
  let sh' := window_online o now shown sh in
  let r := fetchAndCache o now shown (core sh) in
  isOnline sh' = true /\ offlineShown sh' = false
  /\ (is_Some (DATA (core sh)) -> core sh' = core sh /\ console sh' = console sh)
  /\ (DATA (core sh) = None ->
        alerts (core sh') = alerts (core sh)
        /\ els_results (els (core sh')) = els_results (els (core sh))
        /\ els_favs (els (core sh')) = els_favs (els (core sh))
        /\ (foreignPayload o = false ->
              core sh' = snd r
              /\ (forall e, fst r = inl e ->
                    console sh' = console sh ++ [e]
                    /\ datasetOf (core sh') = datasetOf (core sh))
              /\ (fst r = inr tt ->
                    console sh' = console sh /\ is_Some (DATA (core sh'))))).
Proof.
  intros sh' r. subst sh' r. rewrite window_online_eq.
  split; [| split; [| split]].
  - destruct (DATA (core sh)); [done |].
    now destruct (fetchAndCache o now shown (core sh)) as [[e|u] s1].
  - destruct (DATA (core sh)); [done |].
    now destruct (fetchAndCache o now shown (core sh)) as [[e|u] s1].
  - intros [d Hd]. now rewrite Hd.
  - intros Hd. rewrite Hd.
    destruct (fetchAndCache_outcome o now shown (core sh))
      as [(e & Hr) | (status & buf & json & _ & _ & _ & _ & Hr)]; rewrite Hr.
    + cbn [core console fst snd].
      split; [done |]. split; [done |]. split; [done |]. intros _. split; [done |].
      split; [intros e' [= <-]; done | discriminate].
    + cbn [core console fst snd].
      split; [done |]. split; [done |]. split; [done |]. intros _. split; [done |].
      split; [discriminate |]. intros _. split; [done |]. cbn. eauto.
Qed.

Lemma step_indicatorRight (ev : Event) (sh : Shell) :
  indicatorRight sh -> indicatorRight (step ev sh).
Proof.
  unfold indicatorRight. intros Hi.
  destruct ev; cbn; try exact Hi.
  - unfold typed, q_input, onSearch. cbn. now destruct (FUSE (core sh)).
  - unfold searchTimer_fires. now destruct (searchTimer sh).
  - rewrite window_online_eq. destruct (DATA (core sh)); [done |].
    now destruct (fetchAndCache o now shown (core sh)) as [[e|u] s1].
  - done.
Qed.

(** X21.  The offline banner follows the connectivity: it is right after
    [updateOfflineStatus], and once right it stays right through every event
    the page gets; after the page goes offline it is shown, after it comes
    online it is hidden. *)
Theorem banner_follows_connectivity (evs : list Event) (sh : Shell) :
  indicatorRight (updateOfflineStatus sh)
  /\ (indicatorRight sh -> indicatorRight (run evs sh))
  /\ offlineShown (step WentOffline (run evs sh)) = true
  /\ (forall o now shown,
        offlineShown (step (WentOnline o now shown) (run evs sh)) = false).
Proof.
  split; [| split; [| split]].
  - unfold indicatorRight, updateOfflineStatus.
    destruct (isOnline sh) eqn:E; cbn; now rewrite E.
  - unfold run. revert sh. induction evs as [|ev evs IH]; intros sh Hi; [exact Hi |].
    cbn [fold_left]. apply IH. now apply step_indicatorRight.
  - reflexivity.
  - intros o now shown. cbn [step]. rewrite window_online_eq.
    destruct (DATA (core (run evs sh))); [done |].
    now destruct (fetchAndCache o now shown (core (run evs sh))) as [[e|u] s1].
Qed.

Lemma run_app (evs1 evs2 : list Event) (sh : Shell) :
  run (evs1 ++ evs2) sh = run evs2 (run evs1 sh).
Proof. unfold run. apply fold_left_app. Qed.

Lemma typing_typing (t1 t2 : string) (e : Els) : typing t2 (typing t1 e) = typing t2 e.
Proof. reflexivity. Qed.

Lemma run_typed (texts : list string) (last : string) (sh : Shell) :
  is_Some (FUSE (core sh)) ->
  run (map Typed (texts ++ [last])) sh
  = set_searchTimer true
      (set_core (set_els (typing last (els (core sh))) (core sh)) sh).
Proof.
  revert sh. induction texts as [|t texts IH]; intros sh [f Hf].
  - cbn. unfold typed, q_input, onSearch. cbn. now rewrite Hf.
  - change (run (map Typed ((t :: texts) ++ [last])) sh)
      with (run (map Typed (texts ++ [last])) (step (Typed t) sh)).
    rewrite IH.
    + cbn. unfold typed, q_input, onSearch. cbn. now rewrite Hf.
    + cbn. unfold typed, q_input, onSearch. cbn. rewrite Hf. cbn. eauto.
Qed.

(** X22.  The search is debounced.  With an index resident, however many
    edits of the search box come before the timer runs out, nothing is
    rendered while they come, and when the timer runs out the page is
    rendered once, for the text of the last edit; a timer with nothing
    pending does nothing.  With no index an edit sets no timer. *)
Theorem typing_burst (texts : list string) (last : string) (sh : Shell) :
  let edited := set_els (typing last (els (core sh))) (core sh) in
  (is_Some (FUSE (core sh)) ->
     let sh1 := run (map Typed (texts ++ [last])) sh in
     let sh2 := step TimerFired sh1 in
     core sh1 = edited /\ searchTimer sh1 = true
     /\ core sh2 = renderSearch edited /\ searchTimer sh2 = false
     /\ step TimerFired sh2 = sh2)
  /\ (FUSE (core sh) = None ->
        searchTimer (step (Typed last) sh) = searchTimer sh
        /\ core (step (Typed last) sh) = edited).
Proof.
  intros edited. subst edited. split.
  - intros Hf. cbv zeta. rewrite (run_typed texts last sh Hf).
    cbn. unfold searchTimer_fires. cbn. done.
  - intros Hf. cbn. unfold typed, q_input. cbn. now rewrite Hf.
Qed.

Lemma step_favouritesOf (ev : Event) (sh : Shell) :
  isStarClick ev = false ->
  favouritesOf (core (step ev sh)) = favouritesOf (core sh).
Proof.
  destruct ev; cbn; try discriminate; intros _.
  - unfold typed, q_input, onSearch. cbn. now destruct (FUSE (core sh)).
  - unfold searchTimer_fires. destruct (searchTimer sh); [| done].
    cbn. apply renderSearch_favouritesOf.
  - apply btnRefresh_click_favouritesOf.
  - apply btnClear_click_favouritesOf.
  - apply btnExport_click_frame.
  - rewrite window_online_eq. destruct (DATA (core sh)); [done |].
    pose proof (fetchAndCache_favouritesOf o now shown (core sh)) as Hf.
    now destruct (fetchAndCache o now shown (core sh)) as [[e|u] s1].
  - done.
Qed.

Lemma step_datasetOf (ev : Event) (sh : Shell) :
  writesDataset ev = false ->
  datasetOf (core (step ev sh)) = datasetOf (core sh).
Proof.
  destruct ev; cbn; try discriminate; intros _.
  - unfold typed, q_input, onSearch. cbn. now destruct (FUSE (core sh)).
  - unfold searchTimer_fires. destruct (searchTimer sh); [| done].
    cbn. apply renderSearch_datasetOf.
  - unfold datasetOf. destruct btn as [[c|]|]; [| done | done].
    destruct (decide (c = "")) as [-> | Hc]; [done |].
    rewrite (onStarClick_steps c now (core sh) Hc).
    destruct (renderSearch_frame (saveFavs (toggled c now (core sh))))
      as (-> & -> & _ & _ & _ & _ & -> & _).
    unfold toggled. now destruct (Set_has c (FAVS (core sh))).
  - apply btnExport_click_frame.
  - done.
Qed.

(** X23.  Favourites and dataset are kept apart through any series of
    events: only star clicks change the favourite set, the timestamps or
    [localStorage], and only a refresh, a clear or a return online changes
    the resident catalogue, the index or the object store. *)
Theorem favourites_and_dataset_apart (evs : list Event) (sh : Shell) :
  (forallb (fun ev => negb (isStarClick ev)) evs = true ->
     favouritesOf (core (run evs sh)) = favouritesOf (core sh))
  /\ (forallb (fun ev => negb (writesDataset ev)) evs = true ->
        datasetOf (core (run evs sh)) = datasetOf (core sh)).
Proof.
  split; unfold run; revert sh; induction evs as [|ev evs IH]; intros sh; simpl;
    try done; intros Hall; apply andb_prop in Hall as [Hev Hall];
    apply Bool.negb_true_iff in Hev; rewrite (IH _ Hall).
  - now apply step_favouritesOf.
  - now apply step_datasetOf.
Qed.

Lemma onStarClick_NoDup (btn : option (option string)) (now : Z) (st : State) :
  NoDup (FAVS st) -> NoDup (FAVS (onStarClick btn now st)).
Proof.
  intros Hnd. destruct btn as [[c|]|]; [| done | done].
  destruct (decide (c = "")) as [-> | Hc]; [done |].
  destruct (onStarClick_toggle c now st Hc) as (-> & _).
  destruct (Set_has c (FAVS st)); [now apply NoDup_Set_delete | now apply NoDup_Set_add].
Qed.

Lemma onStarClick_favsSaved (btn : option (option string)) (now : Z) (st : State) :
  favsSaved st -> favsSaved (onStarClick btn now st).
Proof.
  intros Hs. destruct btn as [[c|]|]; [| done | done].
  destruct (decide (c = "")) as [-> | Hc]; [done |].
  destruct (onStarClick_toggle c now st Hc) as (_ & _ & HS).
  unfold favsSaved. rewrite HS. rewrite lookup_insert_ne by done.
  now rewrite !lookup_insert_eq.
Qed.

Lemma favouritesOf_invariants (st st' : State) :
  favouritesOf st' = favouritesOf st ->
  (NoDup (FAVS st) -> NoDup (FAVS st'))
  /\ (lruWithinFavs st -> lruWithinFavs st')
  /\ (favsSaved st -> favsSaved st').
Proof.
  unfold favouritesOf, lruWithinFavs, favsSaved. intros [= -> -> ->]. tauto.
Qed.

Lemma step_indexed (ev : Event) (sh : Shell) :
  indexed (core sh) -> indexed (core (step ev sh)).
Proof.
  intros Hi.
  destruct (indexed_kept (core sh) Hi) as (Hf & _ & Hc & He & Hr & _ & Hs & _).
  destruct ev; cbn; auto.
  - unfold typed, q_input, onSearch. cbn. now destruct (FUSE (core sh)).
  - unfold searchTimer_fires. destruct (searchTimer sh); [| done]. cbn.
    unfold indexed in *. now destruct (renderSearch_frame (core sh)) as (-> & -> & _).
  - rewrite window_online_eq. destruct (DATA (core sh)) eqn:HD; [done |].
    specialize (Hf o now shown).
    now destruct (fetchAndCache o now shown (core sh)) as [[e|u] s1].
Qed.

(** X24.  What holds of the favourites at the start holds after any series
    of events: the favourite set has no code twice, every code with a
    timestamp is a favourite, and, once the favourites are saved as they are
    in memory, they stay so, so that a reload reads back the favourite set
    and the timestamps the page had.  And while no event brings a payload
    that is JSON of a foreign shape, the index stays the index of the
    resident catalogue. *)
Theorem page_invariants (evs : list Event) (sh : Shell) :
  NoDup (FAVS (core sh)) -> lruWithinFavs (core sh) ->
  let st' := core (run evs sh) in
  NoDup (FAVS st') /\ lruWithinFavs st'
  /\ (favsSaved (core sh) ->
        favsSaved st'
        /\ initFAVS (localStorage st') = Some (FAVS st')
        /\ initFAV_LRU (localStorage st') = Some (FAV_LRU st'))
  /\ (indexed (core sh) -> forallb (fun ev => negb (foreignEvent ev)) evs = true ->
        indexed st').
Proof.
  intros Hn Hl st'. subst st'.
  assert (Hstep : forall ev s,
            (NoDup (FAVS (core s)) -> NoDup (FAVS (core (step ev s))))
            /\ (lruWithinFavs (core s) -> lruWithinFavs (core (step ev s)))
            /\ (favsSaved (core s) -> favsSaved (core (step ev s)))).
  { intros ev s. destruct (isStarClick ev) eqn:E.
    - destruct ev; try discriminate. cbn.
      split; [apply onStarClick_NoDup |].
      split; [apply onStarClick_lruWithinFavs | apply onStarClick_favsSaved].
    - apply favouritesOf_invariants. now apply step_favouritesOf. }
  assert (Hrun : NoDup (FAVS (core (run evs sh)))
                 /\ lruWithinFavs (core (run evs sh))
                 /\ (favsSaved (core sh) -> favsSaved (core (run evs sh)))).
  { unfold run. revert sh Hn Hl.
    induction evs as [|ev evs IH]; intros sh Hn Hl; simpl; [tauto |].
    destruct (Hstep ev sh) as (H1 & H2 & H3).
    destruct (IH (step ev sh)) as (I2 & I3 & I4); [auto | auto |].
    tauto. }
  destruct Hrun as (R2 & R3 & R4).
  split; [exact R2 |]. split; [exact R3 |]. split.
  - intros Hs. specialize (R4 Hs). split; [exact R4 |].
    destruct R4 as [Hc Hm]. unfold initFAVS, initFAV_LRU. rewrite Hc, Hm.
    split; [| done]. f_equal. now apply Set_from_NoDup.
  - intros Hi _. unfold run. clear Hn Hl R2 R3 R4. revert sh Hi.
    induction evs as [|ev evs IH]; intros sh Hi; simpl; [done |].
    apply IH. now apply step_indexed.
Qed.

End ShellFacts.

(** ** The service worker *)

Module SWFacts.
Import SW.

Lemma hasName_true (name : string) (c : string * gmap string Resp) :
  hasName name c = true <-> fst c = name.
Proof. unfold hasName. apply String.eqb_eq. Qed.

Lemma match_put_miss (name u : string) (r : Resp) (cs : list (string * gmap string Resp)) :
  caches_match cs u = None -> caches_match (cache_put name u r cs) u = Some r.
Proof.
  induction cs as [|c cs IH]; simpl.
  - intros _. now rewrite lookup_singleton_eq.
  - destruct (snd c !! u) eqn:E; [discriminate |]. intros Hm.
    destruct (hasName name c) eqn:Hn; simpl.
    + now rewrite lookup_insert_eq.
    + rewrite E. now apply IH.
Qed.

Lemma match_put_other (name u u' : string) (r : Resp)
      (cs : list (string * gmap string Resp)) :
  u' <> u -> caches_match (cache_put name u r cs) u' = caches_match cs u'.
Proof.
  intros Hne. induction cs as [|c cs IH]; simpl.
  - now rewrite lookup_singleton_ne.
  - destruct (hasName name c); simpl.
    + now rewrite lookup_insert_ne.
    + now rewrite IH.
Qed.

Lemma match_open (name u : string) (cs : list (string * gmap string Resp)) :
  caches_match (caches_open name cs) u = caches_match cs u.
Proof.
  induction cs as [|c cs IH]; simpl; [done |].
  destruct (hasName name c); simpl; [done |]. now rewrite IH.
Qed.

Lemma holds_match (name u : string) (cs : list (string * gmap string Resp)) :
  holds name u cs -> is_Some (caches_match cs u).
Proof.
  intros (c & Hin & _ & Hs). induction cs as [|c' cs IH]; [done |]. simpl.
  destruct (snd c' !! u) eqn:E; [eauto |].
  destruct Hin as [-> | Hin]; [| auto]. rewrite E in Hs. now destruct Hs.
Qed.

Lemma put_holds (name u : string) (r : Resp) (cs : list (string * gmap string Resp)) :
  holds name u (cache_put name u r cs).
Proof.
  induction cs as [|c cs IH]; simpl.
  - exists (name, {[u := r]}). split; [now left |]. split; [done |].
    simpl. rewrite lookup_singleton_eq. eauto.
  - destruct (hasName name c) eqn:Hn.
    + exists (fst c, <[u := r]> (snd c)). split; [now left |].
      split; [now apply hasName_true |]. simpl. rewrite lookup_insert_eq. eauto.
    + destruct IH as (c' & Hin & Hc). exists c'. split; [now right | done].
Qed.

Lemma holds_put (name name' u u' : string) (r : Resp)
      (cs : list (string * gmap string Resp)) :
  holds name u cs -> holds name u (cache_put name' u' r cs).
Proof.
  intros (c & Hin & Hname & Hs). induction cs as [|c' cs IH]; [done |]. simpl.
  destruct (hasName name' c') eqn:Hn.
  - destruct Hin as [-> | Hin].
    + exists (fst c, <[u' := r]> (snd c)). split; [now left |]. split; [done |].
      simpl. destruct (decide (u' = u)) as [-> | Hne].
      * rewrite lookup_insert_eq. eauto.
      * now rewrite lookup_insert_ne.
    + exists c. split; [now right | done].
  - destruct Hin as [-> | Hin].
    + exists c. split; [now left | done].
    + destruct (IH Hin) as (c2 & Hin2 & Hc2). exists c2. split; [now right | done].
Qed.

Lemma holds_activate (u : string) (cs : list (string * gmap string Resp)) :
  holds STATIC_CACHE u cs -> holds STATIC_CACHE u (activate cs).
Proof.
  intros (c & Hin & Hname & Hs). exists c. split; [| done].
  unfold activate. apply filter_In. split; [done |].
  apply Bool.orb_true_iff. left. now apply hasName_true.
Qed.

Lemma heldFirst_match (u : string) (r : Resp) (cs : list (string * gmap string Resp)) :
  heldFirst u r cs -> caches_match cs u = Some r.
Proof. intros (m & cs' & -> & Hm). simpl. now rewrite Hm. Qed.

Lemma heldFirst_put (name u u' : string) (r r' : Resp)
      (cs : list (string * gmap string Resp)) :
  heldFirst u r cs -> name <> STATIC_CACHE \/ u' <> u ->
  heldFirst u r (cache_put name u' r' cs).
Proof.
  intros (m & cs' & -> & Hm) Hne. simpl.
  destruct (hasName name (STATIC_CACHE, m)) eqn:Hn.
  - apply hasName_true in Hn. simpl in Hn.
    destruct Hne as [Hne | Hne]; [now symmetry in Hn |].
    eexists _, _. split; [reflexivity |]. simpl. now rewrite lookup_insert_ne.
  - now eexists _, _.
Qed.

Lemma heldFirst_open (name u : string) (r : Resp)
      (cs : list (string * gmap string Resp)) :
  heldFirst u r cs -> heldFirst u r (caches_open name cs).
Proof.
  intros (m & cs' & -> & Hm). simpl.
  destruct (hasName name (STATIC_CACHE, m)); now eexists _, _.
Qed.

Lemma heldFirst_open_put (name u u' : string) (r r' : Resp)
      (cs : list (string * gmap string Resp)) :
  heldFirst u r cs -> name <> STATIC_CACHE \/ u' <> u ->
  heldFirst u r (open_put name u' r' cs).
Proof.
  intros Hh Hne. unfold open_put.
  destruct (storable r'); [now apply heldFirst_put | now apply heldFirst_open].
Qed.

Lemma heldFirst_activate (u : string) (r : Resp)
      (cs : list (string * gmap string Resp)) :
  heldFirst u r cs -> heldFirst u r (activate cs).
Proof. intros (m & cs' & -> & Hm). unfold activate. simpl. now eexists _, _. Qed.

Section WorkerFacts.
Variable resolve : string -> string.

Lemma onFetch_handled (req : Req) (net : Net) (cs : list (string * gmap string Resp)) :
  route req <> Unhandled ->
  onFetch resolve req net cs
  = Some (match caches_match cs (url req) with
          | Some cached => (cached, cs)
          | None =>
              match net with
              | NetResp r =>
                  (r, if ok (status r)
                      then open_put (match route req with
                                     | Data => DATA_CACHE
                                     | _ => STATIC_CACHE
                                     end) (url req) r cs
                      else cs)
              | NetError =>
                  (match route req with
                   | Document =>
                       match firstCached resolve cs
                               ["./index.html"; "/index.html"; "index.html"] with
                       | Some r => r
                       | None => offlineDocument
                       end
                   | Data => offlineData
                   | Script => offlineScript
                   | _ => offlineAsset
                   end, cs)
              end
          end).
Proof.
  intros Hr. unfold onFetch, handleDocumentRequest, handleDataRequest,
    handleScriptRequest, handleStaticRequest.
  destruct (route req); try done;
    destruct (caches_match cs (url req)) eqn:E; try done;
    destruct net; try done.
  now destruct (firstCached resolve cs _).
Qed.

Lemma onFetch_hit
      (req : Req) (cached : Resp) (net : Net) (cs : list (string * gmap string Resp)) :
  route req <> Unhandled -> caches_match cs (url req) = Some cached ->
  onFetch resolve req net cs = Some (cached, cs).
Proof. intros Hr Hm. now rewrite (onFetch_handled req net cs Hr), Hm. Qed.

(** X25.  The worker answers from its caches first.  A request it handles
    whose URL is in a cache gets the cached response whatever the network
    would answer, and the caches are left as they were. *)
Theorem worker_cache_first
        (req : Req) (cached : Resp) (cs : list (string * gmap string Resp)) :
  route req <> Unhandled -> caches_match cs (url req) = Some cached ->
  forall net, onFetch resolve req net cs = Some (cached, cs).
Proof. intros Hr Hm net. now apply onFetch_hit. Qed.

(** X26.  A miss answered with success by the network fills the cache: the
    response, when it is not a partial one, is returned and kept, every
    later handling of that request returns it without the network, and no
    other URL's answer changes. *)
Theorem worker_fills_on_miss
        (req : Req) (r : Resp) (cs : list (string * gmap string Resp)) :
  route req <> Unhandled -> caches_match cs (url req) = None ->
  ok (status r) = true -> storable r = true ->
  exists cs',
    onFetch resolve req (NetResp r) cs = Some (r, cs')
    /\ (forall net, onFetch resolve req net cs' = Some (r, cs'))
    /\ (forall u, u <> url req -> caches_match cs' u = caches_match cs u).
Proof.
  intros Hr Hm Hok Hst.
  rewrite (onFetch_handled req (NetResp r) cs Hr), Hm, Hok.
  unfold open_put. rewrite Hst.
  eexists. split; [reflexivity |]. split.
  - intros net. apply onFetch_hit; [done |]. now apply match_put_miss.
  - intros u Hu. now apply match_put_other.
Qed.


Lemma holds_cache_add (fetched : string -> Net) (file name u : string)
      (cs : list (string * gmap string Resp)) :
  holds name u cs -> holds name u (cache_add resolve fetched file cs).
Proof.
  intros Hh. unfold cache_add. destruct (fetched file) as [|r]; [done |].
  destruct (ok (status r) && storable r); [now apply holds_put | done].
Qed.

Lemma holds_fold_add (fetched : string -> Net) (files : list string) (name u : string)
      (cs : list (string * gmap string Resp)) :
  holds name u cs ->
  holds name u (fold_left (fun acc file => cache_add resolve fetched file acc) files cs).
Proof.
  revert cs; induction files as [|f files IH]; intros cs Hh; simpl; [done |].
  apply IH. now apply holds_cache_add.
Qed.

Lemma install_holds (fetched : string -> Net) (files : list string) (file : string)
      (r : Resp) (cs : list (string * gmap string Resp)) :
  In file files -> fetched file = NetResp r -> ok (status r) = true ->
  storable r = true ->
  holds STATIC_CACHE (resolve file)
        (fold_left (fun acc f => cache_add resolve fetched f acc) files cs).
Proof.
  revert cs; induction files as [|f files IH]; intros cs Hin Hf Hok Hst; [done |].
  simpl. destruct Hin as [-> | Hin]; [| now apply IH].
  apply holds_fold_add. unfold cache_add. rewrite Hf, Hok, Hst. apply put_holds.
Qed.

(** X28.  What the install fetched is served offline.  A static file that
    was fetched with success at install is in the static cache and stays
    there through the activation, which leaves no cache but the static and
    the data cache; from then on a handled request for it gets one and the
    same cached answer whatever the network does. *)
Theorem install_serves_offline
        (fetched : string -> Net) (file : string) (r : Resp)
        (cs : list (string * gmap string Resp)) :
  In file STATIC_FILES -> fetched file = NetResp r -> ok (status r) = true ->
  storable r = true ->
  let cs' := activate (install resolve fetched cs) in
  Forall (fun c => fst c = STATIC_CACHE \/ fst c = DATA_CACHE) cs'
  /\ holds STATIC_CACHE (resolve file) cs'
  /\ exists answer, forall req net,
       url req = resolve file -> route req <> Unhandled ->
       onFetch resolve req net cs' = Some (answer, cs').
Proof.
  intros Hin Hf Hok Hst cs'. subst cs'.
  assert (Hh : holds STATIC_CACHE (resolve file) (activate (install resolve fetched cs))).
  { apply holds_activate. unfold install. now apply (install_holds fetched _ file r). }
  split; [| split; [exact Hh |]].
  - apply Forall_forall. intros c Hc. apply list_elem_of_In in Hc.
    unfold activate in Hc. apply filter_In in Hc as [_ Hc].
    apply Bool.orb_true_iff in Hc as [Hc | Hc]; apply hasName_true in Hc; auto.
  - apply holds_match in Hh as [a Ha].
    exists a. intros req net Hu Hr. apply onFetch_hit; [done |]. now rewrite Hu.
Qed.

Lemma heldFirst_cache_add (fetched : string -> Net) (file u : string) (r : Resp)
      (cs : list (string * gmap string Resp)) :
  heldFirst u r cs -> resolve file <> u ->
  heldFirst u r (cache_add resolve fetched file cs).
Proof.
  intros Hh Hne. unfold cache_add. destruct (fetched file) as [|r']; [done |].
  destruct (ok (status r') && storable r'); [| done].
  apply heldFirst_put; auto.
Qed.

Lemma cache_add_head (fetched : string -> Net) (file : string) (m : gmap string Resp)
      (cs : list (string * gmap string Resp)) :
  exists m', cache_add resolve fetched file ((STATIC_CACHE, m) :: cs)
             = (STATIC_CACHE, m') :: cs.
Proof.
  unfold cache_add. destruct (fetched file) as [|r']; [eauto |].
  destruct (ok (status r') && storable r'); [| eauto]. simpl. eauto.
Qed.

Lemma install_heldFirst (fetched : string -> Net) (r0 : Resp) :
  fetched "./data/icd9.json" = NetResp r0 ->
  ok (status r0) = true -> storable r0 = true ->
  (forall f, In f STATIC_FILES -> f <> "./data/icd9.json" ->
             resolve f <> resolve "./data/icd9.json") ->
  heldFirst (resolve "./data/icd9.json") r0 (install resolve fetched []).
Proof.
  intros Hf Hok Hst Hsep. unfold install, STATIC_FILES. cbn [fold_left caches_open].
  destruct (cache_add_head fetched "./" ∅ []) as [m1 ->].
  destruct (cache_add_head fetched "./index.html" m1 []) as [m2 ->].
  apply heldFirst_cache_add;
    [| apply Hsep; [unfold STATIC_FILES; simpl; tauto | discriminate]].
  apply heldFirst_cache_add;
    [| apply Hsep; [unfold STATIC_FILES; simpl; tauto | discriminate]].
  unfold cache_add. rewrite Hf, Hok, Hst. simpl.
  eexists _, _. split; [reflexivity |]. apply lookup_insert_eq.
Qed.

Lemma heldFirst_step (u : string) (r : Resp) (ev : WorkerEvent)
      (cs : list (string * gmap string Resp)) :
  heldFirst u r cs -> heldFirst u r (workerStep resolve ev cs).
Proof.
  intros Hh. destruct ev as [|net|req net]; simpl.
  - now apply heldFirst_activate.
  - unfold doBackgroundSync. destruct net as [|r']; [done |].
    destruct (ok (status r')); [| done].
    apply heldFirst_open_put; [done |]. left. discriminate.
  - destruct (route req) eqn:Hr;
      try (rewrite (onFetch_handled req net cs) by (rewrite Hr; discriminate);
           destruct (caches_match cs (url req)) eqn:Hm; [done |];
           destruct net as [|r']; [done |]; simpl;
           destruct (ok (status r')); [| done];
           apply heldFirst_open_put; [done |]; right; intros Hu;
           rewrite Hu, (heldFirst_match u r cs Hh) in Hm; discriminate).
    unfold onFetch. now rewrite Hr.
Qed.

Lemma heldFirst_run (u : string) (r : Resp) (evs : list WorkerEvent)
      (cs : list (string * gmap string Resp)) :
  heldFirst u r cs -> heldFirst u r (workerRun resolve evs cs).
Proof.
  revert cs; induction evs as [|ev evs IH]; intros cs Hh; [done |].
  apply IH. now apply heldFirst_step.
Qed.

Lemma pageFetch_hit
      (req : Req) (cached : Resp) (net : Net) (cs : list (string * gmap string Resp)) :
  route req <> Unhandled -> caches_match cs (url req) = Some cached ->
  pageFetch resolve req net cs = (toPage cached, cs).
Proof. intros Hr Hm. unfold pageFetch. now rewrite (onFetch_hit req cached net cs). Qed.

Section PageBehindWorker.
Context `{Host}.

(** X29.  A fresh install pins the dataset.  When the install of a worker
    with no caches yet fetched the data file with success, then after any
    activations, background syncs and handled requests, whatever their
    network answers, the page's request for the data file gets that
    install-time response and the caches stay as they are: a later sync
    writes to the data cache, which is looked up after the static one.  So
    the page's Refresh then ends as on the install-time response. *)
Theorem fresh_install_pins_dataset (fetched : string -> Net) (r0 : Resp) :
  fetched "./data/icd9.json" = NetResp r0 ->
  ok (status r0) = true -> storable r0 = true ->
  (forall f, In f STATIC_FILES -> f <> "./data/icd9.json" ->
             resolve f <> resolve "./data/icd9.json") ->
  forall evs req net,
    url req = resolve "./data/icd9.json" -> route req <> Unhandled ->
    let cs := workerRun resolve evs (install resolve fetched []) in
    pageFetch resolve req net cs = (toPage r0, cs)
    /\ forall now shown st,
         btnRefresh_click (fst (pageFetch resolve req net cs)) now shown st
         = btnRefresh_click (toPage r0) now shown st.
Proof.
  intros Hf Hok Hst Hsep evs req net Hu Hr cs.
  assert (Hp : pageFetch resolve req net cs = (toPage r0, cs)).
  { apply pageFetch_hit; [done |]. rewrite Hu. apply heldFirst_match.
    apply heldFirst_run. now apply install_heldFirst. }
  split; [exact Hp |]. intros now shown st. now rewrite Hp.
Qed.

(** X30.  A refresh with no network and nothing cached.  The worker answers
    the data request with its 503, whose body is never read as a dataset:
    the page's refresh fails on the status, the dataset and the rendered
    results are as before, and the worker's caches are untouched. *)
Theorem offline_refresh_fails_clean
        (req : Req) (cs : list (string * gmap string Resp)) (now shown : Z) (st : State) :
  route req = Data -> caches_match cs (url req) = None ->
  pageFetch resolve req NetError cs = (toPage offlineData, cs)
  /\ fetchAndCache (fst (pageFetch resolve req NetError cs)) now shown st
     = (inl (FetchFailed 503), fetching st)
  /\ datasetOf (fetching st) = datasetOf st
  /\ els_results (els (fetching st)) = els_results (els st).
Proof.
  intros Hr Hm.
  assert (Hp : pageFetch resolve req NetError cs = (toPage offlineData, cs)).
  { unfold pageFetch. rewrite (onFetch_handled req NetError cs) by (rewrite Hr; discriminate).
    now rewrite Hm, Hr. }
  split; [exact Hp |]. rewrite Hp. split; [| split; reflexivity].
  simpl fst. unfold toPage, offlineData. cbn [status body]. run_M. reflexivity.
Qed.

End PageBehindWorker.
End WorkerFacts.
End SWFacts.

(** * The computing host, and the scenarios on it *)

(** The order of the code units is consistent: the two laws asked of
    [localeCompare]. *)
Lemma ascii_compare_trans (a b c : ascii) :
  Ascii.compare a b <> Gt -> Ascii.compare b c <> Gt -> Ascii.compare a c <> Gt.
Proof.
  unfold Ascii.compare. rewrite !N.compare_le_iff. intros; etransitivity; eauto.
Qed.

Lemma compare_le_trans (a b c : string) :
  String.compare a b <> Gt -> String.compare b c <> Gt -> String.compare a c <> Gt.
Proof.
  revert b c; induction a as [|x a IH]; intros [|y b] [|z c]; simpl; try congruence.
  destruct (Ascii.compare x y) eqn:Hxy; try congruence;
  destruct (Ascii.compare y z) eqn:Hyz; try congruence; intros Hab Hbc.
  - apply Ascii.compare_eq_iff in Hxy, Hyz; subst.
    unfold Ascii.compare. rewrite N.compare_refl. eauto.
  - apply Ascii.compare_eq_iff in Hxy; subst. now rewrite Hyz.
  - apply Ascii.compare_eq_iff in Hyz; subst. now rewrite Hxy.
  - assert (Hxz : Ascii.compare x z = Lt).
    { unfold Ascii.compare in *. rewrite N.compare_lt_iff in *. lia. }
    now rewrite Hxz.
Qed.

Lemma collate_swap (a b : string) :
  Z.sgn (TinyHost.collate b a) = - Z.sgn (TinyHost.collate a b).
Proof.
  unfold TinyHost.collate. rewrite (String.compare_antisym b a).
  now destruct (String.compare a b).
Qed.

Lemma collate_trans (a b c : string) :
  TinyHost.collate a b <= 0 -> TinyHost.collate b c <= 0 -> TinyHost.collate a c <= 0.
Proof.
  unfold TinyHost.collate. intros Hab Hbc.
  assert (String.compare a c <> Gt) as Hac.
  { apply (compare_le_trans a b c).
    - destruct (String.compare a b); [discriminate | discriminate | lia].
    - destruct (String.compare b c); [discriminate | discriminate | lia]. }
  destruct (String.compare a c); [lia | lia | congruence].
Qed.

#[local] Instance tinyHost : Host := {|
  fuse_search := TinyHost.search;
  localeCompare := TinyHost.collate;
  localeCompare_swap := collate_swap;
  localeCompare_trans := collate_trans;
  digest_SHA256 := TinyHost.checksum;
  Date_toLocaleString := fun t => pretty t;
  TextDecoder_decode := string_of_list_byte;
  TextEncoder_encode := list_byte_of_string;
  JSON_parse := TinyHost.parse;
  JSON_foreign := TinyHost.foreign;
  JSON_stringify := TinyHost.stringify
|}.

(** The case-blind collation is consistent too. *)
Lemma compare_eq_between (a b c : string) :
  String.compare a b <> Gt -> String.compare b c <> Gt -> String.compare a c = Eq ->
  String.compare a b = Eq /\ String.compare b c = Eq.
Proof.
  intros Hab Hbc Hac. apply String.compare_eq_iff in Hac. subst c.
  rewrite (String.compare_antisym b a) in Hbc |- *.
  destruct (String.compare a b); simpl in *; try congruence. split; reflexivity.
Qed.

Lemma case_collate_swap (a b : string) :
  Z.sgn (CaseHost.collate b a) = - Z.sgn (CaseHost.collate a b).
Proof.
  unfold CaseHost.collate.
  rewrite (String.compare_antisym (CaseHost.fold a) (CaseHost.fold b)).
  destruct (String.compare (CaseHost.fold b) (CaseHost.fold a)); simpl; try done.
  rewrite (String.compare_antisym a b). now destruct (String.compare b a).
Qed.

Lemma case_collate_le (a b : string) :
  CaseHost.collate a b <= 0 <->
  String.compare (CaseHost.fold a) (CaseHost.fold b) = Lt
  \/ (String.compare (CaseHost.fold a) (CaseHost.fold b) = Eq
      /\ String.compare b a <> Gt).
Proof.
  unfold CaseHost.collate.
  destruct (String.compare (CaseHost.fold a) (CaseHost.fold b));
    [destruct (String.compare b a) | |]; split; intros Hx;
    try lia; try (destruct Hx as [Hx | [Hx Hy]]; congruence);
    try (left; reflexivity); right; split; congruence.
Qed.

Lemma case_collate_trans (a b c : string) :
  CaseHost.collate a b <= 0 -> CaseHost.collate b c <= 0 -> CaseHost.collate a c <= 0.
Proof.
  rewrite !case_collate_le. intros Hab Hbc.
  assert (Hfab : String.compare (CaseHost.fold a) (CaseHost.fold b) <> Gt)
    by (destruct Hab as [-> | [-> _]]; discriminate).
  assert (Hfbc : String.compare (CaseHost.fold b) (CaseHost.fold c) <> Gt)
    by (destruct Hbc as [-> | [-> _]]; discriminate).
  pose proof (compare_le_trans _ _ _ Hfab Hfbc) as Hfac.
  destruct (String.compare (CaseHost.fold a) (CaseHost.fold c)) eqn:E;
    [| now left | done].
  right. split; [done |].
  destruct (compare_eq_between _ _ _ Hfab Hfbc E) as [E1 E2].
  destruct Hab as [Hab | [_ Hab]]; [congruence |].
  destruct Hbc as [Hbc | [_ Hbc]]; [congruence |].
  now apply (compare_le_trans c b a).
Qed.

(** The computing host with the case-blind collation in place of the
    code-unit one. *)
Definition caseHost : Host := {|
  fuse_search := TinyHost.search;
  localeCompare := CaseHost.collate;
  localeCompare_swap := case_collate_swap;
  localeCompare_trans := case_collate_trans;
  digest_SHA256 := TinyHost.checksum;
  Date_toLocaleString := fun t => pretty t;
  TextDecoder_decode := string_of_list_byte;
  TextEncoder_encode := list_byte_of_string;
  JSON_parse := TinyHost.parse;
  JSON_foreign := TinyHost.foreign;
  JSON_stringify := TinyHost.stringify
|}.

(** On the computing host the tie order is the lexicographic order of the
    code units. *)
Lemma collate_lexicographic (a b : string) :
  localeCompare a b <= 0 <-> String.leb a b = true.
Proof.
  simpl. unfold TinyHost.collate, String.leb.
  destruct (String.compare a b); split; intros; (done || lia).
Qed.

(** Three favourites touched at the same time come out by code. *)
Example tie_break_scenario :
  map code (getFavRecords (Some [entry "c" "3"; entry "b" "2"; entry "a" "1"]) stTies)
  = ["a"; "b"; "c"].
Proof. reflexivity. Qed.

(** The pinning scenario: the query abc pins X alone and lists Z alone. *)
Example pinning_scenario :
  els_favs (els (renderSearch stXYZ)) = [recX]
  /\ els_results (els (renderSearch stXYZ)) = [recZ]
  /\ getFavRecords (Some catalogXYZ) stXYZ = [recY; recX].
Proof. vm_compute. repeat split. Qed.

(** Both favourites match: the pool has them in match order, the pinned
    section in recency order. *)
Example pinned_order_scenario :
  fst (partitionHits (Set_from (FAVS stXZ))
         (searchHits catalogXZ catalogXZ (trim (els_q (els stXZ)))))
  = [recX; recZ]
  /\ els_favs (els (renderSearch stXZ)) = [recZ; recX]
  /\ els_results (els (renderSearch stXZ)) = [].
Proof. vm_compute. repeat split. Qed.

(** The blank-query scenario on 250 records. *)
Example blank_query_scenario :
  length (els_results (els (renderSearch st250))) = 100%nat
  /\ map code (firstn 5 (els_results (els (renderSearch st250))))
     = ["0"; "1"; "2"; "4"; "5"]
  /\ map code (els_favs (els (renderSearch st250))) = ["150"; "240"; "3"].
Proof. vm_compute. repeat split. Qed.

(** C1 at the pinning scenario. *)
Lemma pinned_favourites_witness :
  DATA stXYZ = Some catalogXYZ /\ FUSE stXYZ = Some catalogXYZ
  /\ sublist (els_favs (els (renderSearch stXYZ)))
             (getFavRecords (Some catalogXYZ) stXYZ).
Proof.
  split; [reflexivity |]. split; [reflexivity |].
  exact (proj1 (proj2 (proj2
           (pinned_favourites stXYZ catalogXYZ catalogXYZ eq_refl eq_refl)))).
Defined.

(** C2 at the pool of the three records X, Y, Z. *)
Lemma partition_complete_disjoint_witness :
  Permutation
    (fst (partitionHits (Set_from (FAVS stXYZ)) catalogXYZ)
     ++ snd (partitionHits (Set_from (FAVS stXYZ)) catalogXYZ))
    catalogXYZ.
Proof.
  exact (proj1 (proj2 (proj2 (proj2 (proj2
           (partition_complete_disjoint stXYZ catalogXYZ)))))).
Defined.


(** C5 at the catalogue of 250 records with a blank query. *)
Lemma empty_query_pool_witness :
  trim (els_q (els st250)) = "" /\ length catalog250 = 250%nat
  /\ length (searchHits catalog250 catalog250 (trim (els_q (els st250)))) = 200%nat.
Proof.
  split; [reflexivity |]. split; [reflexivity |].
  destruct (empty_query_pool st250 catalog250 catalog250 eq_refl eq_refl)
    as (_ & _ & _ & Hq).
  destruct (Hq eq_refl) as (_ & _ & H250 & _).
  exact (H250 eq_refl).
Defined.



(** C9 at a response of status 503, with a snapshot in the cache. *)
Lemma refresh_fetch_error_witness :
  requestSucceeds (Response 503 (Some [])) = false
  /\ snd (fetchAndCache (Response 503 (Some [])) 1 1 stCached) = fetching stCached.
Proof.
  split; [reflexivity |].
  destruct (refresh_fetch_error (Response 503 (Some [])) 1 1 stCached) as (_ & _ & Hf).
  exact (proj1 (Hf eq_refl)).
Defined.

(** C6 at the empty array written with a blank inside. *)
Lemma refresh_then_load_witness :
  ok 200 = true
  /\ JSON_parse (TextDecoder_decode spacedEmptyArray) = Some []
  /\ idbAvailable stCached = true
  /\ fst (loadFromCache
            (snd (fetchAndCache (Response 200 (Some spacedEmptyArray)) 7 8 stCached)))
     = inr true.
Proof.
  assert (Hjson : JSON_parse (TextDecoder_decode spacedEmptyArray) = Some [])
    by reflexivity.
  split; [reflexivity |]. split; [exact Hjson |]. split; [reflexivity |].
  destruct (refresh_then_load stCached 200 spacedEmptyArray [] 7 8
              eq_refl Hjson eq_refl) as (_ & _ & _ & _ & _ & _ & Hl & _).
  exact Hl.
Defined.

(** C7 at a cache that holds a snapshot. *)
Lemma clear_keeps_favourites_witness :
  idbAvailable stCached = true
  /\ idbStore (snd (btnClear_click stCached)) !! KEY = None.
Proof.
  split; [reflexivity |].
  destruct (clear_keeps_favourites stCached) as (_ & _ & _ & _ & _ & _ & Hc & _).
  exact (proj1 (proj2 (proj2 (Hc eq_refl)))).
Defined.

(** C8 at a cache that holds a snapshot of one record. *)
Lemma export_serialises_stored_witness :
  idbAvailable stCached = true /\ idbStore stCached !! KEY = Some snapX
  /\ btnExport_click stCached
     = (inr tt,
        offer (mkDownload "icd9.json" "application/json"
                 (TextEncoder_encode (JSON_stringify (data snapX)))) stCached).
Proof.
  split; [reflexivity |]. split; [reflexivity |].
  exact (proj1 (export_serialises_stored stCached eq_refl) snapX eq_refl).
Defined.




(** C6, as stated, fails.  The request succeeds and delivers a payload that
    is not JSON.  [JSON.parse] throws, after the version has been computed
    and before anything is stored: no snapshot is persisted, the one that
    was in the cache is not replaced, and a load straight after returns that
    older snapshot, whose version is not the hash of the payload.  Likewise,
    a payload that decodes is not persisted when the database cannot be
    opened: [idbSet] rejects, and the catalogue does not become resident. *)
Lemma refresh_undecodable_counterexample :
  let r := fetchAndCache (Response 200 (Some notJSON)) 7 8 stCached in
  let l := loadFromCache (snd r) in
  let r' := fetchAndCache (Response 200 (Some spacedEmptyArray)) 7 8 stNoIdb in
  fst r = inl JSONSyntaxError
  /\ idbStore (snd r) = idbStore stCached
  /\ idbStore (snd r) !! KEY = Some snapX
  /\ version snapX <> sha256Hex notJSON
  /\ fst l = inr true
  /\ els_cacheVersion (els (snd l)) = Some (version snapX)
  /\ fst r' = inl IdbError
  /\ idbStore (snd r') = ∅ /\ DATA (snd r') = None.
Proof.
  cbv zeta. split; [reflexivity |]. split; [reflexivity |].
  split; [vm_compute; reflexivity |]. split; [vm_compute; discriminate |].
  split; [vm_compute; reflexivity |]. split; [vm_compute; reflexivity |].
  split; [reflexivity |]. split; reflexivity.
Qed.

(** C8, as stated, fails.  The payload is the three bytes of the empty array
    written with a blank inside.  The refresh stores the decoded list, empty,
    under the version of those three bytes; the export then offers the two
    bytes that [JSON.stringify] makes of an empty list, which are not the
    bytes fetched, nor bytes of the stored version.  On these inputs the
    computing host does what every browser does: [JSON.parse] reads the text
    as the empty array, [JSON.stringify] writes the empty array without the
    blank, and both texts are ASCII. *)
Lemma export_not_fetched_bytes :
  let st1 := snd (fetchAndCache (Response 200 (Some spacedEmptyArray)) 7 8 freshState) in
  let st2 := snd (btnExport_click st1) in
  idbStore st1 !! KEY = Some (mkSnapshot (sha256Hex spacedEmptyArray) 7 [])
  /\ downloads st2
     = [mkDownload "icd9.json" "application/json" (list_byte_of_string "[]")]
  /\ list_byte_of_string "[]" <> spacedEmptyArray
  /\ sha256Hex (list_byte_of_string "[]") <> sha256Hex spacedEmptyArray.
Proof.
  cbv zeta. split; [vm_compute; reflexivity |]. split; [vm_compute; reflexivity |].
  split; vm_compute; discriminate.
Qed.

(** ** The further properties at the scenarios *)

(** X2 at a text with none of the special characters. *)
Lemma escapeHtml_safe_witness :
  (forall c, occurs c "ab" = true -> isHtmlSpecial c = false)
  /\ escapeHtml "ab" = "ab".
Proof.
  assert (Hp : forall c, occurs c "ab" = true -> isHtmlSpecial c = false).
  { intros c Hc. simpl in Hc. rewrite Bool.orb_false_r in Hc.
    apply Bool.orb_true_iff in Hc as [Hc | Hc]; apply Ascii.eqb_eq in Hc;
      subst c; reflexivity. }
  split; [exact Hp |].
  exact (proj2 (proj2 (proj2 (escapeHtml_safe "ab"))) Hp).
Defined.

(** X3 at a text with an angle bracket. *)
Lemma escapeHtml_inj_witness :
  escapeHtml "a<b" = escapeHtml "a<b" /\ "a<b" = "a<b".
Proof. split; [reflexivity |]. exact (escapeHtml_inj "a<b" "a<b" eq_refl). Defined.

(** X4 at a cache that holds a snapshot. *)
Lemma idb_round_trip_witness :
  idbAvailable stCached = true
  /\ fst (idbGet "k" (snd (idbSet "k" snapX stCached))) = inr (Some snapX).
Proof.
  split; [reflexivity |].
  exact (proj1 (proj1 (idb_round_trip stCached "k" snapX) eq_refl)).
Defined.

(** X5 at the pinning scenario. *)
Lemma sections_disjoint_witness :
  DATA stXYZ = Some catalogXYZ /\ FUSE stXYZ = Some catalogXYZ
  /\ forall r1 r2, In r1 (els_results (els (renderSearch stXYZ))) ->
                   In r2 (els_favs (els (renderSearch stXYZ))) ->
                   code r1 <> code r2.
Proof.
  split; [reflexivity |]. split; [reflexivity |].
  exact (proj2 (proj2 (sections_disjoint stXYZ catalogXYZ catalogXYZ eq_refl eq_refl))).
Defined.

(** X7 at the pinning scenario. *)
Lemma favourites_block_witness :
  DATA stXYZ = Some catalogXYZ /\ FUSE stXYZ = Some catalogXYZ
  /\ els_favCount (els (renderSearch stXYZ))
     = length (getFavRecords (Some catalogXYZ) stXYZ).
Proof.
  split; [reflexivity |]. split; [reflexivity |].
  exact (proj1 (proj2 (favourites_block stXYZ catalogXYZ catalogXYZ eq_refl eq_refl))).
Defined.

(** X8 at the catalogue of 250 records. *)
Lemma blank_query_results_witness :
  DATA st250 = Some catalog250 /\ FUSE st250 = Some catalog250
  /\ trim (els_q (els st250)) = ""
  /\ sublist (els_results (els (renderSearch st250))) (firstn 200 catalog250).
Proof.
  split; [reflexivity |]. split; [reflexivity |]. split; [reflexivity |].
  exact (proj1 (blank_query_results st250 catalog250 catalog250
                  eq_refl eq_refl eq_refl)).
Defined.

(** X9 at the pinning scenario. *)
Lemma refreshFavouritesUI_agrees_witness :
  DATA stXYZ = Some catalogXYZ /\ FUSE stXYZ = Some catalogXYZ
  /\ sublist (els_favs (els (renderSearch stXYZ)))
             (els_favs (els (refreshFavouritesUI stXYZ))).
Proof.
  split; [reflexivity |]. split; [reflexivity |].
  exact (proj1 (proj2 (proj2
           (refreshFavouritesUI_agrees stXYZ catalogXYZ catalogXYZ eq_refl eq_refl)))).
Defined.

(** X10 at a catalogue that lists the code of X twice. *)
Lemma favourites_resolve_once_witness :
  ~ In (code recX) (map code [recY])
  /\ byCodeMap ([entry "abc.1" "older"] ++ recX :: [recY]) !! code recX = Some recX.
Proof.
  assert (Hn : ~ In (code recX) (map code [recY])).
  { simpl. intros [Hin | []]. discriminate. }
  split; [exact Hn |].
  exact (proj1 (proj2 (favourites_resolve_once stXYZ
                         ([entry "abc.1" "older"] ++ recX :: [recY])))
           [entry "abc.1" "older"] recX [recY] eq_refl Hn).
Defined.

(** X11 at a click on the star of Z, with the search box blank. *)
Lemma star_click_moves_card_witness :
  DATA stXYZblank = Some catalogXYZ /\ FUSE stXYZblank = Some catalogXYZ
  /\ "abc.3" <> "" /\ ("abc.3" ∉ FAVS stXYZblank)
  /\ exists r, In r (els_favs (els (onStarClick (Some (Some "abc.3")) 30 stXYZblank)))
               /\ In r catalogXYZ /\ code r = "abc.3".
Proof.
  assert (Hc : "abc.3" <> "") by discriminate.
  assert (Hn : "abc.3" ∉ FAVS stXYZblank).
  { intros Hin. apply list_elem_of_In in Hin. simpl in Hin.
    destruct Hin as [Hin | [Hin | []]]; discriminate. }
  split; [reflexivity |]. split; [reflexivity |]. split; [exact Hc |].
  split; [exact Hn |].
  destruct (star_click_moves_card stXYZblank catalogXYZ catalogXYZ "abc.3" 30
              eq_refl eq_refl Hc) as [Hadd _].
  destruct (Hadd Hn) as [_ Hpin].
  apply Hpin; [reflexivity |]. simpl. tauto.
Defined.

(** X12 at a click on the star of Z at 30, later than 10 and 20. *)
Lemma newest_favourite_first_witness :
  DATA stXYZblank = Some catalogXYZ /\ FUSE stXYZblank = Some catalogXYZ
  /\ "abc.3" <> "__proto__" /\ ("abc.3" ∉ FAVS stXYZblank)
  /\ (forall c', c' ∈ FAVS stXYZblank ->
        exists t, lruOf (FAV_LRU stXYZblank) c' = Some t /\ t < 30)
  /\ code <$> head (els_favs (els (onStarClick (Some (Some "abc.3")) 30 stXYZblank)))
     = Some "abc.3".
Proof.
  assert (Hc : "abc.3" <> "") by discriminate.
  assert (Hp : "abc.3" <> "__proto__") by discriminate.
  assert (Hn : "abc.3" ∉ FAVS stXYZblank).
  { intros Hin. apply list_elem_of_In in Hin. simpl in Hin.
    destruct Hin as [Hin | [Hin | []]]; discriminate. }
  assert (Hin : In "abc.3" (map code catalogXYZ)) by (simpl; tauto).
  assert (Hold : forall c', c' ∈ FAVS stXYZblank ->
                   exists t, lruOf (FAV_LRU stXYZblank) c' = Some t /\ t < 30).
  { intros c' Hc'. apply list_elem_of_In in Hc'. simpl in Hc'.
    destruct Hc' as [<- | [<- | []]];
      [exists 10 | exists 20]; split; vm_compute; reflexivity. }
  split; [reflexivity |]. split; [reflexivity |]. split; [exact Hp |].
  split; [exact Hn |]. split; [exact Hold |].
  exact (proj2 (newest_favourite_first stXYZblank catalogXYZ catalogXYZ "abc.3" 30
                  eq_refl eq_refl Hc Hp Hn Hin Hold) eq_refl).
Defined.

(** X13 at a payload that is not JSON, with a snapshot in the cache. *)
Lemma refresh_all_or_nothing_witness :
  foreignPayload (Response 200 (Some notJSON)) = false
  /\ fst (fetchAndCache (Response 200 (Some notJSON)) 1 1 stCached)
     = inl JSONSyntaxError
  /\ datasetOf (snd (fetchAndCache (Response 200 (Some notJSON)) 1 1 stCached))
     = datasetOf stCached.
Proof.
  assert (Hnf : foreignPayload (Response 200 (Some notJSON)) = false)
    by (vm_compute; reflexivity).
  assert (He : fst (fetchAndCache (Response 200 (Some notJSON)) 1 1 stCached)
               = inl JSONSyntaxError) by (vm_compute; reflexivity).
  split; [exact Hnf |]. split; [exact He |].
  destruct (proj1 (refresh_all_or_nothing (Response 200 (Some notJSON)) 1 1 stCached)
              Hnf) as [Hfail _].
  exact (proj1 (proj2 (Hfail JSONSyntaxError He))).
Defined.

(** X15 at a refresh that is answered with 503. *)
Lemma refresh_button_witness :
  foreignPayload (Response 503 None) = false
  /\ alerts (btnRefresh_click (Response 503 None) 1 1 stCached)
     = alerts stCached ++ [RefreshFailedAlert (FetchFailed 503)].
Proof.
  split; [reflexivity |].
  exact (proj1 (proj1 (proj2 (refresh_button (Response 503 None) 1 1 stCached) eq_refl)
                  (FetchFailed 503) eq_refl)).
Defined.

(** X16 at a cache that holds a snapshot, the network down. *)
Lemma boot_uses_cache_witness :
  idbAvailable stCached = true /\ idbStore stCached !! KEY = Some snapX
  /\ DATA (boot Rejected 1 1 stCached) = Some (data snapX).
Proof.
  split; [reflexivity |]. split; [reflexivity |].
  exact (proj1 (proj2 (boot_uses_cache stCached snapX eq_refl eq_refl Rejected 1 1))).
Defined.

(** X17 at a fresh session whose fetch is answered with 503. *)
Lemma boot_fetches_on_miss_witness :
  idbAvailable freshState = true /\ idbStore freshState !! KEY = None
  /\ foreignPayload (Response 503 None) = false
  /\ alerts (boot (Response 503 None) 1 1 freshState)
     = alerts freshState ++ [InitFailedAlert (FetchFailed 503)].
Proof.
  split; [reflexivity |]. split; [reflexivity |]. split; [reflexivity |].
  exact (proj1 (proj1 (boot_fetches_on_miss (Response 503 None) 1 1 freshState
                         eq_refl eq_refl eq_refl)
                  (FetchFailed 503) eq_refl)).
Defined.

(** X18 at a session whose database cannot be opened. *)
Lemma boot_stops_without_database_witness :
  idbAvailable stNoIdb = false
  /\ datasetOf (boot (Response 200 (Some spacedEmptyArray)) 1 1 stNoIdb)
     = datasetOf stNoIdb.
Proof.
  split; [reflexivity |].
  exact (proj1 (proj2 (boot_stops_without_database
                         (Response 200 (Some spacedEmptyArray)) 1 1 stNoIdb eq_refl))).
Defined.

(** X19 at a cache that holds a snapshot. *)
Lemma after_clear_witness :
  idbAvailable stCached = true /\ "A" <> ""
  /\ fst (loadFromCache (snd (btnClear_click stCached))) = inr false.
Proof.
  assert (Hc : "A" <> "") by discriminate.
  split; [reflexivity |]. split; [exact Hc |].
  exact (proj1 (after_clear stCached "A" 1 eq_refl Hc)).
Defined.

(** X20 at a page with no catalogue that comes back online to a 503. *)
Lemma online_handler_witness :
  DATA (core (shellOf freshState)) = None
  /\ foreignPayload (Response 503 None) = false
  /\ console (window_online (Response 503 None) 1 1 (shellOf freshState))
     = console (shellOf freshState) ++ [FetchFailed 503].
Proof.
  split; [reflexivity |]. split; [reflexivity |].
  destruct (online_handler (Response 503 None) 1 1 (shellOf freshState))
    as (_ & _ & _ & Hnone).
  destruct (Hnone eq_refl) as (_ & _ & _ & Hmodel).
  destruct (Hmodel eq_refl) as (_ & Hfail & _).
  exact (proj1 (Hfail (FetchFailed 503) eq_refl)).
Defined.

(** X21 at a page that goes offline and gets a click. *)
Lemma banner_follows_connectivity_witness :
  indicatorRight (shellOf freshState)
  /\ indicatorRight (run [WentOffline; ClearClicked] (shellOf freshState)).
Proof.
  assert (Hi : indicatorRight (shellOf freshState)) by (split; reflexivity).
  split; [exact Hi |].
  exact (proj1 (proj2 (banner_follows_connectivity [WentOffline; ClearClicked]
                         (shellOf freshState))) Hi).
Defined.

(** X22 at three edits of the search box, the last one to abc. *)
Lemma typing_burst_witness :
  is_Some (FUSE (core (shellOf stXYZ)))
  /\ core (step TimerFired (run (map Typed (["a"; "ab"] ++ ["abc"])) (shellOf stXYZ)))
     = renderSearch (set_els (typing "abc" (els stXYZ)) stXYZ).
Proof.
  assert (Hf : is_Some (FUSE (core (shellOf stXYZ)))) by (eexists; reflexivity).
  split; [exact Hf |].
  destruct (proj1 (typing_burst ["a"; "ab"] "abc" (shellOf stXYZ)) Hf)
    as (_ & _ & Hr & _).
  exact Hr.
Defined.

(** X23 at an edit, a timer and an export, none of them a star click. *)
Lemma favourites_and_dataset_apart_witness :
  favouritesOf (core (run [Typed "a"; TimerFired; ExportClicked] (shellOf stXYZ)))
  = favouritesOf (core (shellOf stXYZ)).
Proof.
  exact (proj1 (favourites_and_dataset_apart [Typed "a"; TimerFired; ExportClicked]
                  (shellOf stXYZ)) eq_refl).
Defined.

(** X24 at a star click, an edit and a refresh that fails. *)
Lemma page_invariants_witness :
  NoDup (FAVS (core (shellOf stA))) /\ lruWithinFavs (core (shellOf stA))
  /\ indexed (core (shellOf stA))
  /\ NoDup (FAVS (core (run [StarClicked (Some (Some "B")) 200; Typed "a";
                             RefreshClicked Rejected 1 1] (shellOf stA))))
  /\ indexed (core (run [StarClicked (Some (Some "B")) 200; Typed "a";
                         RefreshClicked Rejected 1 1] (shellOf stA))).
Proof.
  assert (Hi : indexed (core (shellOf stA))) by reflexivity.
  assert (Hn : NoDup (FAVS (core (shellOf stA)))).
  { simpl. apply NoDup_singleton. }
  assert (Hl : lruWithinFavs (core (shellOf stA))).
  { intros c [v Hv]. simpl in Hv.
    apply lookup_singleton_Some in Hv as [<- _]. simpl. left. }
  split; [exact Hn |]. split; [exact Hl |]. split; [exact Hi |].
  destruct (page_invariants [StarClicked (Some (Some "B")) 200; Typed "a";
                             RefreshClicked Rejected 1 1] (shellOf stA) Hn Hl)
    as (Hnd & _ & _ & Hidx).
  split; [exact Hnd |]. exact (Hidx Hi eq_refl).
Defined.

(** X25 at the data file in the static cache, the network down or not. *)
Lemma worker_cache_first_witness :
  SW.route dataReq <> SW.Unhandled
  /\ SW.caches_match staticOnly (SW.url dataReq) = Some (plain "old")
  /\ SW.onFetch asWritten dataReq (SW.NetResp (plain "new")) staticOnly
     = Some (plain "old", staticOnly).
Proof.
  assert (Hr : SW.route dataReq <> SW.Unhandled) by (vm_compute; discriminate).
  assert (Hm : SW.caches_match staticOnly (SW.url dataReq) = Some (plain "old"))
    by (vm_compute; reflexivity).
  split; [exact Hr |]. split; [exact Hm |].
  exact (SWFacts.worker_cache_first asWritten dataReq (plain "old") staticOnly Hr Hm
           (SW.NetResp (plain "new"))).
Defined.

(** X26 at a worker with no caches. *)
Lemma worker_fills_on_miss_witness :
  SW.route dataReq <> SW.Unhandled /\ SW.caches_match [] (SW.url dataReq) = None
  /\ ok (SW.status (plain "new")) = true /\ SW.storable (plain "new") = true
  /\ exists cs',
       SW.onFetch asWritten dataReq (SW.NetResp (plain "new")) [] = Some (plain "new", cs')
       /\ (forall net, SW.onFetch asWritten dataReq net cs' = Some (plain "new", cs'))
       /\ (forall u, u <> SW.url dataReq -> SW.caches_match cs' u = SW.caches_match [] u).
Proof.
  assert (Hr : SW.route dataReq <> SW.Unhandled) by (vm_compute; discriminate).
  split; [exact Hr |]. split; [reflexivity |]. split; [reflexivity |].
  split; [reflexivity |].
  exact (SWFacts.worker_fills_on_miss asWritten dataReq (plain "new") []
           Hr eq_refl eq_refl eq_refl).
Defined.


(** X28 at the index page, on a server that answers every path. *)
Lemma install_serves_offline_witness :
  In "./index.html" SW.STATIC_FILES
  /\ served "./index.html" = SW.NetResp (plain "./index.html")
  /\ SW.holds SW.STATIC_CACHE (asWritten "./index.html")
       (SW.activate (SW.install asWritten served [])).
Proof.
  assert (Hin : In "./index.html" SW.STATIC_FILES) by (right; left; reflexivity).
  split; [exact Hin |]. split; [reflexivity |].
  exact (proj1 (proj2 (SWFacts.install_serves_offline asWritten served "./index.html"
                         (plain "./index.html") [] Hin eq_refl eq_refl eq_refl))).
Defined.

(** X29 at an activation, a background sync that brings a newer file, and a
    refresh of the page. *)
Lemma fresh_install_pins_dataset_witness :
  served "./data/icd9.json" = SW.NetResp (plain "./data/icd9.json")
  /\ SW.route dataReq <> SW.Unhandled
  /\ let cs := SW.workerRun asWritten
                 [SW.Activated; SW.Synced (SW.NetResp (plain "newer"))]
                 (SW.install asWritten served []) in
     SW.pageFetch asWritten dataReq (SW.NetResp (plain "newer")) cs
     = (SW.toPage (plain "./data/icd9.json"), cs).
Proof.
  assert (Hr : SW.route dataReq <> SW.Unhandled) by (vm_compute; discriminate).
  split; [reflexivity |]. split; [exact Hr |].
  exact (proj1 (SWFacts.fresh_install_pins_dataset asWritten served
                  (plain "./data/icd9.json") eq_refl eq_refl eq_refl
                  (fun f _ Hne => Hne)
                  [SW.Activated; SW.Synced (SW.NetResp (plain "newer"))]
                  dataReq (SW.NetResp (plain "newer")) eq_refl Hr)).
Defined.

(** X30 at a worker with no caches. *)
Lemma offline_refresh_fails_clean_witness :
  SW.route dataReq = SW.Data /\ SW.caches_match [] (SW.url dataReq) = None
  /\ fetchAndCache (fst (SW.pageFetch asWritten dataReq SW.NetError [])) 1 1 stCached
     = (inl (FetchFailed 503), fetching stCached).
Proof.
  split; [reflexivity |]. split; [reflexivity |].
  exact (proj1 (proj2 (SWFacts.offline_refresh_fails_clean asWritten dataReq [] 1 1
                         stCached eq_refl eq_refl))).
Defined.
